(** * Verification of the ai_proxy request-dispatch core

    Shallow embedding of the parts of the proxy that the specification's
    claims are about:
    - the streaming adapters [streamCodexResponseToAnthropic]
      (src/codex/format.js) and [streamCursorResponseToAnthropic]
      (src/cursor/format.js);
    - the framed-buffer decoder [parseCursorResponseBuffer];
    - the Codex dispatch loop and [parseRetryAfter] (codex handlers);
    - the Cursor account pool ([CursorAccountManager]);
    - the Codex request adapter with [sanitizeSchema] and
      [normalizeFunctionParameters]. *)

From Stdlib Require Import List String Ascii ZArith Lia Bool.
From Stdlib Require Import Strings.Byte Permutation.
Import ListNotations.
Open Scope string_scope.
Open Scope list_scope.
#[local] Set Warnings "-register-all".

(* ------------------------------------------------------------------ *)
(** ** Canonical (Anthropic) stream events *)

(** Identifiers produced by the adapters: either a string coming from the
    backend, or a fresh random one ([crypto.randomBytes]); random ones are
    numbered and never collide with backend strings. *)
Inductive key : Type :=
| KStr (s : string)
| KRand (n : nat).

Definition key_eqb (a b : key) : bool :=
  match a, b with
  | KStr x, KStr y => String.eqb x y
  | KRand x, KRand y => Nat.eqb x y
  | _, _ => false
  end.

(** [content_block.type] of a [content_block_start]. *)
Inductive block_kind : Type :=
| BKText
| BKToolUse (id : key) (name : string).

(** [delta] of a [content_block_delta]. *)
Inductive delta_kind : Type :=
| DText (text : string)
| DInputJson (partial_json : string).

(** The canonical events; message ids, model names and token counts are
    not part of the block framing and are left out. *)
Inductive event : Type :=
| MessageStart
| BlockStart (index : nat) (kind : block_kind)
| BlockDelta (index : nat) (delta : delta_kind)
| BlockStop (index : nat)
| MessageDelta (stop_reason : string)
| MessageStop.

Definition is_tool_start (e : event) : bool :=
  match e with
  | BlockStart _ (BKToolUse _ _) => true
  | _ => false
  end.

Definition is_message_delta (e : event) : bool :=
  match e with MessageDelta _ => true | _ => false end.

(** JS truthiness of an optional string ([undefined] and [''] are falsy). *)
Definition truthy_str (o : option string) : option string :=
  match o with
  | Some s => if String.eqb s "" then None else Some s
  | None => None
  end.

(* ------------------------------------------------------------------ *)
(** ** JavaScript values

    Values as produced by [JSON.parse]. Numbers are integers (the claims
    never depend on fractional values); object fields are kept in their
    enumeration order. The prototype chain only matters to the [in]
    operator, see [Schema.js_in]. *)
Module JS.

Inductive jv : Type :=
| JNull
| JBool (b : bool)
| JNum (z : Z)
| JStr (s : string)
| JArr (l : list jv)
| JObj (fields : list (string * jv)).

(** [!!v] *)
Definition truthy (v : jv) : bool :=
  match v with
  | JNull => false
  | JBool b => b
  | JNum z => negb (Z.eqb z 0)
  | JStr s => negb (String.eqb s "")
  | JArr _ | JObj _ => true
  end.

Definition truthy_opt (o : option jv) : bool :=
  match o with Some v => truthy v | None => false end.

(** [a || b] on possibly undefined operands *)
Definition js_or (a b : option jv) : option jv :=
  if truthy_opt a then a else b.

Definition is_object (v : jv) : bool :=        (* typeof v === 'object' && v *)
  match v with JArr _ | JObj _ => true | _ => false end.

Definition is_array (v : jv) : bool :=
  match v with JArr _ => true | _ => false end.

Fixpoint assoc_get (fs : list (string * jv)) (k : string) : option jv :=
  match fs with
  | [] => None
  | (k', v) :: fs' => if String.eqb k k' then Some v else assoc_get fs' k
  end.

(** [obj[k] = v]: an existing key keeps its position, a new key goes last. *)
Fixpoint assoc_set (fs : list (string * jv)) (k : string) (v : jv) : list (string * jv) :=
  match fs with
  | [] => [(k, v)]
  | (k', v') :: fs' =>
      if String.eqb k k' then (k', v) :: fs' else (k', v') :: assoc_set fs' k v
  end.

(** [delete obj[k]] *)
Definition assoc_del (fs : list (string * jv)) (k : string) : list (string * jv) :=
  filter (fun p => negb (String.eqb k (fst p))) fs.

Definition assoc_has (fs : list (string * jv)) (k : string) : bool :=
  existsb (fun p => String.eqb k (fst p)) fs.

(** Property read [v.k] ([undefined] as [None]). *)
Definition get (v : jv) (k : string) : option jv :=
  match v with JObj fs => assoc_get fs k | _ => None end.

Fixpoint nat_str_aux (fuel n : nat) (acc : string) : string :=
  match fuel with
  | 0 => acc
  | S f =>
      let acc' := String (ascii_of_nat (48 + Nat.modulo n 10)) acc in
      if Nat.ltb n 10 then acc' else nat_str_aux f (Nat.div n 10) acc'
  end.

(** Decimal rendering of a natural number. *)
Definition nat_to_string (n : nat) : string := nat_str_aux (S n) n "".

Definition Z_to_string (z : Z) : string :=
  if Z.ltb z 0 then String.append "-" (nat_to_string (Z.to_nat (- z))) else nat_to_string (Z.to_nat z).

(** [String(v)]; [None] is the [TypeError] of converting an object with an
    own [toString] key: a parsed value is never callable, so
    [OrdinaryToPrimitive] finds no usable method. Otherwise an object gives
    ["[object Object]"] and an array the join of its elements with [","],
    [null] ones empty. *)
Fixpoint js_String (v : jv) : option string :=
  match v with
  | JNull => Some "null"
  | JBool true => Some "true"
  | JBool false => Some "false"
  | JNum z => Some (Z_to_string z)
  | JStr s => Some s
  | JArr l =>
      (fix join (l : list jv) : option string :=
         match l with
         | [] => Some ""
         | [x] => match x with JNull => Some "" | _ => js_String x end
         | x :: l' =>
             match (match x with JNull => Some "" | _ => js_String x end), join l' with
             | Some a, Some b => Some (String.append a (String.append "," b))
             | _, _ => None
             end
         end) l
  | JObj fs => if assoc_has fs "toString" then None else Some "[object Object]"
  end.

(** [arr.join(sep)] over possibly undefined elements: [null] and
    [undefined] are empty, the others go through [String]. *)
Fixpoint join_opt (sep : string) (l : list (option jv)) : option string :=
  match l with
  | [] => Some ""
  | [x] => match x with None | Some JNull => Some "" | Some v => js_String v end
  | x :: l' =>
      match (match x with None | Some JNull => Some "" | Some v => js_String v end),
            join_opt sep l' with
      | Some a, Some b => Some (String.append a (String.append sep b))
      | _, _ => None
      end
  end.

Fixpoint string_chars (s : string) : list string :=
  match s with
  | EmptyString => []
  | String c s' => String c EmptyString :: string_chars s'
  end.

(** Own enumerable entries ([Object.entries], [Object.assign] and object
    spread): the fields of an object, the indices of an array or string. *)
Definition own_entries (v : jv) : list (string * jv) :=
  match v with
  | JObj fs => fs
  | JArr l => combine (map nat_to_string (seq 0 (List.length l))) l
  | JStr s => combine (map nat_to_string (seq 0 (String.length s)))
                      (map JStr (string_chars s))
  | _ => []
  end.

(** [Object.assign(target, source)] on field lists. *)
Definition assign (target : list (string * jv)) (source : jv) : list (string * jv) :=
  fold_left (fun acc p => assoc_set acc (fst p) (snd p)) (own_entries source) target.

(** SameValueZero, as used by [Set]: distinct parsed objects and arrays
    are distinct references. *)
Definition same_value_zero (a b : jv) : bool :=
  match a, b with
  | JNull, JNull => true
  | JBool x, JBool y => Bool.eqb x y
  | JNum x, JNum y => Z.eqb x y
  | JStr x, JStr y => String.eqb x y
  | _, _ => false
  end.

(** [[...new Set(l)]]: first occurrences, in order. *)
Fixpoint dedup_aux (seen : list jv) (l : list jv) : list jv :=
  match l with
  | [] => []
  | x :: l' =>
      if existsb (same_value_zero x) seen then dedup_aux seen l'
      else x :: dedup_aux (x :: seen) l'
  end.

Definition dedup (l : list jv) : list jv := dedup_aux [] l.

(** [s.split('/').pop()] *)
Fixpoint last_segment_aux (s : string) (cur : string) : string :=
  match s with
  | EmptyString => cur
  | String c s' =>
      if Ascii.eqb c "/"%char then last_segment_aux s' "" else last_segment_aux s' (String.append cur (String c ""))
  end.

Definition last_segment (s : string) : string := last_segment_aux s "".

End JS.

(* ------------------------------------------------------------------ *)
(** ** Tool schemas (src/codex/format.js: sanitizeSchema,
    normalizeFunctionParameters)

    Objects are field lists in insertion order; the schemas at hand have no
    array-index keys, which JavaScript would list first. *)

Module Schema.
Import JS.

(** The schema returned for a missing or non-object schema. *)
Definition reason_schema : jv :=
  JObj [("type", JStr "object");
        ("properties", JObj [("reason", JObj [("type", JStr "string");
                                               ("description", JStr "Reason for calling this tool")])]);
        ("required", JArr [JStr "reason"])].

(** [v === s] for a possibly undefined [v] and a string [s]. *)
Definition is_str (v : option jv) (s : string) : bool :=
  match v with Some (JStr s') => String.eqb s' s | _ => false end.

(** Keys [k in obj] finds on [Object.prototype]. *)
Definition proto_keys : list string :=
  ["constructor"; "hasOwnProperty"; "isPrototypeOf"; "propertyIsEnumerable";
   "toString"; "toLocaleString"; "valueOf"; "__proto__"; "__defineGetter__";
   "__defineSetter__"; "__lookupGetter__"; "__lookupSetter__"].

(** [k in obj] for a plain object. *)
Definition js_in (fs : list (string * jv)) (k : string) : bool :=
  assoc_has fs k || existsb (String.eqb k) proto_keys.

(** The elements [...v] spreads; [None] is the [TypeError] of spreading a
    value that is not iterable. *)
Definition spread (v : jv) : option (list jv) :=
  match v with
  | JArr l => Some l
  | JStr s => Some (map JStr (string_chars s))
  | _ => None
  end.

Fixpoint map_opt (f : jv -> option jv) (l : list jv) : option (list jv) :=
  match l with
  | [] => Some []
  | x :: l' =>
      match f x, map_opt f l' with
      | Some y, Some l'' => Some (y :: l'')
      | _, _ => None
      end
  end.

(** [if (Array.isArray(result.type)) ...] *)
Definition flatten_type (fs : list (string * jv)) : list (string * jv) :=
  match assoc_get fs "type" with
  | Some (JArr ts) =>
      let nonNull := filter (fun t => negb (is_str (Some t) "null")) ts in
      assoc_set fs "type" (match nonNull with t :: _ => t | [] => JStr "string" end)
  | _ => fs
  end.

(** The object returned for a truthy [$ref]; [None] when [String(result.$ref)]
    or the template over [result.description] throws. *)
Definition ref_hint (fs : list (string * jv)) (ref : jv) : option jv :=
  match js_String ref with
  | None => None
  | Some r =>
      let seg := last_segment r in
      let name := if String.eqb seg "" then "object" else seg in
      let desc :=
        match assoc_get fs "description" with
        | Some d => if truthy d
                    then option_map (fun t => String.append t
                                                (String.append " (See: " (String.append name ")")))
                                    (js_String d)
                    else Some (String.append "See: " name)
        | None => Some (String.append "See: " name)
        end in
      option_map (fun d => JObj [("type", JStr "object"); ("description", JStr d)]) desc
  end.

(** The [merged] accumulator of the [allOf] loop: [merged.properties] and
    [merged.required]. The other keys the loop copies into [merged] are
    never read back, so they are left out. *)
Definition merge_sub (acc : list (string * jv) * list jv) (sub : jv)
  : list (string * jv) * list jv :=
  let '(mprops, mreq) := acc in
  if truthy sub && is_object sub then
    (match get sub "properties" with
     | Some p => if truthy p then assign mprops p else mprops
     | None => mprops
     end,
     match get sub "required" with
     | Some (JArr r) => mreq ++ r
     | _ => mreq
     end)
  else (mprops, mreq).

(** [if (Array.isArray(result.allOf) && result.allOf.length > 0) ...] *)
Definition merge_allOf (fs : list (string * jv)) : option (list (string * jv)) :=
  match assoc_get fs "allOf" with
  | Some (JArr ((_ :: _) as subs)) =>
      let '(mprops, mreq) := fold_left merge_sub subs ([], []) in
      let fs1 := assoc_del fs "allOf" in
      let fs2 :=
        if (0 <? List.length mprops)%nat then
          assoc_set fs1 "properties"
            (JObj (assign mprops (match js_or (assoc_get fs1 "properties") (Some (JObj [])) with
                                  | Some p => p | None => JObj [] end)))
        else fs1 in
      match mreq with
      | [] => Some fs2
      | _ :: _ =>
          let own := match js_or (assoc_get fs2 "required") (Some (JArr [])) with
                     | Some r => spread r | None => Some [] end in
          match own with
          | Some l => Some (assoc_set fs2 "required" (JArr (dedup (mreq ++ l))))
          | None => None
          end
      end
  | _ => Some fs
  end.

(** [score] of the [anyOf]/[oneOf] flattening. *)
Definition score (o : jv) : nat :=
  if is_str (get o "type") "object" || truthy_opt (get o "properties") then 3
  else if is_str (get o "type") "array" || truthy_opt (get o "items") then 2
  else if truthy_opt (get o "type") && negb (is_str (get o "type") "null") then 1
  else 0.

(** One round of [for (const key of ['anyOf', 'oneOf'])]. *)
Definition flatten_choice (key : string) (fs : list (string * jv)) : list (string * jv) :=
  match assoc_get fs key with
  | Some (JArr ((_ :: _) as l)) =>
      let opts := filter (fun o => truthy o && is_object o) l in
      let best := match opts with
                  | [] => None
                  | o0 :: _ => Some (fold_left (fun a b => if Nat.leb (score b) (score a) then a else b)
                                               opts o0)
                  end in
      let fs1 := assoc_del fs key in
      match best with
      | Some b =>
          fold_left (fun acc p =>
                       let '(k, v) := p in
                       if negb (js_in acc k) || String.eqb k "type" || String.eqb k "properties"
                          || String.eqb k "items"
                       then assoc_set acc k v else acc)
                    (own_entries b) fs1
      | None => fs1
      end
  | _ => fs
  end.

Definition STRIP : list string :=
  ["additionalProperties"; "default"; "$schema"; "$defs"; "definitions";
   "$ref"; "$id"; "$comment"; "minLength"; "maxLength"; "pattern"; "format";
   "minItems"; "maxItems"; "examples"; "allOf"; "anyOf"; "oneOf"; "const"].

Definition strip (fs : list (string * jv)) : list (string * jv) :=
  fold_left assoc_del STRIP fs.

(** [cleaned[k] = sanitizeSchema(v)] over [Object.entries(result.properties)]. *)
Fixpoint clean_entries (rec : jv -> option jv) (es : list (string * jv)) (cleaned : list (string * jv))
  : option (list (string * jv)) :=
  match es with
  | [] => Some cleaned
  | (k, v) :: es' =>
      match rec v with
      | Some v' => clean_entries rec es' (assoc_set cleaned k v')
      | None => None
      end
  end.

Definition recurse_properties (rec : jv -> option jv) (fs : list (string * jv))
  : option (list (string * jv)) :=
  match assoc_get fs "properties" with
  | Some p =>
      if truthy p && is_object p then
        match clean_entries rec (own_entries p) [] with
        | Some cleaned => Some (assoc_set fs "properties" (JObj cleaned))
        | None => None
        end
      else Some fs
  | None => Some fs
  end.

Definition recurse_items (rec : jv -> option jv) (fs : list (string * jv))
  : option (list (string * jv)) :=
  match assoc_get fs "items" with
  | Some it =>
      if truthy it then
        match (match it with JArr l => option_map JArr (map_opt rec l) | _ => rec it end) with
        | Some it' => Some (assoc_set fs "items" it')
        | None => None
        end
      else Some fs
  | None => Some fs
  end.

(** [required.filter(p => defined.has(p))] with [defined] the keys of
    [props]; the field is deleted when nothing is left. *)
Definition filter_required (fs : list (string * jv)) (r : list jv) (props : jv)
  : list (string * jv) :=
  let keys := map fst (own_entries props) in
  let r' := filter (fun p => match p with
                             | JStr s => existsb (String.eqb s) keys
                             | _ => false
                             end) r in
  match r' with
  | [] => assoc_del fs "required"
  | _ => assoc_set fs "required" (JArr r')
  end.

Definition check_required (fs : list (string * jv)) : list (string * jv) :=
  match assoc_get fs "required", assoc_get fs "properties" with
  | Some (JArr r), Some p => if truthy p then filter_required fs r p else fs
  | _, _ => fs
  end.

(** The body of [sanitizeSchema] on a non-array object, with [rec] for the
    recursive calls. [None] is a [TypeError]: of the [$ref] hint or of the
    [allOf] merge. *)
Definition sanitize_object (rec : jv -> option jv) (schema : list (string * jv)) : option jv :=
  let result := flatten_type schema in
  let ref := assoc_get result "$ref" in
  if truthy_opt ref then
    ref_hint result (match ref with Some r => r | None => JNull end)
  else
    match merge_allOf result with
    | None => None
    | Some r1 =>
        let r2 := strip (flatten_choice "oneOf" (flatten_choice "anyOf" r1)) in
        match recurse_properties rec r2 with
        | None => None
        | Some r3 =>
            match recurse_items rec r3 with
            | None => None
            | Some r4 => Some (JObj (check_required r4))
            end
        end
    end.

(** A bound on the number of nested calls. *)
Fixpoint jv_size (v : jv) : nat :=
  match v with
  | JArr l => S (fold_right (fun x n => jv_size x + n) 0 l)
  | JObj fs => S (fold_right (fun p n => jv_size (snd p) + n) 0 fs)
  | _ => 1
  end.

(** [sanitizeSchema] with [fuel] nested calls; [None] when it throws (or
    runs out of fuel). *)
Fixpoint sanitize_fuel (fuel : nat) (schema : jv) : option jv :=
  match fuel with
  | O => None
  | S f =>
      if negb (truthy schema) || negb (is_object schema) then Some reason_schema
      else match schema with
           | JArr l => option_map JArr (map_opt (sanitize_fuel f) l)
           | JObj fs => sanitize_object (sanitize_fuel f) fs
           | _ => Some reason_schema
           end
  end.

(** [sanitizeSchema(schema)], [undefined] as [None]. *)
Definition sanitizeSchema (schema : option jv) : option jv :=
  match schema with
  | None => Some reason_schema
  | Some v => sanitize_fuel (jv_size v) v
  end.

(** [normalizeFunctionParameters(schema)] *)
Definition normalizeFunctionParameters (schema : jv) : jv :=
  if negb (truthy schema) || negb (is_object schema) || is_array schema then
    JObj [("type", JStr "object"); ("properties", JObj [])]
  else
    match schema with
    | JObj result =>
        let ty := assoc_get result "type" in
        if truthy_opt ty && negb (is_str ty "object") then
          JObj [("type", JStr "object"); ("properties", JObj [("input", JObj result)]);
                ("required", JArr [JStr "input"])]
        else
          let r1 := if truthy_opt ty then result else assoc_set result "type" (JStr "object") in
          let r2 :=
            match assoc_get r1 "properties" with
            | Some p => if truthy p && is_object p && negb (is_array p) then r1
                        else assoc_set r1 "properties" (JObj [])
            | None => assoc_set r1 "properties" (JObj [])
            end in
          match assoc_get r2 "required" with
          | Some (JArr r) =>
              JObj (filter_required r2 r (match assoc_get r2 "properties" with
                                          | Some p => p | None => JObj [] end))
          | _ => JObj r2
          end
    | _ => schema
    end.

End Schema.

(* ------------------------------------------------------------------ *)
(** ** [convertAnthropicToCodexRequest] (src/codex/format.js)

    The request, its messages, blocks and tool declarations are JSON values.
    We model the two fields of the result the tool handling writes: [input]
    and [tools]; [model], [instructions], [stream], [store] and
    [tool_choice] are set apart from them, except for the one way building
    [instructions] can throw. Property reads on [null] throw. *)

Module Request.
Import JS.

(** A part of a [message] item: its [type] and [text]. *)
Definition part : Type := (string * jv)%type.

Inductive item : Type :=
| WMessage (role : string) (content : list part)
| WFunctionCall (call_id : jv) (name : jv) (arguments : string)
| WFunctionCallOutput (call_id : jv) (output : string).

Inductive tool : Type :=
| WebSearchTool                                   (* { type: 'web_search' } *)
| FunctionTool (name : option jv) (description : option jv) (parameters : jv).

Record result : Type := mkResult {
  input : list item;
  tools : option (list tool)                      (* absent when not set *)
}.

Definition is_null (v : jv) : bool := match v with JNull => true | _ => false end.

(** [name === 'WebSearch' || name === 'web_search'] *)
Definition ws_name (name : option jv) : bool :=
  Schema.is_str name "WebSearch" || Schema.is_str name "web_search".

(** [new Set(['Task', 'dispatch_agent', 'computer', 'browser']).has(name)] *)
Definition blocked (name : option jv) : bool :=
  existsb (Schema.is_str name) ["Task"; "dispatch_agent"; "computer"; "browser"].

(** SameValueZero on possibly undefined values. *)
Definition same_value_zero_opt (a b : option jv) : bool :=
  match a, b with
  | None, None => true
  | Some x, Some y => same_value_zero x y
  | _, _ => false
  end.

(** [set.has(x)] for a [Set] built from the values [ids]. *)
Definition set_has (ids : list (option jv)) (x : option jv) : bool :=
  existsb (fun y => same_value_zero_opt y x) ids.

Definition clean_block (block : jv) : jv :=
  if negb (truthy block) || negb (truthy_opt (get block "cache_control")) then block
  else match block with
       | JObj fs => JObj (assoc_del fs "cache_control")
       | _ => block
       end.

(** [cleanCacheControl(messages)] *)
Definition cleanCacheControl (messages : jv) : jv :=
  match messages with
  | JArr ms =>
      JArr (map (fun msg =>
                   if negb (truthy msg) then msg else
                   match msg with
                   | JObj fs =>
                       match assoc_get fs "content" with
                       | Some (JArr bs) => JObj (assoc_set fs "content" (JArr (map clean_block bs)))
                       | _ => msg
                       end
                   | _ => msg
                   end) ms)
  | _ => messages
  end.

(** The [webSearchToolUseIds] pre-scan: the [id] of every [tool_use] block
    named [WebSearch] or [web_search], [undefined] included. *)
Definition prescan (ms : list jv) : list (option jv) :=
  flat_map (fun msg =>
              match get msg "content" with
              | Some (JArr bs) =>
                  flat_map (fun b =>
                              if truthy b && Schema.is_str (get b "type") "tool_use"
                                 && ws_name (get b "name")
                              then [get b "id"] else []) bs
              | _ => []
              end) ms.

Definition is_tool_block (b : jv) : bool :=
  truthy b && (Schema.is_str (get b "type") "tool_use" || Schema.is_str (get b "type") "tool_result").

(** The line feed [join('\n')] puts between elements. *)
Definition nl : string := String (ascii_of_nat 10) "".

Section Convert.

(** [JSON.stringify] on JSON values. *)
Variable JSON_stringify : jv -> string.
(** The hex string of the [n]-th [crypto.randomBytes(8)] of a conversion. *)
Variable random_hex : nat -> string.

(** [toolResultToOutput(content)]; [None] when the [join] throws. *)
Definition toolResultToOutput (content : option jv) : option string :=
  match content with
  | Some (JStr s) => Some s
  | Some (JArr cs) =>
      match join_opt nl (map (fun c => js_or (get c "text") (Some (JStr "")))
                             (filter (fun c => truthy c && Schema.is_str (get c "type") "text") cs)) with
      | None => None
      | Some texts => Some (if String.eqb texts "" then JSON_stringify (JArr cs) else texts)
      end
  | Some v => Some (if truthy v && is_object v then JSON_stringify v else "")
  | None => Some ""
  end.

(** [v || `call_${crypto.randomBytes(8).toString('hex')}`], drawing the
    [n]-th random string when [v] is falsy. *)
Definition or_random (v : option jv) (n : nat) : jv * nat :=
  match js_or v None with
  | Some x => (x, n)
  | None => (JStr (String.append "call_" (random_hex n)), S n)
  end.

(** One block of the [if (hasToolBlocks)] loop; [None] when it throws. *)
Definition emit_block (ids : list (option jv)) (b : jv) (n : nat) : option (list item * nat) :=
  if negb (truthy b) then Some ([], n) else
  if Schema.is_str (get b "type") "tool_use" then
    if ws_name (get b "name") then Some ([], n) else
    let '(cid, n') := or_random (get b "id") n in
    Some ([WFunctionCall cid
             (match js_or (get b "name") None with Some v => v | None => JStr "" end)
             (JSON_stringify (match js_or (get b "input") None with Some v => v | None => JObj [] end))],
          n')
  else if Schema.is_str (get b "type") "tool_result" then
    if set_has ids (get b "tool_use_id") then Some ([], n) else
    let '(cid, n') := or_random (js_or (get b "tool_use_id") (get b "id")) n in
    match toolResultToOutput (get b "content") with
    | Some o => Some ([WFunctionCallOutput cid o], n')
    | None => None
    end
  else Some ([], n).

Fixpoint emit_blocks (ids : list (option jv)) (bs : list jv) (n : nat) : option (list item * nat) :=
  match bs with
  | [] => Some ([], n)
  | b :: bs' =>
      match emit_block ids b n with
      | None => None
      | Some (out1, n1) =>
          match emit_blocks ids bs' n1 with
          | None => None
          | Some (out2, n2) => Some (out1 ++ out2, n2)
          end
      end
  end.

(** The [parts] of a [user] or [assistant] message. *)
Definition text_parts (ptype : string) (content : option jv) : list part :=
  match content with
  | Some (JArr bs) =>
      flat_map (fun b =>
                  if truthy b && Schema.is_str (get b "type") "text" && truthy_opt (get b "text")
                  then [(ptype, match get b "text" with Some t => t | None => JNull end)]
                  else []) bs
  | Some (JStr s) => if String.eqb s "" then [] else [(ptype, JStr s)]
  | _ => []
  end.

(** One round of [for (const msg of messages)]. *)
Definition emit_message (ids : list (option jv)) (msg : jv) (n : nat) : option (list item * nat) :=
  let role := get msg "role" in
  let content := get msg "content" in
  let msg_items :=
    if Schema.is_str role "user" || Schema.is_str role "assistant" then
      let r := if Schema.is_str role "user" then "user" else "assistant" in
      match text_parts (if Schema.is_str role "user" then "input_text" else "output_text") content with
      | [] => []
      | parts => [WMessage r parts]
      end
    else [] in
  match content with
  | Some (JArr bs) =>
      if existsb is_tool_block bs then
        match emit_blocks ids bs n with
        | Some (tool_items, n') => Some (msg_items ++ tool_items, n')
        | None => None
        end
      else Some (msg_items, n)
  | _ => Some (msg_items, n)
  end.

Fixpoint emit_messages (ids : list (option jv)) (ms : list jv) (n : nat) : option (list item * nat) :=
  match ms with
  | [] => Some ([], n)
  | m :: ms' =>
      match emit_message ids m n with
      | None => None
      | Some (out1, n1) =>
          match emit_messages ids ms' n1 with
          | None => None
          | Some (out2, n2) => Some (out1 ++ out2, n2)
          end
      end
  end.

(** [result.input] from the cleaned messages; [None] when iterating them,
    reading [msg.content] of a [null] message, or converting a
    [tool_result], throws. *)
Definition convert_messages (messages : jv) : option (list item) :=
  match Schema.spread messages with
  | None => None
  | Some ms =>
      if existsb is_null ms then None
      else option_map fst (emit_messages (prescan ms) ms 0)
  end.

(** [t.function?.k] *)
Definition fn_get (t : jv) (k : string) : option jv :=
  match get t "function" with
  | Some JNull | None => None
  | Some f => get f k
  end.

(** [t.input_schema || t.function?.input_schema || t.function?.parameters || t.parameters] *)
Definition tool_rawSchema (t : jv) : option jv :=
  js_or (js_or (js_or (get t "input_schema") (fn_get t "input_schema"))
               (fn_get t "parameters"))
        (get t "parameters").

(** [normalizeFunctionParameters(sanitizeSchema(rawSchema))] *)
Definition wire_parameters (rawSchema : option jv) : option jv :=
  option_map Schema.normalizeFunctionParameters (Schema.sanitizeSchema rawSchema).

Fixpoint function_tools (ts : list jv) : option (list tool) :=
  match ts with
  | [] => Some []
  | t :: ts' =>
      match wire_parameters (tool_rawSchema t), function_tools ts' with
      | Some p, Some rest => Some (FunctionTool (get t "name") (get t "description") p :: rest)
      | _, _ => None
      end
  end.

(** [result.tools]; the outer [None] is a throw. *)
Definition convert_tools (tools : option jv) : option (option (list tool)) :=
  match tools with
  | Some (JArr ((_ :: _) as ts)) =>
      if existsb is_null ts then None else
      let hasWebSearch := existsb (fun t => ws_name (get t "name")) ts in
      let otherTools := filter (fun t => negb (ws_name (get t "name")) && negb (blocked (get t "name"))) ts in
      match function_tools otherTools with
      | Some fts => Some (Some ((if hasWebSearch then [WebSearchTool] else []) ++ fts))
      | None => None
      end
  | _ => Some None
  end.

(** [anthropicRequest.messages || []] *)
Definition messages_of (req : jv) : jv :=
  match js_or (get req "messages") None with Some m => m | None => JArr [] end.

(** Whether building [result.instructions] goes through: for an array
    [system], [.filter(b => b && b.type === 'text').map(b => b.text).join('
')]
    throws when a [text] cannot be converted to a string. *)
Definition instructions_ok (system : option jv) : bool :=
  match system with
  | Some (JArr bs) =>
      match join_opt nl (map (fun b => get b "text")
                             (filter (fun b => truthy b && Schema.is_str (get b "type") "text") bs)) with
      | Some _ => true
      | None => false
      end
  | _ => true
  end.

(** [convertAnthropicToCodexRequest(req)]; [None] when it throws, which
    includes destructuring a [null] request. *)
Definition convertAnthropicToCodexRequest (req : jv) : option result :=
  if is_null req then None else
  if negb (instructions_ok (get req "system")) then None else
  match convert_messages (cleanCacheControl (messages_of req)) with
  | None => None
  | Some inp =>
      match convert_tools (get req "tools") with
      | None => None
      | Some ts => Some (mkResult inp ts)
      end
  end.

End Convert.

End Request.

(* ------------------------------------------------------------------ *)
(** ** [streamCodexResponseToAnthropic] (src/codex/format.js)

    The SSE framing (split on newlines, [data:] prefix, [JSON.parse]) is
    done before the event dispatch; we model the adapter over the sequence
    of parsed chunks, with [chunk.type || chunk.event] and the
    [chunk.x || chunk.data?.x] look-ups already resolved. *)
Module Codex.

Record item : Type := mkItem {
  item_type : string;
  item_call_id : option string;
  item_id : option string;
  item_name : option string
}.

Inductive chunk : Type :=
| OutputTextDelta (delta : string)
| OutputItemAdded (it : option item)
| FunctionCallArgumentsDelta (item_id : option string) (delta : string)
| OutputItemDone
| Completed (input_tokens output_tokens : nat)
| OtherChunk.

(** [toolBlockMap]: item id -> (callId, blockIndex), in insertion order. *)
Definition tool_map := list (key * (key * nat)).

Fixpoint map_get (m : tool_map) (k : key) : option (key * nat) :=
  match m with
  | [] => None
  | (k', v) :: m' => if key_eqb k k' then Some v else map_get m' k
  end.

(** [toolBlockMap[itemId] = v]: an existing key keeps its position. *)
Fixpoint map_set (m : tool_map) (k : key) (v : key * nat) : tool_map :=
  match m with
  | [] => [(k, v)]
  | (k', v') :: m' =>
      if key_eqb k k' then (k', v) :: m' else (k', v') :: map_set m' k v
  end.

(** [Object.keys(toolBlockMap).pop()] *)
Definition map_last_key (m : tool_map) : option key :=
  match rev m with
  | [] => None
  | (k, _) :: _ => Some k
  end.

Record state : Type := mkState {
  started : bool;
  textBlockIndex : option nat;
  currentToolItemId : option key;
  toolBlockMap : tool_map;
  nextIndex : nat;
  outputTokens : nat;
  inputTokens : nat;
  hasToolUse : bool;
  rand : nat   (* counter for [crypto.randomBytes] ids *)
}.

Definition init : state := mkState false None None [] 0 0 0 false 0.

(** [yield* ensureStarted()] *)
Definition ensureStarted (s : state) : state * list event :=
  if started s then (s, [])
  else ({| started := true; textBlockIndex := textBlockIndex s;
           currentToolItemId := currentToolItemId s;
           toolBlockMap := toolBlockMap s; nextIndex := nextIndex s;
           outputTokens := outputTokens s; inputTokens := inputTokens s;
           hasToolUse := hasToolUse s; rand := rand s |}, [MessageStart]).

(** One iteration of the [for (const line of lines)] body. *)
Definition step (s : state) (c : chunk) : state * list event :=
  match c with
  | OutputTextDelta d =>
      if String.eqb d "" then (s, []) else
      let '(s1, e1) := ensureStarted s in
      match textBlockIndex s1 with
      | Some i => (s1, e1 ++ [BlockDelta i (DText d)])
      | None =>
          let i := nextIndex s1 in
          ({| started := started s1; textBlockIndex := Some i;
              currentToolItemId := currentToolItemId s1;
              toolBlockMap := toolBlockMap s1; nextIndex := S i;
              outputTokens := outputTokens s1; inputTokens := inputTokens s1;
              hasToolUse := hasToolUse s1; rand := rand s1 |},
           e1 ++ [BlockStart i BKText; BlockDelta i (DText d)])
      end
  | OutputItemAdded None => (s, [])
  | OutputItemAdded (Some it) =>
      if String.eqb (item_type it) "function_call" then
        let '(s1, e1) := ensureStarted s in
        let e2 := match textBlockIndex s1 with
                  | Some i => [BlockStop i] | None => [] end in
        let '(callId, r) := match truthy_str (item_call_id it) with
                            | Some cid => (KStr cid, rand s1)
                            | None => (KRand (rand s1), S (rand s1)) end in
        let itemId := match truthy_str (item_id it) with
                      | Some iid => KStr iid | None => callId end in
        let blockIndex := nextIndex s1 in
        let nm := match truthy_str (item_name it) with
                  | Some n => n | None => "" end in
        ({| started := started s1; textBlockIndex := None;
            currentToolItemId := Some itemId;
            toolBlockMap := map_set (toolBlockMap s1) itemId (callId, blockIndex);
            nextIndex := S blockIndex;
            outputTokens := outputTokens s1; inputTokens := inputTokens s1;
            hasToolUse := true; rand := r |},
         e1 ++ e2 ++ [BlockStart blockIndex (BKToolUse callId nm)])
      else (s, [])   (* web_search_call ids are only recorded *)
  | FunctionCallArgumentsDelta iid d =>
      if String.eqb d "" then (s, []) else
      let entry := match truthy_str iid with
                   | Some k => map_get (toolBlockMap s) (KStr k)
                   | None => match currentToolItemId s with
                             | Some k => map_get (toolBlockMap s) k
                             | None => None end
                   end in
      match entry with
      | Some (_, bi) => (s, [BlockDelta bi (DInputJson d)])
      | None =>
          let last := match currentToolItemId s with
                      | Some k => Some k
                      | None => map_last_key (toolBlockMap s) end in
          match last with
          | Some k => match map_get (toolBlockMap s) k with
                      | Some (_, bi) => (s, [BlockDelta bi (DInputJson d)])
                      | None => (s, []) end
          | None => (s, [])
          end
      end
  | OutputItemDone => (s, [])
  | Completed it ot =>
      ({| started := started s; textBlockIndex := textBlockIndex s;
          currentToolItemId := currentToolItemId s;
          toolBlockMap := toolBlockMap s; nextIndex := nextIndex s;
          outputTokens := match ot with 0 => outputTokens s | _ => ot end;
          inputTokens := match it with 0 => inputTokens s | _ => it end;
          hasToolUse := hasToolUse s; rand := rand s |}, [])
  | OtherChunk => (s, [])
  end.

(** The read loop: all chunks in order. *)
Fixpoint run (s : state) (cs : list chunk) : state * list event :=
  match cs with
  | [] => (s, [])
  | c :: cs' =>
      let '(s1, e1) := step s c in
      let '(s2, e2) := run s1 cs' in
      (s2, e1 ++ e2)
  end.

(** Code after the read loop. *)
Definition finish (s : state) : list event :=
  (if started s then
     (match textBlockIndex s with Some i => [BlockStop i] | None => [] end) ++
     (match currentToolItemId s with
      | Some k => match map_get (toolBlockMap s) k with
                  | Some (_, bi) => [BlockStop bi] | None => [] end
      | None => [] end)
   else [MessageStart; BlockStart 0 BKText; BlockStop 0]) ++
  [MessageDelta (if hasToolUse s then "tool_use" else "end_turn"); MessageStop].

Definition streamCodexResponseToAnthropic (cs : list chunk) : list event :=
  let '(s, es) := run init cs in es ++ finish s.

End Codex.

(* ------------------------------------------------------------------ *)
(** ** [streamCursorResponseToAnthropic] (src/cursor/format.js)

    The adapter first decodes the whole buffer with
    [parseCursorResponseBuffer] (modelled below as [parse]); its loop runs
    over the decoded results, each an object [{text?, toolCall?, error?}]. *)
Module Cursor.

Record tool_call : Type := mkToolCall {
  tc_id : option string;          (* [tc.id]; a [Map] key, [undefined] included *)
  tc_name : option string;        (* [tc.function?.name] *)
  tc_arguments : option string;   (* [tc.function?.arguments] *)
  tc_isLast : bool                (* truthiness of [tc.isLast] *)
}.

Record result : Type := mkResult {
  r_text : option string;
  r_toolCall : option tool_call;
  r_error : option string
}.

Definition opt_str_eqb (a b : option string) : bool :=
  match a, b with
  | Some x, Some y => String.eqb x y
  | None, None => true
  | _, _ => false
  end.

(** [toolBlocks]: a [Map] from [tc.id] to [{index, closed}], in insertion
    order. *)
Definition blocks := list (option string * (nat * bool)).

Fixpoint blocks_get (m : blocks) (k : option string) : option (nat * bool) :=
  match m with
  | [] => None
  | (k', v) :: m' => if opt_str_eqb k k' then Some v else blocks_get m' k
  end.

Fixpoint blocks_set (m : blocks) (k : option string) (v : nat * bool) : blocks :=
  match m with
  | [] => [(k, v)]
  | (k', v') :: m' =>
      if opt_str_eqb k k' then (k', v) :: m' else (k', v') :: blocks_set m' k v
  end.

(** [for (const block of toolBlocks.values()) if (!block.closed) { block.closed = true; yield stop }] *)
Fixpoint close_all (m : blocks) : blocks * list event :=
  match m with
  | [] => ([], [])
  | (k, (i, closed)) :: m' =>
      let '(m'', es) := close_all m' in
      if closed then ((k, (i, closed)) :: m'', es)
      else ((k, (i, true)) :: m'', BlockStop i :: es)
  end.

Record state : Type := mkState {
  started : bool;
  nextIndex : nat;
  textBlockIndex : option nat;
  sawToolCall : bool;
  toolBlocks : blocks
}.

Definition init : state := mkState false 0 None false [].

(** [ensureMessageStart()] together with the [if (startEvent) yield] *)
Definition ensureMessageStart (s : state) : state * list event :=
  if started s then (s, [])
  else (mkState true (nextIndex s) (textBlockIndex s) (sawToolCall s) (toolBlocks s),
        [MessageStart]).

(** One iteration of [for (const result of results)]. *)
Definition step (s : state) (res : option result) : state * list event :=
  match option_map r_toolCall res with
  | Some (Some tc) =>
      let s0 := mkState (started s) (nextIndex s) (textBlockIndex s) true (toolBlocks s) in
      let '(s1, e1) := ensureMessageStart s0 in
      let e2 := match textBlockIndex s1 with Some i => [BlockStop i] | None => [] end in
      let '(bidx, bclosed, nidx, tb, e3) :=
        match blocks_get (toolBlocks s1) (tc_id tc) with
        | Some (i, false) => (i, false, nextIndex s1, toolBlocks s1, [])
        | _ =>
            let i := nextIndex s1 in
            let nm := match truthy_str (tc_name tc) with Some n => n | None => "tool" end in
            (i, false, S i, blocks_set (toolBlocks s1) (tc_id tc) (i, false),
             [BlockStart i (BKToolUse (match tc_id tc with Some x => KStr x | None => KStr "" end) nm)])
        end in
      let e4 := match truthy_str (tc_arguments tc) with
                | Some a => [BlockDelta bidx (DInputJson a)] | None => [] end in
      let '(tb', e5) := if tc_isLast tc && negb bclosed
                        then (blocks_set tb (tc_id tc) (bidx, true), [BlockStop bidx])
                        else (tb, []) in
      (mkState (started s1) nidx None (sawToolCall s1) tb', e1 ++ e2 ++ e3 ++ e4 ++ e5)
  | _ =>
      match option_map r_text res with
      | Some t =>
          match truthy_str t with
          | None => (s, [])
          | Some txt =>
              let '(s1, e1) := ensureMessageStart s in
              let '(tb, e2) := close_all (toolBlocks s1) in
              let '(ti, ni, e3) := match textBlockIndex s1 with
                                   | Some i => (i, nextIndex s1, [])
                                   | None => (nextIndex s1, S (nextIndex s1),
                                              [BlockStart (nextIndex s1) BKText])
                                   end in
              (mkState (started s1) ni (Some ti) (sawToolCall s1) tb,
               e1 ++ e2 ++ e3 ++ [BlockDelta ti (DText txt)])
          end
      | None => (s, [])
      end
  end.

Fixpoint run (s : state) (rs : list (option result)) : state * list event :=
  match rs with
  | [] => (s, [])
  | r :: rs' =>
      let '(s1, e1) := step s r in
      let '(s2, e2) := run s1 rs' in
      (s2, e1 ++ e2)
  end.

(** Outcome of a generator that may throw: either an [Error] message
    or the events it yielded. The only throw of the adapter happens
    before its first [yield]. *)
Inductive outcome (A : Type) : Type :=
| Throw (status : option Z) (message : string)
| Ok (v : A).
Arguments Throw {A} _ _.
Arguments Ok {A} _.

Definition finish (s : state) : outcome (list event) :=
  if negb (started s) then Throw None "No content received from Cursor response"
  else Ok ((match textBlockIndex s with Some i => [BlockStop i] | None => [] end) ++
           flat_map (fun (b : option string * (nat * bool)) =>
                       let '(_, (i, closed)) := b in
                       if closed then [] else [BlockStop i])
                    (toolBlocks s) ++
           [MessageDelta (if sawToolCall s then "tool_use" else "end_turn"); MessageStop]).

(** The adapter's loop and epilogue, over the results of
    [parseCursorResponseBuffer]. *)
Definition streamResults (rs : list (option result)) : outcome (list event) :=
  let '(s, es) := run init rs in
  match finish s with
  | Throw st m => Throw st m
  | Ok tl => Ok (es ++ tl)
  end.

End Cursor.

(* ------------------------------------------------------------------ *)
(** ** [parseCursorResponseBuffer] (src/cursor/format.js)

    Buffers are byte lists. Offsets and lengths are [N] as in the source
    (lengths come from a 32-bit header). Reads are checked: a read past the
    end of the buffer yields [OutOfBounds] instead of a value, so the
    theorems below show that no such read happens. *)
Module Frames.

Inductive parse_outcome : Type :=
| Parsed (results : list (option Cursor.result))
| Raised (statusCode : Z) (message : string)
| TypeErr                  (* [new Error(msg)] threw: no [statusCode] *)
| OutOfBounds
| OutOfFuel.

Definition byte_N (b : byte) : N := Byte.to_N b.

(** [buffer[i]] *)
Definition read_byte (buf : list byte) (i : N) : option byte :=
  nth_error buf (N.to_nat i).

Definition be32 (b0 b1 b2 b3 : byte) : N :=
  (byte_N b0 * 16777216 + byte_N b1 * 65536 + byte_N b2 * 256 + byte_N b3)%N.

(** [buffer.readUInt32BE(i)] (a RangeError past the end). *)
Definition readUInt32BE (buf : list byte) (i : N) : option N :=
  match read_byte buf i, read_byte buf (i + 1), read_byte buf (i + 2),
        read_byte buf (i + 3) with
  | Some b0, Some b1, Some b2, Some b3 => Some (be32 b0 b1 b2 b3)
  | _, _, _, _ => None
  end.

(** [buffer.slice(a, b)], checked. *)
Definition slice (buf : list byte) (a b : N) : option (list byte) :=
  if (b <=? N.of_nat (List.length buf))%N
  then Some (firstn (N.to_nat (b - a)) (skipn (N.to_nat a) buf))
  else None.

(** ASCII byte sequences of the source's string literals: an opening brace,
    an opening brace and a quote, the word error in quotes, and an opening
    brace followed by the latter. *)
Definition lit_brace : list byte := [x7b].
Definition lit_brace_quote : list byte := [x7b; x22].
Definition lit_quoted_error : list byte := [x22; x65; x72; x72; x6f; x72; x22].
Definition lit_brace_error : list byte := x7b :: lit_quoted_error.

Fixpoint starts_with (l p : list byte) : bool :=
  match p, l with
  | [], _ => true
  | b :: p', c :: l' => Byte.eqb b c && starts_with l' p'
  | _ :: _, [] => false
  end.

Fixpoint contains (l p : list byte) : bool :=
  starts_with l p || match l with [] => false | _ :: l' => contains l' p end.

(** Flags [COMPRESS_FLAG.GZIP], [GZIP_ALT], [GZIP_BOTH]. *)
Definition is_gzip_flag (flags : byte) : bool :=
  (byte_N flags =? 1)%N || (byte_N flags =? 2)%N || (byte_N flags =? 3)%N.

(** The message V8 gives the [TypeError] of converting an object that has
    no usable [toString] or [valueOf]. *)
Definition type_error_message : string := "Cannot convert object to primitive value".

Section Parse.

(** Modelled from the spec: [extractTextFromResponse] lives in
    cursorProtobuf.js, which is not among the sources; the spec says each
    payload is decoded into an intermediate [{text?, toolCall?, error?}]. *)
Variable extractTextFromResponse : list byte -> option Cursor.result.

(** [zlib.gunzipSync]; [None] when it throws. *)
Variable gunzipSync : list byte -> option (list byte).

(** [JSON.parse] of the UTF-8 text of a payload; [None] when it throws. *)
Variable JSON_parse : list byte -> option JS.jv.

(** [decompressPayload(payload, flags)]. The UTF-8 text of a payload
    starts with the ASCII text [{"error"] exactly when its bytes do. *)
Definition decompressPayload (payload : list byte) (flags : byte) : list byte :=
  if Nat.ltb 10 (List.length payload)
     && starts_with payload lit_brace_quote
     && starts_with payload lit_brace_error
  then payload
  else if is_gzip_flag flags
  then match gunzipSync payload with Some p => p | None => payload end
  else payload.

(** [parseJsonError(payload)] *)
Definition parseJsonError (payload : list byte) : option JS.jv :=
  if starts_with payload lit_brace
     && contains payload lit_quoted_error
  then JSON_parse payload
  else None.

(** [v?.[i]]: an array element, or the property named [i] of an object (a
    character of a string has no further properties, so it is left out). *)
Definition get_index (v : option JS.jv) (i : nat) : option JS.jv :=
  match v with
  | Some (JS.JArr l) => nth_error l i
  | Some (JS.JObj fs) => JS.assoc_get fs (JS.nat_to_string i)
  | _ => None
  end.

Definition opt_get (v : option JS.jv) (k : string) : option JS.jv :=
  match v with Some x => JS.get x k | None => None end.

(** The message of [new Error(msg)] with [msg] the value of
    [jsonError?.error?.message || jsonError?.error?.details?.[0]?.debug?.details?.title || 'Cursor API error'];
    [None] when converting [msg] to a string throws. *)
Definition json_error_message (j : JS.jv) : option string :=
  match JS.js_or (opt_get (JS.get j "error") "message")
          (JS.js_or (opt_get (opt_get (opt_get (get_index (opt_get (JS.get j "error") "details") 0)
                                          "debug") "details") "title")
                    (Some (JS.JStr "Cursor API error"))) with
  | Some v => JS.js_String v
  | None => Some "Cursor API error"
  end.

(** The body of the loop after the slice: decompression, the embedded JSON
    error (status 400), decoding and the decoded error (status 429).
    [inl] is a thrown error: [Some (statusCode, message)], or [None] for
    the [TypeError] of [new Error(msg)]; [inr] is the result pushed to
    [results]. *)
Definition handlePayload (raw : list byte) (flags : byte)
  : option (Z * string) + option Cursor.result :=
  let payload := decompressPayload raw flags in
  let decoded :=
    let r := extractTextFromResponse payload in
    match option_map Cursor.r_error r with
    | Some e => match truthy_str e with
                | Some m => inl (Some (429%Z, m))
                | None => inr r
                end
    | None => inr r
    end in
  match parseJsonError payload with
  | Some j =>
      if JS.truthy j then
        match json_error_message j with
        | Some m => inl (Some (400%Z, m))
        | None => inl None
        end
      else decoded
  | None => decoded
  end.

(** The [while (offset < buffer.length)] loop, with fuel. *)
Fixpoint loop (fuel : nat) (buf : list byte) (offset : N)
         (acc : list (option Cursor.result)) : parse_outcome :=
  match fuel with
  | O => OutOfFuel
  | S f =>
      if (offset <? N.of_nat (List.length buf))%N then
        if (N.of_nat (List.length buf) <? offset + 5)%N then Parsed (rev acc)
        else
          match read_byte buf offset, readUInt32BE buf (offset + 1) with
          | Some flags, Some len =>
              if (N.of_nat (List.length buf) <? offset + 5 + len)%N then Parsed (rev acc)
              else
                match slice buf (offset + 5) (offset + 5 + len) with
                | None => OutOfBounds
                | Some raw =>
                    match handlePayload raw flags with
                    | inl (Some (st, m)) => Raised st m
                    | inl None => TypeErr
                    | inr r => loop f buf (offset + 5 + len) (r :: acc)
                    end
                end
          | _, _ => OutOfBounds
          end
      else Parsed (rev acc)
  end.

Definition parseCursorResponseBuffer (buf : list byte) : parse_outcome :=
  loop (S (List.length buf)) buf 0 [].

(** Frames as the spec describes them: a flag byte, a 4-byte big-endian
    length and the payload of that length. *)
Record frame : Type := mkFrame {
  fr_flags : byte;
  fr_header : list byte;
  fr_payload : list byte
}.

Definition encode (f : frame) : list byte :=
  fr_flags f :: fr_header f ++ fr_payload f.

Definition frame_wf (f : frame) : Prop :=
  match fr_header f with
  | [b0; b1; b2; b3] => be32 b0 b1 b2 b3 = N.of_nat (List.length (fr_payload f))
  | _ => False
  end.

(** Whether a complete frame starts at the head of [l]. *)
Definition complete_frame_at (l : list byte) : bool :=
  match l with
  | _ :: b0 :: b1 :: b2 :: b3 :: tl => (be32 b0 b1 b2 b3 <=? N.of_nat (List.length tl))%N
  | _ => false
  end.

(** Handling a sequence of frames in order, stopping at the first error. *)
Fixpoint process (fs : list frame) (acc : list (option Cursor.result)) : parse_outcome :=
  match fs with
  | [] => Parsed (rev acc)
  | f :: fs' =>
      match handlePayload (fr_payload f) (fr_flags f) with
      | inl (Some (st, m)) => Raised st m
      | inl None => TypeErr
      | inr r => process fs' (r :: acc)
      end
  end.

(** [streamCursorResponseToAnthropic(buffer, model)] *)
Definition streamCursorResponseToAnthropic (buf : list byte) : Cursor.outcome (list event) :=
  match parseCursorResponseBuffer buf with
  | Parsed rs => Cursor.streamResults rs
  | Raised st m => Cursor.Throw (Some st) m
  | TypeErr => Cursor.Throw None type_error_message
  | _ => Cursor.Throw None "unreachable"
  end.

End Parse.

End Frames.

(* ------------------------------------------------------------------ *)
(** ** Codex dispatch loop (codex handlers, second version of the file)

    [sendCodexMessage] and [sendCodexMessageStream] share one loop; they
    differ only in what they do with a successful response (collect it, or
    re-yield the adapter's events), which the claims do not depend on.
    Each round of the loop reads the result of [selectAccount()] and, when
    an account is returned, the outcome of the request made with it; the
    environment supplies these as a list of rounds. *)
Module Dispatch.

Inductive attempt_result : Type :=
| Success                                    (* response.ok, handled without error *)
| HttpError (status : Z) (retry_after : option string) (body : string) (now : Z)
| Exception.                                 (* token refresh, fetch or adapter threw *)

Inductive round : Type :=
| RNoAccount (waitMs : Z)                    (* selectAccount() -> {account: null, waitMs} *)
| RAccount (id : string) (res : attempt_result).

Inductive action : Type :=
| Sleep (ms : Z)
| Fetch (id : string)
| MarkInvalid (id : string)
| MarkRateLimited (id : string) (ms : Z).

Inductive error : Type :=
| ResourceExhausted (resetMins : Z)          (* the RESOURCE_EXHAUSTED message with resetMins *)
| NoAccounts                                 (* No Codex accounts available *)
| HttpFailure (status : Z)                   (* Codex (stream) error <status> *)
| Rethrown                                   (* the caught exception, rethrown *)
| FailedAfterRetries                         (* Codex request failed after retries *)
| EnvironmentExhausted.                      (* the list of rounds ran out *)

Inductive final : Type :=
| Returned
| Thrown (e : error).

(** [Math.ceil(a / b)] for [b > 0]. *)
Definition ceil_div (a b : Z) : Z := - ((- a) / b).

(** The date range of [new Date(t)]: [NaN] outside [+-8.64e15] ms. *)
Definition time_clip (t : Z) : option Z :=
  if (Z.abs t <=? 8640000000000000)%Z then Some t else None.

Section Retry.

(** [Number(s)] on a string, [None] for [NaN]. *)
Variable Number_of_string : string -> option Z.
(** [JSON.parse(bodyText)]; [None] when it throws. *)
Variable JSON_parse : string -> option JS.jv.
(** [DEFAULT_COOLDOWN_MS] from constants.js. *)
Variable DEFAULT_COOLDOWN_MS : Z.

(** [ToNumber(v)] for a possibly undefined value: [Some (Some z)] is the
    number [z], [Some None] is [NaN], and [None] is the [TypeError] of
    converting an object with an own [toString] key (or an array holding
    one). An array goes through its string form; any other object gives
    ["[object Object]"], which is [NaN]. *)
Definition ToNumber (v : option JS.jv) : option (option Z) :=
  match v with
  | None => Some None
  | Some JS.JNull => Some (Some 0%Z)
  | Some (JS.JBool b) => Some (Some (if b then 1%Z else 0%Z))
  | Some (JS.JNum z) => Some (Some z)
  | Some (JS.JStr s) => Some (Number_of_string s)
  | Some (JS.JArr l) => option_map Number_of_string (JS.js_String (JS.JArr l))
  | Some (JS.JObj fs) => option_map (fun _ => None) (JS.js_String (JS.JObj fs))
  end.

Definition opt_get (v : option JS.jv) (k : string) : option JS.jv :=
  match v with Some x => JS.get x k | None => None end.

(** [parseRetryAfter(response, bodyText)] with [Date.now() = now]. A
    conversion that throws inside the [try] makes it return [null]. *)
Definition parseRetryAfter (retryAfter : option string) (bodyText : string) (now : Z)
  : option Z :=
  let from_header :=
    match truthy_str retryAfter with
    | Some h => match Number_of_string h with
                | Some seconds => if (0 <? seconds)%Z then Some (seconds * 1000)%Z else None
                | None => None
                end
    | None => None
    end in
  match from_header with
  | Some ms => Some ms
  | None =>
      if String.eqb bodyText "" then None else
      match JSON_parse bodyText with
      | None => None
      | Some body =>
          let err := JS.js_or (JS.get body "error") (Some body) in
          let from_reset_at :=
            if JS.truthy_opt (opt_get err "resets_at") then
              match ToNumber (opt_get err "resets_at") with
              | Some (Some at_) => match time_clip (at_ * 1000) with
                                   | Some t => if (0 <? t - now)%Z then Some (t - now)%Z else None
                                   | None => None
                                   end
              | Some None => None
              | None => None
              end
            else None in
          match ToNumber (opt_get err "resets_in_seconds") with
          | None => None
          | Some (Some n) => if (0 <? n)%Z then Some (n * 1000)%Z else from_reset_at
          | Some None => from_reset_at
          end
      end
  end.

(** [parseRetryAfter(response, errorText) || DEFAULT_COOLDOWN_MS] *)
Definition retryMs (retryAfter : option string) (bodyText : string) (now : Z) : Z :=
  match parseRetryAfter retryAfter bodyText now with
  | Some ms => if (ms =? 0)%Z then DEFAULT_COOLDOWN_MS else ms
  | None => DEFAULT_COOLDOWN_MS
  end.

(** The two sources of [parseRetryAfter] seen separately: the number in the
    [Retry-After] header, and the object [body?.error || body] of the parsed
    body. *)
Definition header_number (retryAfter : option string) : option Z :=
  match truthy_str retryAfter with Some h => Number_of_string h | None => None end.

Definition body_error_object (bodyText : string) : option JS.jv :=
  if String.eqb bodyText "" then None else
  match JSON_parse bodyText with
  | Some body => JS.js_or (JS.get body "error") (Some body)
  | None => None
  end.

Definition prepend (acts : list action) (r : list action * final) : list action * final :=
  (acts ++ fst r, snd r).

(** The [for (let attempt = 0; attempt < maxAttempts; attempt++)] loop. *)
Fixpoint loop (rounds : list round) (attempt maxAttempts : Z) : list action * final :=
  if (attempt <? maxAttempts)%Z then
    match rounds with
    | [] => ([], Thrown EnvironmentExhausted)
    | RNoAccount waitMs :: rest =>
        if (0 <? waitMs)%Z then
          if (60000 <? waitMs)%Z then ([], Thrown (ResourceExhausted (ceil_div waitMs 60000)))
          else prepend [Sleep (waitMs + 500)] (loop rest (attempt - 1 + 1) maxAttempts)
        else ([], Thrown NoAccounts)
    | RAccount id res :: rest =>
        let caught (e : error) :=
          if (attempt + 1 >=? maxAttempts)%Z then ([Fetch id], Thrown e)
          else prepend [Fetch id] (loop rest (attempt + 1) maxAttempts) in
        match res with
        | Success => ([Fetch id], Returned)
        | HttpError status ra body now =>
            if (status =? 401)%Z || (status =? 403)%Z then
              prepend [Fetch id; MarkInvalid id] (loop rest (attempt + 1) maxAttempts)
            else if (status =? 429)%Z then
              prepend [Fetch id; MarkRateLimited id (retryMs ra body now)]
                      (loop rest (attempt + 1) maxAttempts)
            else caught (HttpFailure status)
        | Exception => caught Rethrown
        end
    end
  else ([], Thrown FailedAfterRetries).

(** [const maxAttempts = Math.max(3, codexAccountManager.getAccountCount() + 1)] *)
Definition sendCodexMessage (rounds : list round) (accountCount : Z) : list action * final :=
  loop rounds 0 (Z.max 3 (accountCount + 1)).

Definition sendCodexMessageStream (rounds : list round) (accountCount : Z) : list action * final :=
  loop rounds 0 (Z.max 3 (accountCount + 1)).

End Retry.

End Dispatch.

(* ------------------------------------------------------------------ *)
(** ** The Cursor account pool (src/cursor/account-manager.js)

    The state of a [CursorAccountManager]: [#accounts], [#activeIndex] and
    [#initialized]. Accounts are records of the fields the selection reads
    or writes; [cooldownUntil] is the time in ms of the stored ISO string,
    [lastUsed] the time of the last selection. Writes to disk are not state
    the class reads back once initialized, and are left out.

    [#activeIndex] is a JavaScript number: [initialize] stores
    [config.activeIndex || 0] unchecked, so it may be fractional, huge or
    infinite, and [selectAccount] computes [(this.#activeIndex + i) % total]
    in double arithmetic. The file's [activeIndex] is taken to be a number
    ([undefined] and [null] are given as 0, which they become through
    [|| 0]); a string, boolean, array or object there is not modelled. *)

Module Pool.

(** JavaScript numbers (IEEE-754 doubles). A finite double is held as the
    integer [n] with value [n * 2^-1074]: every double is a whole multiple
    of the least subnormal [2^-1074], so the representation is unique. The
    sign of a zero is not kept: no step below tells [-0] from [0]
    ([-0 || 0] is [0], and [this.#accounts[-0]] reads element 0). *)
Inductive num : Type :=
| NFin (n : Z)
| NInf (neg : bool)
| NNaN.

(** The number 1: [2^1074] units of [2^-1074]. *)
Definition scale : Z := 2 ^ 1074.

(** The whole number [z] as a double (exact for [|z| <= 2^53]). *)
Definition of_int (z : Z) : num := NFin (z * scale).

(** Rounding of the exact value [n * 2^-1074] to a double: to nearest, ties
    to even, keeping 53 significant bits (or fewer, below the normal range,
    where every multiple of [2^-1074] under [2^-1021] is a double), and
    [Infinity] when the rounded value reaches [2^1024]. *)
Definition round (n : Z) : num :=
  let s := (Z.log2 (Z.abs n) - 52)%Z in
  if (s <=? 0)%Z then NFin n else
  let q := (n / 2 ^ s)%Z in
  let r := (n mod 2 ^ s)%Z in
  let q' := if (2 * r <? 2 ^ s)%Z then q
            else if (2 ^ s <? 2 * r)%Z then (q + 1)%Z
            else if Z.even q then q else (q + 1)%Z in
  let m := (q' * 2 ^ s)%Z in
  if (2 ^ (1024 + 1074) <=? Z.abs m)%Z then NInf (m <? 0)%Z else NFin m.

(** [x + y] on numbers. *)
Definition add (x y : num) : num :=
  match x, y with
  | NFin a, NFin b => round (a + b)
  | NNaN, _ | _, NNaN => NNaN
  | NInf s1, NInf s2 => if Bool.eqb s1 s2 then NInf s1 else NNaN
  | NInf s, NFin _ | NFin _, NInf s => NInf s
  end.

(** [x % total] for a positive whole [total]: the exact remainder, with the
    sign of [x]; [NaN] for an infinite or [NaN] [x]. *)
Definition rem_int (x : num) (total : Z) : num :=
  match x with
  | NFin a => NFin (Z.rem a (total * scale))
  | _ => NNaN
  end.

(** Truthiness of a number: [0] and [NaN] are falsy. *)
Definition truthy_num (x : num) : bool :=
  match x with
  | NFin 0 | NNaN => false
  | _ => true
  end.

(** The element an array read [arr[x]] finds: a whole [x >= 0] names
    position [x]; any other number is a property name ("1.5", "-1", "NaN",
    "Infinity") that no array holds. *)
Definition array_index (x : num) : option nat :=
  match x with
  | NFin a => if (a mod scale =? 0)%Z && (0 <=? a)%Z then Some (Z.to_nat (a / scale)) else None
  | _ => None
  end.

Record account : Type := mkAccount {
  id : string;
  email : option string;            (* null as None *)
  enabled : bool;                   (* truthiness of acc.enabled *)
  isInvalid : bool;                 (* truthiness of acc.isInvalid *)
  invalidReason : option string;
  cooldownUntil : option Z;         (* falsy as None *)
  lastUsed : option Z
}.

(** An entry of [config.accounts] as read from the file; [r_random] is the
    hex string [crypto.randomBytes(6)] yields for it. *)
Record raw_account : Type := mkRaw {
  r_id : option string;
  r_email : option string;
  r_enabled : bool;                 (* acc.enabled !== false *)
  r_isInvalid : bool;
  r_invalidReason : option string;
  r_cooldownUntil : option Z;
  r_lastUsed : option Z;
  r_random : string
}.

Record state : Type := mkState {
  accounts : list account;
  activeIndex : num;
  initialized : bool
}.

Definition empty : state := mkState [] (NFin 0) false.

Definition with_accounts (st : state) (l : list account) : state :=
  mkState l (activeIndex st) (initialized st).

Fixpoint find_index (p : account -> bool) (l : list account) : option nat :=
  match l with
  | [] => None
  | a :: rest => if p a then Some 0%nat else option_map S (find_index p rest)
  end.

Fixpoint update_nth (n : nat) (f : account -> account) (l : list account) : list account :=
  match l, n with
  | [], _ => []
  | a :: rest, O => f a :: rest
  | a :: rest, S n' => a :: update_nth n' f rest
  end.

(** [a => a.id === accountId || a.email === accountId] *)
Definition matches (accountId : string) (a : account) : bool :=
  String.eqb (id a) accountId ||
  match email a with Some e => String.eqb e accountId | None => false end.

Definition of_raw (acc : raw_account) : account :=
  mkAccount
    (match truthy_str (r_id acc) with
     | Some i => i
     | None => match truthy_str (r_email acc) with
               | Some e => e
               | None => String.append "cursor_" (r_random acc)
               end
     end)
    (truthy_str (r_email acc))
    (r_enabled acc)
    (r_isInvalid acc)
    (truthy_str (r_invalidReason acc))
    (match r_cooldownUntil acc with Some 0%Z => None | c => c end)
    (match r_lastUsed acc with Some 0%Z => None | c => c end).

(** [initialize()]; [config] is [None] when reading or parsing the file
    fails, else the [accounts] entries and [activeIndex]. *)
Definition initialize (config : option (list raw_account * num)) (st : state) : state :=
  if initialized st then st else
  match config with
  | None => mkState [] (NFin 0) true
  | Some (raws, ai) => mkState (map of_raw raws) (if truthy_num ai then ai else NFin 0) true
  end.

Definition cooling (now : Z) (acc : account) : bool :=
  match cooldownUntil acc with Some t => (now <? t)%Z | None => false end.

Fixpoint list_min (m : Z) (l : list Z) : Z :=
  match l with [] => m | x :: rest => list_min (Z.min m x) rest end.

(** [getMinWaitMs()] *)
Definition getMinWaitMs (st : state) (now : Z) : Z :=
  let future := filter (fun ts => negb (ts =? 0)%Z && (now <? ts)%Z)
                  (flat_map (fun acc => match cooldownUntil acc with
                                        | Some t => [t] | None => [] end) (accounts st)) in
  match future with
  | [] => 0
  | t :: rest => Z.max 0 (list_min t rest - now)
  end.

(** [getAccountCount()] *)
Definition getAccountCount (st : state) : nat := List.length (accounts st).

(** The filter of [getAvailableAccounts()]: enabled, not invalid, and no
    cooldown in the future. *)
Definition available (now : Z) (acc : account) : bool :=
  enabled acc && negb (isInvalid acc) && negb (cooling now acc).


(** [this.#accounts[idx]] with its position; [None] (undefined) when
    [idx] names no element. *)
Definition account_at (st : state) (idx : num) : option (nat * account) :=
  match array_index idx with
  | Some k => match nth_error (accounts st) k with
              | Some acc => Some (k, acc)
              | None => None
              end
  | None => None
  end.

(** The [for (let i = 0; i < total; i++)] loop of [selectAccount]. [None]
    is the [TypeError] of reading [enabled] of [undefined]. *)
Fixpoint scan (n : nat) (i total now : Z) (st : state) : option (option nat * state) :=
  match n with
  | O => Some (None, st)
  | S n' =>
      let idx := rem_int (add (activeIndex st) (of_int i)) total in
      match account_at st idx with
      | None => None
      | Some (k, acc) =>
          if negb (enabled acc) || isInvalid acc then scan n' (i + 1) total now st
          else if cooling now acc then scan n' (i + 1) total now st
          else Some (Some k,
                     mkState (update_nth k
                                (fun a => mkAccount (id a) (email a) (enabled a) (isInvalid a)
                                            (invalidReason a) (cooldownUntil a) (Some now))
                                (accounts st))
                             (rem_int (add idx (of_int 1)) total) (initialized st))
      end
  end.

(** [selectAccount()] at [Date.now() = now]: the index of the account
    returned, or none with [waitMs]. *)
Definition selectAccount (now : Z) (st : state) : option ((option nat * Z) * state) :=
  let total := Z.of_nat (List.length (accounts st)) in
  if (total =? 0)%Z then Some ((None, 0%Z), st) else
  match scan (List.length (accounts st)) 0 total now st with
  | None => None
  | Some (Some j, st') => Some ((Some j, 0%Z), st')
  | Some (None, st') => Some ((None, getMinWaitMs st' now), st')
  end.

(** [markRateLimited(accountId, waitMs)] at [Date.now() = now]. *)
Definition markRateLimited (accountId : string) (now waitMs : Z) (st : state) : state :=
  match find_index (matches accountId) (accounts st) with
  | None => st
  | Some j => with_accounts st (update_nth j (fun a =>
      mkAccount (id a) (email a) (enabled a) (isInvalid a) (invalidReason a)
                (Some (now + waitMs)%Z) (lastUsed a)) (accounts st))
  end.

(** [markInvalid(accountId, reason)] *)
Definition markInvalid (accountId : string) (reason : option string) (st : state) : state :=
  match find_index (matches accountId) (accounts st) with
  | None => st
  | Some j => with_accounts st (update_nth j (fun a =>
      mkAccount (id a) (email a) (enabled a) true
                (match truthy_str reason with Some r => Some r | None => Some "invalid" end)
                (cooldownUntil a) (lastUsed a)) (accounts st))
  end.

(** The account [addAccount(account)] finds:
    [a.id === account.id || (account.email && a.email === account.email)]. *)
Definition add_index (acc : account) (l : list account) : option nat :=
  find_index (fun a => String.eqb (id a) (id acc) ||
                       match truthy_str (email acc) with
                       | Some e => match email a with Some e' => String.eqb e' e | None => false end
                       | None => false
                       end) l.

(** [addAccount(account)], for an [account] object carrying every field:
    [Object.assign(exists, account, {enabled: true, isInvalid: false,
    invalidReason: null})], or a push. *)
Definition addAccount (acc : account) (st : state) : state :=
  match add_index acc (accounts st) with
  | Some j => with_accounts st (update_nth j (fun _ =>
      mkAccount (id acc) (email acc) true false None (cooldownUntil acc) (lastUsed acc))
      (accounts st))
  | None => with_accounts st (accounts st ++ [acc])
  end.

Inductive op : Type :=
| OpInitialize (config : option (list raw_account * num))
| OpAdd (acc : account)
| OpSelect (now : Z)
| OpRateLimited (accountId : string) (now waitMs : Z)
| OpInvalid (accountId : string) (reason : option string).

(** One call; the first component is the index of the account
    [selectAccount] returned, if any. [None] when the call throws. *)
Definition step (o : op) (st : state) : option (option nat * state) :=
  match o with
  | OpInitialize config => Some (None, initialize config st)
  | OpAdd acc => Some (None, addAccount acc st)
  | OpSelect now =>
      match selectAccount now st with
      | Some ((sel, _), st') => Some (sel, st')
      | None => None
      end
  | OpRateLimited k now waitMs => Some (None, markRateLimited k now waitMs st)
  | OpInvalid k reason => Some (None, markInvalid k reason st)
  end.

Fixpoint run (ops : list op) (st : state) : option (list (option nat) * state) :=
  match ops with
  | [] => Some ([], st)
  | o :: rest =>
      match step o st with
      | None => None
      | Some (sel, st') =>
          match run rest st' with
          | None => None
          | Some (sels, st'') => Some (sel :: sels, st'')
          end
      end
  end.

End Pool.

(* ------------------------------------------------------------------ *)
(** ** [convertCodexResponseToAnthropic] and [extractResponseContent]
    (src/codex/format.js, second version of the file)

    The response is a JSON value. The result's [id] (a fresh random
    string), [type], [role], [model], [stop_sequence] and the two zero
    cache counters are constants of the result and not modelled. *)
Module Response.
Import JS.

Inductive block : Type :=
| BText (text : jv)                                 (* { type: 'text', text } *)
| BToolUse (id : jv) (name : jv) (input : jv).      (* { type: 'tool_use', id, name, input } *)

Definition is_tool_use (b : block) : bool :=
  match b with BToolUse _ _ _ => true | BText _ => false end.

Record message : Type := mkMessage {
  content : list block;
  stop_reason : string;
  input_tokens : jv;
  output_tokens : jv
}.

(** [for (const x of v)]: an array gives its elements and a string its
    characters; any other value throws a [TypeError] ([None]). *)
Definition iter (v : jv) : option (list jv) :=
  match v with
  | JArr l => Some l
  | JStr s => Some (map JStr (string_chars s))
  | _ => None
  end.

(** [v || d] for a possibly undefined [v]. *)
Definition or_default (v : option jv) (d : jv) : jv :=
  match js_or v None with Some x => x | None => d end.

(** [response.output || response.response?.output || []] *)
Definition output_of (response : jv) : jv :=
  or_default (js_or (get response "output")
                    (match get response "response" with
                     | Some JNull | None => None
                     | Some r => get r "output"
                     end))
             (JArr []).

(** [item.content || []] *)
Definition content_of (item : jv) : jv := or_default (get item "content") (JArr []).

Section Extract.

(** [JSON.parse] on strings; [None] when it throws. *)
Variable JSON_parse : string -> option jv.
(** The hex string of the [n]-th [crypto.randomBytes(12)] of a conversion. *)
Variable random_hex : nat -> string.

(** The [tool_use] block of a [function_call] item or part [x]:
    [JSON.parse(x.arguments || '{}')], [{}] when it throws (converting the
    argument to a string included); [x.call_id || x.id || `toolu_${...}`];
    [x.name || '']. *)
Definition tool_block (x : jv) (n : nat) : block * nat :=
  let input := match match js_String (or_default (get x "arguments") (JStr "{}")) with
                       | Some a => JSON_parse a
                       | None => None
                       end with
               | Some v => v
               | None => JObj []
               end in
  let '(id, n') := match js_or (js_or (get x "call_id") (get x "id")) None with
                   | Some v => (v, n)
                   | None => (JStr (String.append "toolu_" (random_hex n)), S n)
                   end in
  (BToolUse id (or_default (get x "name") (JStr "")) input, n').

(** One iteration of [for (const part of content)]. *)
Definition part_blocks (part : jv) (n : nat) : list block * nat :=
  if negb (truthy part) then ([], n) else
  if Schema.is_str (get part "type") "output_text" || Schema.is_str (get part "type") "text" then
    match js_or (get part "text") None with
    | Some t => ([BText t], n)
    | None => ([], n)
    end
  else if Schema.is_str (get part "type") "function_call" then
    let '(b, n') := tool_block part n in ([b], n')
  else ([], n).

Fixpoint parts_blocks (parts : list jv) (n : nat) : list block * nat :=
  match parts with
  | [] => ([], n)
  | p :: ps =>
      let '(bs1, n1) := part_blocks p n in
      let '(bs2, n2) := parts_blocks ps n1 in
      (bs1 ++ bs2, n2)
  end.

(** One iteration of [for (const item of output)]. *)
Definition item_blocks (item : jv) (n : nat) : option (list block * nat) :=
  if negb (truthy item) then Some ([], n) else
  if Schema.is_str (get item "type") "function_call" then
    let '(b, n') := tool_block item n in Some ([b], n')
  else
    match iter (content_of item) with
    | Some parts => Some (parts_blocks parts n)
    | None => None
    end.

Fixpoint items_blocks (items : list jv) (n : nat) : option (list block * nat) :=
  match items with
  | [] => Some ([], n)
  | it :: its =>
      match item_blocks it n with
      | None => None
      | Some (bs1, n1) =>
          match items_blocks its n1 with
          | None => None
          | Some (bs2, n2) => Some (bs1 ++ bs2, n2)
          end
      end
  end.

(** [extractResponseContent(response)], drawing random strings from the
    [n]-th on; [None] when it throws. *)
Definition extractResponseContent (response : jv) (n : nat) : option (list block * nat) :=
  if negb (truthy response) then Some ([BText (JStr "")], n) else
  match iter (output_of response) with
  | None => None
  | Some items =>
      match items_blocks items n with
      | None => None
      | Some ([], n') =>
          match get response "output_text" with
          | Some (JStr s) => Some ([BText (JStr s)], n')
          | _ => Some ([BText (JStr "")], n')
          end
      | Some (bs, n') => Some (bs, n')
      end
  end.

(** [convertCodexResponseToAnthropic(response, model)] *)
Definition convertCodexResponseToAnthropic (response : jv) (n : nat) : option (message * nat) :=
  let usage := or_default (get response "usage") (JObj []) in
  match extractResponseContent response n with
  | None => None
  | Some (content, n') =>
      Some (mkMessage content
              (if existsb is_tool_use content then "tool_use" else "end_turn")
              (or_default (get usage "input_tokens") (JNum 0))
              (or_default (get usage "output_tokens") (JNum 0)), n')
  end.

End Extract.

End Response.

(* ------------------------------------------------------------------ *)
(** ** [buildAnthropicResponseFromCursor] (src/cursor/format.js)

    The non-streaming response built from the results of
    [parseCursorResponseBuffer]; blocks and the message record are those of
    the Codex response conversion. *)
Module CursorBuild.
Import JS.

Section Build.

Variable extractTextFromResponse : list byte -> option Cursor.result.
Variable gunzipSync : list byte -> option (list byte).
Variable JSON_parse_payload : list byte -> option jv.
(** [JSON.parse] on strings; [None] when it throws. *)
Variable JSON_parse : string -> option jv.
(** The hex string of the [n]-th [crypto.randomBytes(8)] of a build. *)
Variable random_hex : nat -> string.

(** The loop [for (const r of results)]: the truthy [r?.text] values and
    the [r?.toolCall] values, each in order. *)
Fixpoint collect (rs : list (option Cursor.result)) : list string * list Cursor.tool_call :=
  match rs with
  | [] => ([], [])
  | r :: rs' =>
      let '(texts, calls) := collect rs' in
      ((match r with Some res => match truthy_str (Cursor.r_text res) with
                                 | Some t => [t] | None => [] end
                     | None => [] end) ++ texts,
       (match r with Some res => match Cursor.r_toolCall res with
                                 | Some tc => [tc] | None => [] end
                     | None => [] end) ++ calls)
  end.

(** The [tool_use] block of a tool call. *)
Definition tool_use_block (tc : Cursor.tool_call) (n : nat) : Response.block * nat :=
  let input := match truthy_str (Cursor.tc_arguments tc) with
               | Some a => match JSON_parse a with
                           | Some v => v
                           | None => JObj [("raw", JStr a)]
                           end
               | None => JObj []
               end in
  let '(id, n') := match truthy_str (Cursor.tc_id tc) with
                   | Some i => (JStr i, n)
                   | None => (JStr (String.append "toolu_" (random_hex n)), S n)
                   end in
  let name := match truthy_str (Cursor.tc_name tc) with Some nm => nm | None => "tool" end in
  (Response.BToolUse id (JStr name) input, n').

Fixpoint tool_use_blocks (tcs : list Cursor.tool_call) (n : nat) : list Response.block * nat :=
  match tcs with
  | [] => ([], n)
  | tc :: tcs' =>
      let '(b, n1) := tool_use_block tc n in
      let '(bs, n2) := tool_use_blocks tcs' n1 in
      (b :: bs, n2)
  end.

Fixpoint concat_str (l : list string) : string :=
  match l with [] => "" | s :: l' => String.append s (concat_str l') end.

(** The response built from the parsed results. *)
Definition buildFromResults (rs : list (option Cursor.result)) (n : nat) : Response.message * nat :=
  let '(textParts, toolCalls) := collect rs in
  let c1 := match textParts with
            | [] => []
            | _ => [Response.BText (JStr (concat_str textParts))]
            end in
  let '(c2, n') := tool_use_blocks toolCalls n in
  let content := c1 ++ c2 in
  (Response.mkMessage (match content with [] => [Response.BText (JStr "")] | _ => content end)
     (match toolCalls with [] => "end_turn" | _ => "tool_use" end)
     (JNum 0) (JNum 0), n').

(** [buildAnthropicResponseFromCursor(buffer, model)] *)
Definition buildAnthropicResponseFromCursor (buf : list byte) (n : nat)
  : Cursor.outcome (Response.message * nat) :=
  match Frames.parseCursorResponseBuffer extractTextFromResponse gunzipSync JSON_parse_payload buf with
  | Frames.Parsed rs => Cursor.Ok (buildFromResults rs n)
  | Frames.Raised st m => Cursor.Throw (Some st) m
  | Frames.TypeErr => Cursor.Throw None Frames.type_error_message
  | _ => Cursor.Throw None "unreachable"
  end.

End Build.

End CursorBuild.

(* ------------------------------------------------------------------ *)
(** ** [normalizeCursorModel] and [isValidCursorModel]
    (src/cursor/format.js, src/cursor/index.js)

    Strings are byte strings. [toLowerCase] maps the ASCII capitals to
    lower case; it is only read through [startsWith] with the ASCII
    prefixes [cu/] and [cursor/], which no other character's lower case
    starts. *)
Module CursorModel.

Definition lower_char (c : ascii) : ascii :=
  let n := nat_of_ascii c in
  if Nat.leb 65 n && Nat.leb n 90 then ascii_of_nat (n + 32) else c.

(** [s.toLowerCase()] *)
Fixpoint toLowerCase (s : string) : string :=
  match s with
  | EmptyString => EmptyString
  | String c s' => String (lower_char c) (toLowerCase s')
  end.

(** [s.startsWith(p)] *)
Fixpoint startsWith (s p : string) : bool :=
  match p, s with
  | EmptyString, _ => true
  | String c p', String d s' => Ascii.eqb c d && startsWith s' p'
  | String _ _, EmptyString => false
  end.

(** [s.indexOf(c)] for a one-character [c]: [-1] when absent. *)
Fixpoint indexOf (s : string) (c : ascii) : Z :=
  match s with
  | EmptyString => (-1)%Z
  | String d s' =>
      if Ascii.eqb c d then 0%Z
      else let i := indexOf s' c in if (i <? 0)%Z then (-1)%Z else (i + 1)%Z
  end.

(** [s.slice(start)]: a negative [start] counts from the end. *)
Definition slice_from (s : string) (start : Z) : string :=
  let len := Z.of_nat (String.length s) in
  let k := if (start <? 0)%Z then Z.max 0 (len + start) else Z.min start len in
  substring (Z.to_nat k) (String.length s - Z.to_nat k) s.

(** [normalizeCursorModel(modelName)] on a string. *)
Definition normalizeCursorModel (modelName : string) : string :=
  if String.eqb modelName "" then modelName
  else
    let lower := toLowerCase modelName in
    if startsWith lower "cu/" || startsWith lower "cursor/"
    then slice_from modelName (indexOf modelName "/" + 1)
    else modelName.

(** [isValidCursorModel(modelId, models)]: [models.includes(normalized)]. *)
Definition isValidCursorModel (modelId : string) (models : list string) : bool :=
  existsb (String.eqb (normalizeCursorModel modelId)) models.

End CursorModel.

(* ------------------------------------------------------------------ *)
(** ** [collectCodexStreamToAnthropicResponse] (src/codex/format.js,
    second version of the file)

    The body is read as the sequence of strings [decoder.decode] returns
    for its chunks. [toolCalls] is a plain object: a look-up of a key it
    does not own finds [Object.prototype]'s members for the names in
    [Schema.proto_keys]. Writing through such a member changes a built-in
    object shared by the whole process; the model stops there with
    [RBuiltin]. Assigning [toolCalls.__proto__] replaces the prototype of
    [toolCalls], after which look-ups find the new prototype's fields; the
    model stops there with [RProto]. Neither outcome says anything more of
    the run. *)
Module Collect.
Import JS.

Inductive res (A : Type) : Type :=
| ROk (a : A)
| RThrow                       (* the returned promise rejects *)
| RBuiltin                     (* a built-in object is written *)
| RProto.                      (* the prototype of [toolCalls] is replaced *)
Arguments ROk {A} a.
Arguments RThrow {A}.
Arguments RBuiltin {A}.
Arguments RProto {A}.

Definition bind {A B : Type} (r : res A) (f : A -> res B) : res B :=
  match r with ROk a => f a | RThrow => RThrow | RBuiltin => RBuiltin | RProto => RProto end.

(** [s.split('\n')]: never empty. *)
Fixpoint split_nl (s : string) : list string :=
  match s with
  | EmptyString => [""%string]
  | String c s' =>
      let rest := split_nl s' in
      if Ascii.eqb c "010"%char then ""%string :: rest
      else match rest with
           | r :: rs => String c r :: rs
           | [] => [String c ""]
           end
  end.

(** White space for [trim] among the characters [\x00]-[\xff]. *)
Definition is_ws (c : ascii) : bool :=
  match nat_of_ascii c with
  | 9 | 10 | 11 | 12 | 13 | 32 | 160 => true
  | _ => false
  end.

Fixpoint trim_start (s : string) : string :=
  match s with
  | EmptyString => EmptyString
  | String c s' => if is_ws c then trim_start s' else s
  end.

Fixpoint trim_end (s : string) : string :=
  match s with
  | EmptyString => EmptyString
  | String c s' =>
      let r := trim_end s' in
      if String.eqb r "" && is_ws c then EmptyString else String c r
  end.

(** [s.trim()] *)
Definition trim (s : string) : string := trim_end (trim_start s).

(** [{ callId, name, argumentParts }] *)
Record tool_call : Type := mkTc {
  callId : jv;
  name : jv;
  argumentParts : list jv
}.

Fixpoint tc_get (m : list (string * tool_call)) (k : string) : option tool_call :=
  match m with
  | [] => None
  | (k', v) :: m' => if String.eqb k k' then Some v else tc_get m' k
  end.

Fixpoint tc_set (m : list (string * tool_call)) (k : string) (v : tool_call)
  : list (string * tool_call) :=
  match m with
  | [] => [(k, v)]
  | (k', v') :: m' => if String.eqb k k' then (k', v) :: m' else (k', v') :: tc_set m' k v
  end.

(** What [toolCalls[key]] finds. *)
Inductive slot : Type :=
| Own (t : tool_call)
| Inherited                    (* a member of [Object.prototype] *)
| Absent.

Definition lookup (m : list (string * tool_call)) (k : string) : slot :=
  match tc_get m k with
  | Some t => Own t
  | None => if existsb (String.eqb k) Schema.proto_keys then Inherited else Absent
  end.

(** [arr.join('')]; [None] when converting an element throws. *)
Definition join (l : list jv) : option string :=
  join_opt "" (map Some l).

Record state : Type := mkState {
  textParts : list jv;
  toolCalls : list (string * tool_call);
  toolCallOrder : list jv;
  usage_input : jv;
  usage_output : jv;
  rand : nat   (* counter for [crypto.randomBytes(12)] ids *)
}.

Definition init : state := mkState [] [] [] (JNum 0) (JNum 0) 0.

Section Stream.

(** [JSON.parse] on strings; [None] when it throws. *)
Variable JSON_parse : string -> option jv.
(** The hex string of the [n]-th [crypto.randomBytes(12)]. *)
Variable random_hex : nat -> string.

(** [if (eventType === 'response.output_text.delta') { ... }] *)
Definition on_text_delta (data : jv) (s : state) : res state :=
  let delta := Response.or_default (get data "delta") (JStr "") in
  if truthy delta
  then ROk (mkState (textParts s ++ [delta]) (toolCalls s) (toolCallOrder s)
                    (usage_input s) (usage_output s) (rand s))
  else ROk s.

(** [if (eventType === 'response.output_item.added') { ... }] *)
Definition on_item_added (chunk data : jv) (s : state) : res state :=
  match js_or (get data "item") (get chunk "item") with
  | Some item =>
      if truthy item && Schema.is_str (get item "type") "function_call" then
        let '(cid, r) := match js_or (get item "call_id") None with
                         | Some c => (c, rand s)
                         | None => (JStr (String.append "toolu_" (random_hex (rand s))), S (rand s))
                         end in
        let itemId := Response.or_default (get item "id") cid in
        match js_String itemId with
        | None => RThrow                  (* the property key cannot be computed *)
        | Some k =>
            if String.eqb k "__proto__" then RProto
            else ROk (mkState (textParts s)
                              (tc_set (toolCalls s) k
                                      (mkTc cid (Response.or_default (get item "name") (JStr "")) []))
                              (toolCallOrder s ++ [itemId])
                              (usage_input s) (usage_output s) r)
        end
      else ROk s
  | None => ROk s
  end.

(** [if (eventType === 'response.function_call_arguments.delta') { ... }] *)
Definition on_args_delta (chunk data : jv) (s : state) : res state :=
  let itemId := js_or (get data "item_id") (get chunk "item_id") in
  let delta := Response.or_default (js_or (get data "delta") (get chunk "delta")) (JStr "") in
  match itemId with
  | Some iid =>
      if truthy iid then
        match js_String iid with
        | None => RThrow                  (* the property key cannot be computed *)
        | Some k =>
            match lookup (toolCalls s) k with
            | Own t =>
                ROk (mkState (textParts s)
                             (tc_set (toolCalls s) k
                                     (mkTc (callId t) (name t) (argumentParts t ++ [delta])))
                             (toolCallOrder s) (usage_input s) (usage_output s) (rand s))
            | Inherited => RThrow         (* [.argumentParts] is [undefined]: [push] throws *)
            | Absent => ROk s
            end
        end
      else ROk s
  | None => ROk s
  end.

(** [if (eventType === 'response.function_call_arguments.done') { ... }] *)
Definition on_args_done (chunk data : jv) (s : state) : res state :=
  let itemId := js_or (get data "item_id") (get chunk "item_id") in
  let args := js_or (get data "arguments") (get chunk "arguments") in
  let args_set := match args with Some JNull | None => false | Some _ => true end in
  match itemId with
  | Some iid =>
      if truthy iid then
        match js_String iid with
        | None => RThrow                  (* the property key cannot be computed *)
        | Some k =>
            match lookup (toolCalls s) k, args with
            | Own t, Some a =>
                if args_set then
                  ROk (mkState (textParts s)
                               (tc_set (toolCalls s) k (mkTc (callId t) (name t) [a]))
                               (toolCallOrder s) (usage_input s) (usage_output s) (rand s))
                else ROk s
            | Inherited, _ => if args_set then RBuiltin else ROk s
            | _, _ => ROk s
            end
        end
      else ROk s
  | None => ROk s
  end.

(** [if (eventType === 'response.completed') { ... }] *)
Definition on_completed (chunk data : jv) (s : state) : res state :=
  let u := Response.or_default (js_or (get data "usage") (get chunk "usage")) (JObj []) in
  ROk (mkState (textParts s) (toolCalls s) (toolCallOrder s)
               (Response.or_default (js_or (get u "input_tokens") (Some (usage_input s))) (JNum 0))
               (Response.or_default (js_or (get u "output_tokens") (Some (usage_output s))) (JNum 0))
               (rand s)).

(** The body of the line loop after [JSON.parse] succeeded. [chunk.type]
    throws on [null]; any other value can be read. *)
Definition handle_chunk (chunk : jv) (s : state) : res state :=
  match chunk with
  | JNull => RThrow
  | _ =>
      let eventType := js_or (get chunk "type") (get chunk "event") in
      let data := Response.or_default (get chunk "data") chunk in
      let when (ev : string) (f : state -> res state) (s : state) : res state :=
        if Schema.is_str eventType ev then f s else ROk s in
      bind (when "response.output_text.delta" (on_text_delta data) s) (fun s1 =>
      bind (when "response.output_item.added" (on_item_added chunk data) s1) (fun s2 =>
      bind (when "response.function_call_arguments.delta" (on_args_delta chunk data) s2) (fun s3 =>
      bind (when "response.function_call_arguments.done" (on_args_done chunk data) s3) (fun s4 =>
      when "response.completed" (on_completed chunk data) s4))))
  end.

(** The chunk a line carries, if any: [data:] lines whose trimmed payload
    is neither empty nor [[DONE]] and parses. *)
Definition line_chunk (line : string) : option jv :=
  if negb (CursorModel.startsWith line "data:") then None else
  let payload := trim (CursorModel.slice_from line 5) in
  if String.eqb payload "" || String.eqb payload "[DONE]" then None
  else JSON_parse payload.

(** One iteration of [for (const line of lines)]. *)
Definition handle_line (line : string) (s : state) : res state :=
  match line_chunk line with
  | Some chunk => handle_chunk chunk s
  | None => ROk s
  end.

Fixpoint handle_lines (lines : list string) (s : state) : res state :=
  match lines with
  | [] => ROk s
  | l :: ls => bind (handle_line l s) (handle_lines ls)
  end.

(** The read loop: [buffer += chunk; lines = buffer.split('\n');
    buffer = lines.pop() || '']; then the complete lines. *)
Fixpoint read_loop (buffer : string) (cs : list string) (s : state) : res state :=
  match cs with
  | [] => ROk s
  | c :: cs' =>
      let lines := split_nl (String.append buffer c) in
      bind (handle_lines (removelast lines) s) (read_loop (last lines ""%string) cs')
  end.

(** One iteration of [for (const itemId of toolCallOrder)]: the
    [JSON.parse] of the joined [argumentParts] sits inside [try]. Every id
    of [toolCallOrder] was given an own entry when it was pushed (see
    [order_owned]), so the last case is not reached; it stands for the
    [TypeError] of [tc.callId] on [undefined]. *)
Definition tool_block (s : state) (itemId : jv) : res Response.block :=
  match js_String itemId with
  | None => RThrow
  | Some k =>
      match tc_get (toolCalls s) k with
      | Some tc =>
          let input := match match join (argumentParts tc) with
                             | Some a => JSON_parse a
                             | None => None
                             end with
                       | Some v => v
                       | None => JObj []
                       end in
          ROk (Response.BToolUse (callId tc) (name tc) input)
      | None => RThrow
      end
  end.

Fixpoint tool_blocks (s : state) (ids : list jv) : res (list Response.block) :=
  match ids with
  | [] => ROk []
  | i :: is => bind (tool_block s i) (fun b => bind (tool_blocks s is) (fun bs => ROk (b :: bs)))
  end.

(** The code after the read loop. *)
Definition finish (s : state) : res Response.message :=
  match join (textParts s) with
  | None => RThrow
  | Some textContent =>
  let content1 := if String.eqb textContent "" then [] else [Response.BText (JStr textContent)] in
  bind (tool_blocks s (toolCallOrder s)) (fun tbs =>
  let content := match content1 ++ tbs with
                 | [] => [Response.BText (JStr "")]
                 | c => c
                 end in
  ROk (Response.mkMessage content
         (if existsb Response.is_tool_use content then "tool_use" else "end_turn")
         (Response.or_default (Some (usage_input s)) (JNum 0))
         (Response.or_default (Some (usage_output s)) (JNum 0))))
  end.

(** [collectCodexStreamToAnthropicResponse(response, model)] on the decoded
    chunks of the body. *)
Definition collectCodexStreamToAnthropicResponse (cs : list string) : res Response.message :=
  bind (read_loop "" cs init) finish.

End Stream.

End Collect.

(** ** Observations on the text and chunks of a Codex stream *)

(** The whole text of the body. *)
Definition stream_text (cs : list string) : string := fold_right String.append "" cs.

Fixpoint nl_free (s : string) : bool :=
  match s with
  | EmptyString => true
  | String c s' => negb (Ascii.eqb c "010"%char) && nl_free s'
  end.

(** The chunks parsed from the complete lines of the body, in order. *)
Definition stream_chunks (JSON_parse : string -> option JS.jv) (cs : list string) : list JS.jv :=
  flat_map (fun l => match Collect.line_chunk JSON_parse l with Some c => [c] | None => [] end)
           (removelast (Collect.split_nl (stream_text cs))).

Definition chunk_event_type (ch : JS.jv) : option JS.jv :=
  JS.js_or (JS.get ch "type") (JS.get ch "event").

Definition chunk_data (ch : JS.jv) : JS.jv := Response.or_default (JS.get ch "data") ch.

(** The text delta a chunk carries, if it is a truthy
    [response.output_text.delta]. *)
Definition chunk_text (ch : JS.jv) : list JS.jv :=
  if Schema.is_str (chunk_event_type ch) "response.output_text.delta" then
    let d := Response.or_default (JS.get (chunk_data ch) "delta") (JS.JStr "") in
    if JS.truthy d then [d] else []
  else [].

(** The chunks a list of lines carries, in order. *)
Definition lines_chunks (JSON_parse : string -> option JS.jv) (ls : list string) : list JS.jv :=
  flat_map (fun l => match Collect.line_chunk JSON_parse l with Some c => [c] | None => [] end) ls.

(** The chunk announces a [function_call] item. *)
Definition chunk_adds_call (ch : JS.jv) : bool :=
  Schema.is_str (chunk_event_type ch) "response.output_item.added" &&
  match JS.js_or (JS.get (chunk_data ch) "item") (JS.get ch "item") with
  | Some item => JS.truthy item && Schema.is_str (JS.get item "type") "function_call"
  | None => false
  end.

(** The key [toolCalls[itemId] = ...] writes converts, and it is not
    [__proto__] (whose assignment replaces the prototype of [toolCalls]).
    A missing [id] and [call_id] give a [toolu_] id, which always passes. *)
Definition added_key_ok (v : JS.jv) : bool :=
  match JS.js_String v with Some k => negb (String.eqb k "__proto__") | None => false end.

Definition item_key_ok (item : JS.jv) : bool :=
  match JS.js_or (JS.get item "id") None with
  | Some v => added_key_ok v
  | None => match JS.js_or (JS.get item "call_id") None with
            | Some c => added_key_ok c
            | None => true
            end
  end.

(** The [item_id] of an arguments chunk is falsy, or converts to a key
    that names no member of [Object.prototype]. *)
Definition args_key_ok (iid : option JS.jv) : bool :=
  match iid with
  | Some v =>
      if JS.truthy v then
        match JS.js_String v with
        | Some k => negb (existsb (String.eqb k) Schema.proto_keys)
        | None => false
        end
      else true
  | None => true
  end.

(** The chunks whose handling neither throws nor touches a built-in
    object: each text delta converts to a string, and the keys the
    handlers compute pass the checks above. *)
Definition chunk_ok (ch : JS.jv) : bool :=
  let et := chunk_event_type ch in
  let data := chunk_data ch in
  forallb (fun d => match JS.js_String d with Some _ => true | None => false end) (chunk_text ch) &&
  (if chunk_adds_call ch then
     match JS.js_or (JS.get data "item") (JS.get ch "item") with
     | Some item => item_key_ok item
     | None => true
     end
   else true) &&
  (if Schema.is_str et "response.function_call_arguments.delta" ||
      Schema.is_str et "response.function_call_arguments.done"
   then args_key_ok (JS.js_or (JS.get data "item_id") (JS.get ch "item_id"))
   else true).

(** A sample [JSON.parse] for three payloads: [null], a text delta and a
    [function_call] item. *)
Definition sample_parse (s : string) : option JS.jv :=
  if String.eqb s "null" then Some JS.JNull
  else if String.eqb s "T" then
    Some (JS.JObj [("type", JS.JStr "response.output_text.delta"); ("delta", JS.JStr "hi")])
  else if String.eqb s "F" then
    Some (JS.JObj [("type", JS.JStr "response.output_item.added");
                   ("item", JS.JObj [("type", JS.JStr "function_call");
                                     ("call_id", JS.JStr "c1"); ("name", JS.JStr "Read")])])
  else None.

Definition nl : string := String "010"%char "".

(** ** Observations on event sequences *)

Definition message_deltas (es : list event) : list event :=
  filter is_message_delta es.

Definition stop_law (es : list event) : Prop :=
  message_deltas es =
  [MessageDelta (if existsb is_tool_start es then "tool_use" else "end_turn")].

Definition minimal_stream : list event :=
  [MessageStart; BlockStart 0 BKText; BlockStop 0; MessageDelta "end_turn"; MessageStop].

Definition fn_call (cid iid nm : string) : Codex.chunk :=
  Codex.OutputItemAdded (Some (Codex.mkItem "function_call" (Some cid) (Some iid) (Some nm))).

(* ================================================================== *)
(** The account at position [j] of the pool stays flagged invalid. *)
Definition latched (j : nat) (st : Pool.state) : Prop :=
  Pool.initialized st = true /\
  exists a, nth_error (Pool.accounts st) j = Some a /\ Pool.isInvalid a = true.

(** No [addAccount] call of [ops], run from [st], finds the account at [j]. *)
Fixpoint latch_kept (j : nat) (ops : list Pool.op) (st : Pool.state) : Prop :=
  match ops with
  | [] => True
  | o :: rest =>
      (forall acc, o = Pool.OpAdd acc -> Pool.add_index acc (Pool.accounts st) <> Some j) /\
      match Pool.step o st with
      | Some (_, st') => latch_kept j rest st'
      | None => True
      end
  end.

(** A block of the conversation that is web search: a [tool_use] named
    [WebSearch] or [web_search], or a [tool_result] answering one of the
    ids [ids] of such blocks. *)
Definition is_ws_block (ids : list (option JS.jv)) (b : JS.jv) : bool :=
  JS.truthy b &&
  ((Schema.is_str (JS.get b "type") "tool_use" && Request.ws_name (JS.get b "name")) ||
   (Schema.is_str (JS.get b "type") "tool_result" && Request.set_has ids (JS.get b "tool_use_id"))).

Definition strip_ws (ids : list (option JS.jv)) (msg : JS.jv) : JS.jv :=
  match msg with
  | JS.JObj fs =>
      match JS.assoc_get fs "content" with
      | Some (JS.JArr bs) =>
          JS.JObj (JS.assoc_set fs "content"
                     (JS.JArr (filter (fun b => negb (is_ws_block ids b)) bs)))
      | _ => msg
      end
  | _ => msg
  end.

(** The conversation with its web-search blocks removed. *)
Definition without_web_search (messages : JS.jv) : JS.jv :=
  match messages with
  | JS.JArr ms => JS.JArr (map (strip_ws (Request.prescan ms)) ms)
  | _ => messages
  end.

(** The request of the C7 witness: a [WebSearch] call and its result, and
    a [WebSearch] declaration next to a function tool. *)
Definition ws_request : JS.jv :=
  JS.JObj
    [("messages",
      JS.JArr [JS.JObj [("role", JS.JStr "assistant");
                        ("content", JS.JArr [JS.JObj [("type", JS.JStr "tool_use"); ("id", JS.JStr "ws1");
                                                      ("name", JS.JStr "WebSearch"); ("input", JS.JObj [])]])];
               JS.JObj [("role", JS.JStr "user");
                        ("content", JS.JArr [JS.JObj [("type", JS.JStr "tool_result");
                                                      ("tool_use_id", JS.JStr "ws1");
                                                      ("content", JS.JStr "results")]])]]);
     ("tools", JS.JArr [JS.JObj [("name", JS.JStr "WebSearch")];
                        JS.JObj [("name", JS.JStr "Read");
                                 ("input_schema", JS.JObj [("type", JS.JStr "object")])]])].

(** A tool declared with the empty schema [{}]. *)
Definition empty_schema_tool : JS.jv :=
  JS.JObj [("name", JS.JStr "Ping"); ("input_schema", JS.JObj [])].

Ltac split_lets :=
  repeat match goal with
  | |- context [let '(_, _) := ?p in _] => destruct p eqn:?
  | |- context [match ?x with _ => _ end] => destruct x eqn:?
  end.

(** Loop invariant of the Codex adapter for the stop reason. *)
Definition codex_inv (s : Codex.state) : Prop :=
  Codex.hasToolUse s = true -> Codex.started s = true.

Definition blocks_nonempty (m : Cursor.blocks) : bool :=
  match m with [] => false | _ => true end.

Definition cursor_inv (s : Cursor.state) : Prop :=
  Cursor.sawToolCall s = blocks_nonempty (Cursor.toolBlocks s).

(** The loop of the Codex adapter emits nothing while no [message_start] has
    been yielded. *)
Definition codex_quiet (s : Codex.state) : Prop :=
  Codex.started s = false ->
  Codex.toolBlockMap s = [] /\ Codex.currentToolItemId s = None /\
  Codex.hasToolUse s = false.

(** Whether a decoded Cursor result makes the adapter emit anything. *)
Definition cursor_usable (r : option Cursor.result) : bool :=
  match r with
  | Some res => match Cursor.r_toolCall res with
                | Some _ => true
                | None => match truthy_str (Cursor.r_text res) with Some _ => true | None => false end
                end
  | None => false
  end.

(** The pool of the C6 counterexample: account [x] with email [b], then an
    account with id [b]. *)
Definition pool_collision_config : list Pool.raw_account :=
  [Pool.mkRaw (Some "x") (Some "b") true false None None None "";
   Pool.mkRaw (Some "b") None true false None None None ""].

Definition call_not_ws (it : Request.item) : Prop :=
  match it with
  | Request.WFunctionCall _ name _ => Request.ws_name (Some name) = false
  | _ => True
  end.

Ltac msg_parts :=
  first [destruct (Request.text_parts _ _) | destruct (flat_map _ _)]; repeat constructor.

(** The account [selectAccount] hands out, with [lastUsed] set to [now]. *)
Definition touched (now : Z) (a : Pool.account) : Pool.account :=
  Pool.mkAccount (Pool.id a) (Pool.email a) (Pool.enabled a) (Pool.isInvalid a)
                 (Pool.invalidReason a) (Pool.cooldownUntil a) (Some now).

(** A schema free of the keywords [sanitizeSchema] strips, at every depth
    reachable through [properties] (the values of an object) and [items]
    (a schema or an array of schemas), within [n] levels. *)
Fixpoint kw_free_n (n : nat) (v : JS.jv) : Prop :=
  match n with
  | O => True
  | S n' =>
      match v with
      | JS.JArr l => Forall (kw_free_n n') l
      | JS.JObj fs =>
          (forall k, In k Schema.STRIP -> JS.assoc_get fs k = None) /\
          match JS.assoc_get fs "properties" with
          | Some (JS.JObj ps) => Forall (fun p => kw_free_n n' (snd p)) ps
          | _ => True
          end /\
          match JS.assoc_get fs "items" with
          | Some x => kw_free_n n' x
          | None => True
          end
      | _ => True
      end
  end.

Definition kw_free (v : JS.jv) : Prop := forall n, kw_free_n n v.

Definition codex_tool_response : JS.jv :=
  JS.JObj [("output", JS.JArr [JS.JObj [("type", JS.JStr "function_call"); ("name", JS.JStr "Read");
                                        ("arguments", JS.JStr "{}")]]);
           ("usage", JS.JObj [("input_tokens", JS.JNum 5)])].

(* ------------------------------------------------------------------ *)
(** ** [convertAnthropicToCursorRequest] (src/cursor/format.js)

    A request is a JSON value; a [TypeError] is [None]. [JSON.stringify]
    is a parameter: on JSON values it returns a string. The fields
    [tool_calls] and [tool_results] of a Cursor message are only set when
    non-empty, so an absent field is an empty list here; the constant
    [type: 'function'] of a tool call is not modelled. *)
Module CursorRequest.
Import JS.

Record tool_result : Type := mkToolResult {
  tool_call_id : jv;
  tr_name : jv;
  index : nat;
  raw_args : string
}.

Record tool_call : Type := mkToolCall {
  tc_id : jv;
  tc_name : jv;
  tc_arguments : string
}.

Record message : Type := mkMessage {
  role : string;
  content : string;
  tool_calls : list tool_call;
  tool_results : list tool_result
}.

(** [{ name: t.name, description: t.description, input_schema: t.input_schema }] *)
Record tool : Type := mkTool {
  t_name : option jv;
  t_description : option jv;
  t_input_schema : option jv
}.

Record request : Type := mkRequest {
  model : option jv;
  messages : list message;
  tools : list tool;
  reasoningEffort : jv
}.

(** [extractTextBlocks(content)] on an array. *)
Definition extractTextBlocks (blocks : list jv) : list string :=
  flat_map (fun b =>
    if truthy b && Schema.is_str (get b "type") "text" then
      match get b "text" with Some (JStr t) => [t] | _ => [] end
    else []) blocks.

Section Convert.

(** [JSON.stringify] *)
Variable JSON_stringify : jv -> string.
(** The hex string of the [n]-th [crypto.randomBytes(8)] of a conversion. *)
Variable random_hex : nat -> string.

(** [toolResultToOutput(content)]; [None] when the [join] throws. *)
Definition toolResultToOutput (content : option jv) : option string :=
  match content with
  | Some (JStr s) => Some s
  | Some (JArr l) =>
      match join_opt Request.nl
              (map (fun c => Some (Response.or_default (get c "text") (JStr "")))
                   (filter (fun c => truthy c && Schema.is_str (get c "type") "text") l)) with
      | None => None
      | Some texts => Some (if String.eqb texts "" then JSON_stringify (JArr l) else texts)
      end
  | Some (JObj fs) => Some (JSON_stringify (JObj fs))
  | _ => Some ""
  end.

(** [x || `call_${crypto.randomBytes(8).toString('hex')}`] *)
Definition or_call_id (x : option jv) (n : nat) : jv * nat :=
  match js_or x None with
  | Some v => (v, n)
  | None => (JStr (String.append "call_" (random_hex n)), S n)
  end.

(** One iteration of [for (const block of content)]: the pending tool
    results and the tool calls of the message; [None] when it throws. *)
Definition block_step (acc : list tool_result * list tool_call * nat) (block : jv)
  : option (list tool_result * list tool_call * nat) :=
  let '(pending, calls, n) := acc in
  if negb (truthy block) then Some acc
  else if Schema.is_str (get block "type") "tool_result" then
    let '(id, n') := or_call_id (js_or (get block "tool_use_id") (get block "id")) n in
    match toolResultToOutput (get block "content") with
    | None => None
    | Some out =>
        Some (pending ++ [mkToolResult id (Response.or_default (get block "name") (JStr "tool"))
                                       (List.length pending) out],
              calls, n')
    end
  else if Schema.is_str (get block "type") "tool_use" then
    let '(id, n') := or_call_id (get block "id") n in
    Some (pending,
          calls ++ [mkToolCall id (Response.or_default (get block "name") (JStr "tool"))
                               (JSON_stringify (Response.or_default (get block "input") (JObj [])))],
          n')
  else Some acc.

Fixpoint blocks_loop (l : list jv) (acc : list tool_result * list tool_call * nat)
  : option (list tool_result * list tool_call * nat) :=
  match l with
  | [] => Some acc
  | b :: l' =>
      match block_step acc b with
      | Some acc' => blocks_loop l' acc'
      | None => None
      end
  end.

(** One iteration of [for (const msg of messages)]; [msg.role] throws on
    [null]. *)
Definition message_step (acc : list message * list tool_result * nat) (msg : jv)
  : option (list message * list tool_result * nat) :=
  let '(out, pending, n) := acc in
  match msg with
  | JNull => None
  | _ =>
      let role := get msg "role" in
      let content := get msg "content" in
      let text := match content with
                  | Some (JStr s) => s
                  | Some (JArr l) => String.concat "" (extractTextBlocks l)
                  | _ => ""
                  end in
      match match content with
            | Some (JArr l) => blocks_loop l (pending, [], n)
            | _ => Some (pending, [], n)
            end with
      | None => None
      | Some (pending', calls, n') =>
      let r := if Schema.is_str role "user" then Some "user"%string
               else if Schema.is_str role "assistant" then Some "assistant"%string
               else None in
      match r with
      | Some rl =>
          if negb (String.eqb text "") || negb (Nat.eqb (List.length pending') 0)
             || negb (Nat.eqb (List.length calls) 0)
          then Some (out ++ [mkMessage rl text calls pending'], [], n')
          else Some (out, pending', n')
      | None => Some (out, pending', n')
      end
      end
  end.

Fixpoint messages_loop (ms : list jv) (acc : list message * list tool_result * nat)
  : option (list message * list tool_result * nat) :=
  match ms with
  | [] => Some acc
  | m :: ms' =>
      match message_step acc m with
      | Some acc' => messages_loop ms' acc'
      | None => None
      end
  end.

(** The [[System Instructions]] message; [None] when building [sysText]
    throws. *)
Definition system_messages (system : option jv) : option (list message) :=
  match system with
  | Some sys =>
      if truthy sys then
        let sysText := match sys with
                       | JArr l =>
                           join_opt Request.nl
                             (map (fun b => Some (Response.or_default (get b "text") (JStr "")))
                                  (filter (fun b => Schema.is_str (get b "type") "text") l))
                       | _ => js_String sys
                       end in
        match sysText with
        | None => None
        | Some t =>
            if String.eqb t "" then Some []
            else Some [mkMessage "user" (String.append "[System Instructions]"
                                          (String.append Request.nl t)) [] []]
        end
      else Some []
  | None => Some []
  end.

(** [tools.map(t => ...)]: [t.name] throws on [null]. *)
Fixpoint map_tools (ts : list jv) : option (list tool) :=
  match ts with
  | [] => Some []
  | JNull :: _ => None
  | t :: ts' =>
      match map_tools ts' with
      | Some r => Some (mkTool (get t "name") (get t "description") (get t "input_schema") :: r)
      | None => None
      end
  end.

(** [normalizeCursorModel(model)] on a possibly undefined value:
    [modelName.toLowerCase] throws on a truthy non-string. *)
Definition normalize_model (model : option jv) : option (option jv) :=
  match model with
  | None => Some None
  | Some v =>
      if negb (truthy v) then Some (Some v)
      else match v with
           | JStr s => Some (Some (JStr (CursorModel.normalizeCursorModel s)))
           | _ => None
           end
  end.

(** [convertAnthropicToCursorRequest(anthropicRequest)], drawing random
    strings from the [n]-th on. *)
Definition convertAnthropicToCursorRequest (req : jv) (n : nat) : option (request * nat) :=
  match req with
  | JNull => None
  | _ =>
      let msgs := match get req "messages" with Some v => v | None => JArr [] end in
      match Response.iter msgs with
      | None => None
      | Some ms =>
          match match system_messages (get req "system") with
                | Some sm => messages_loop ms (sm, [], n)
                | None => None
                end with
          | None => None
          | Some (cursorMessages, _, n') =>
              let cursorTools := match get req "tools" with
                                 | Some (JArr ts) => map_tools ts
                                 | _ => Some []
                                 end in
              match cursorTools with
              | None => None
              | Some tls =>
                  let effort := Response.or_default
                                  (match get req "thinking" with
                                   | Some JNull | None => None
                                   | Some th => get th "reasoning_effort"
                                   end) JNull in
                  match normalize_model (get req "model") with
                  | None => None
                  | Some m => Some (mkRequest m cursorMessages tls effort, n')
                  end
              end
          end
      end
  end.

End Convert.

End CursorRequest.

(** ** Observations on Anthropic messages *)

(** The message is a user or assistant message. *)
Definition is_ua (msg : JS.jv) : bool :=
  Schema.is_str (JS.get msg "role") "user" || Schema.is_str (JS.get msg "role") "assistant".

(** The tool_result blocks of a message, in order. *)
Definition result_blocks (msg : JS.jv) : list JS.jv :=
  match JS.get msg "content" with
  | Some (JS.JArr l) => filter (fun b => JS.truthy b && Schema.is_str (JS.get b "type") "tool_result") l
  | _ => []
  end.

(** The block is a truthy [tool_result] block whose [toolResultToOutput]
    throws. *)
Definition result_throws (JSON_stringify : JS.jv -> string) (b : JS.jv) : bool :=
  JS.truthy b && Schema.is_str (JS.get b "type") "tool_result" &&
  match CursorRequest.toolResultToOutput JSON_stringify (JS.get b "content") with
  | None => true
  | Some _ => false
  end.

(** Handling the message in [convertAnthropicToCursorRequest] throws: it is
    [null], or one of its blocks is a [tool_result] whose output throws. *)
Definition message_throws (JSON_stringify : JS.jv -> string) (m : JS.jv) : bool :=
  match m with
  | JS.JNull => true
  | _ => match JS.get m "content" with
         | Some (JS.JArr l) => existsb (result_throws JSON_stringify) l
         | _ => false
         end
  end.

(** The role a user or assistant message keeps in the converted request. *)
Definition ua_role (msg : JS.jv) : string :=
  if Schema.is_str (JS.get msg "role") "user" then "user" else "assistant".

(** Read from the spec's words: the tool results of the messages since the
    previous user or assistant message go with the next one. Each user or
    assistant message of [ms], in order, with the result blocks it takes;
    [acc] holds the blocks waiting since the last one. *)
Fixpoint carried_groups (ms : list JS.jv) (acc : list JS.jv) : list (JS.jv * list JS.jv) :=
  match ms with
  | [] => []
  | m :: ms' =>
      if is_ua m then (m, acc ++ result_blocks m) :: carried_groups ms' []
      else carried_groups ms' (acc ++ result_blocks m)
  end.

(** Every item id of [toolCallOrder] converts to a key naming an own entry
    of [toolCalls]. *)
Definition order_owned (s : Collect.state) : Prop :=
  forall id, In id (Collect.toolCallOrder s) ->
             exists k, JS.js_String id = Some k /\ Collect.tc_get (Collect.toolCalls s) k <> None.

(** How one handler moves the state: the text parts it appends, the
    number of item ids it adds, and [order_owned] kept. *)
Definition moves (s s' : Collect.state) (tx : list JS.jv) (n : nat) : Prop :=
  order_owned s' /\ Collect.textParts s' = Collect.textParts s ++ tx /\
  List.length (Collect.toolCallOrder s') = List.length (Collect.toolCallOrder s) + n.

(** What the code keeps of a tool result block: its name and output. *)
Definition result_view (JSON_stringify : JS.jv -> string) (b : JS.jv) : JS.jv * option string :=
  (Response.or_default (JS.get b "name") (JS.JStr "tool"),
   CursorRequest.toolResultToOutput JSON_stringify (JS.get b "content")).

Definition tool_result_view (t : CursorRequest.tool_result) : JS.jv * option string :=
  (CursorRequest.tr_name t, Some (CursorRequest.raw_args t)).

(** The role and tool results of a converted message. *)
Definition message_results (m : CursorRequest.message) : string * list (JS.jv * option string) :=
  (CursorRequest.role m, map tool_result_view (CursorRequest.tool_results m)).

(** The role and tool results a group of [carried_groups] gives. *)
Definition group_results (JSON_stringify : JS.jv -> string) (g : JS.jv * list JS.jv)
  : string * list (JS.jv * option string) :=
  (ua_role (fst g), map (result_view JSON_stringify) (snd g)).

Definition has_results {B A : Type} (p : B * list A) : bool :=
  match snd p with [] => false | _ => true end.

Definition indexed (l : list CursorRequest.tool_result) : Prop :=
  map CursorRequest.index l = seq 0 (List.length l).

Definition out_indexed (out : list CursorRequest.message) : Prop :=
  Forall (fun m => indexed (CursorRequest.tool_results m)) out.

(** A sample request: a tool result in a [tool] message, carried to the
    next user message with one of its own, then a trailing [tool]
    message whose result is dropped. *)
Definition sample_cursor_request : JS.jv :=
  let result (id out : string) :=
    JS.JObj [("type", JS.JStr "tool_result"); ("tool_use_id", JS.JStr id); ("content", JS.JStr out)] in
  JS.JObj [("model", JS.JStr "cu/gpt-5");
           ("messages", JS.JArr
              [JS.JObj [("role", JS.JStr "tool"); ("content", JS.JArr [result "t1" "one"])];
               JS.JObj [("role", JS.JStr "user");
                        ("content", JS.JArr [result "t2" "two";
                                             JS.JObj [("type", JS.JStr "text"); ("text", JS.JStr "go")]])];
               JS.JObj [("role", JS.JStr "tool"); ("content", JS.JArr [result "t3" "three"])]])].

(** * Properties *)

(** ** Stream adapters *)

Example codex_text_only :
  Codex.streamCodexResponseToAnthropic [Codex.OutputTextDelta "hi"] =
  [MessageStart; BlockStart 0 BKText; BlockDelta 0 (DText "hi"); BlockStop 0;
   MessageDelta "end_turn"; MessageStop].
Proof. reflexivity. Qed.

Example cursor_text_then_tool :
  Cursor.streamResults
    [Some (Cursor.mkResult (Some "a") None None);
     Some (Cursor.mkResult None (Some (Cursor.mkToolCall (Some "t1") (Some "Read") (Some "{}") false)) None)] =
  Cursor.Ok [MessageStart; BlockStart 0 BKText; BlockDelta 0 (DText "a"); BlockStop 0;
             BlockStart 1 (BKToolUse (KStr "t1") "Read"); BlockDelta 1 (DInputJson "{}");
             BlockStop 1; MessageDelta "tool_use"; MessageStop].
Proof. reflexivity. Qed.

Lemma codex_ensureStarted_spec s :
  Codex.ensureStarted s =
  (Codex.mkState true (Codex.textBlockIndex s) (Codex.currentToolItemId s)
     (Codex.toolBlockMap s) (Codex.nextIndex s) (Codex.outputTokens s)
     (Codex.inputTokens s) (Codex.hasToolUse s) (Codex.rand s),
   if Codex.started s then [] else [MessageStart]).
Proof. destruct s as [[] ? ? ? ? ? ? ? ?]; reflexivity. Qed.

Lemma codex_step_stop s c s1 e1 :
  codex_inv s -> Codex.step s c = (s1, e1) ->
  codex_inv s1 /\ message_deltas e1 = [] /\
  Codex.hasToolUse s1 = Codex.hasToolUse s || existsb is_tool_start e1.
Proof.
  unfold codex_inv; intros Hinv Hs.
  destruct c as [d | [it|] | iid d | | it ot |]; simpl in Hs.
  - destruct (String.eqb d ""); [inversion Hs; subst; simpl; rewrite orb_false_r; auto|].
    rewrite codex_ensureStarted_spec in Hs. simpl in Hs.
    destruct (Codex.textBlockIndex s); inversion Hs; subst; clear Hs; simpl;
      destruct (Codex.started s); simpl; rewrite ?orb_false_r; auto.
  - destruct (String.eqb (Codex.item_type it) "function_call");
      [|inversion Hs; subst; simpl; rewrite orb_false_r; auto].
    rewrite codex_ensureStarted_spec in Hs. simpl in Hs.
    destruct (truthy_str (Codex.item_call_id it));
    destruct (Codex.textBlockIndex s); inversion Hs; subst; clear Hs; simpl;
      unfold message_deltas; rewrite ?filter_app, ?existsb_app;
      destruct (Codex.started s); simpl; rewrite ?orb_true_r; auto.
  - inversion Hs; subst; simpl; rewrite orb_false_r; auto.
  - destruct (String.eqb d ""); [inversion Hs; subst; simpl; rewrite orb_false_r; auto|].
    revert Hs; split_lets; intro Hs; inversion Hs; subst; simpl; rewrite ?orb_false_r; auto.
  - inversion Hs; subst; simpl; rewrite orb_false_r; auto.
  - inversion Hs; subst; simpl; rewrite orb_false_r; auto.
  - inversion Hs; subst; simpl; rewrite orb_false_r; auto.
Qed.

Lemma codex_run_stop cs : forall s s' es,
  codex_inv s -> Codex.run s cs = (s', es) ->
  codex_inv s' /\ message_deltas es = [] /\
  Codex.hasToolUse s' = Codex.hasToolUse s || existsb is_tool_start es.
Proof.
  induction cs as [|c cs IH]; intros s s' es Hinv Hrun; simpl in Hrun.
  - inversion Hrun; subst; simpl; rewrite orb_false_r; auto.
  - destruct (Codex.step s c) as [s1 e1] eqn:Hs.
    destruct (Codex.run s1 cs) as [s2 e2] eqn:Hr.
    inversion Hrun; subst; clear Hrun.
    destruct (codex_step_stop _ _ _ _ Hinv Hs) as (Hi1 & Hm1 & Ht1).
    destruct (IH _ _ _ Hi1 Hr) as (Hi2 & Hm2 & Ht2).
    unfold message_deltas in *; rewrite filter_app, Hm1, Hm2, existsb_app.
    rewrite Ht2, Ht1, orb_assoc; auto.
Qed.

Lemma codex_stop_law cs : stop_law (Codex.streamCodexResponseToAnthropic cs).
Proof.
  unfold stop_law, Codex.streamCodexResponseToAnthropic.
  destruct (Codex.run Codex.init cs) as [s es] eqn:Hr.
  assert (H0 : codex_inv Codex.init) by (unfold codex_inv; simpl; discriminate).
  destruct (codex_run_stop _ _ _ _ H0 Hr) as (Hi & Hm & Ht).
  simpl in Ht. unfold codex_inv in Hi.
  unfold message_deltas; rewrite filter_app, existsb_app.
  fold (message_deltas es); rewrite Hm, <- Ht.
  unfold Codex.finish.
  destruct (Codex.started s) eqn:Hst.
  - destruct (Codex.textBlockIndex s); destruct (Codex.currentToolItemId s);
      try destruct (Codex.map_get (Codex.toolBlockMap s) k) as [[? ?]|];
      destruct (Codex.hasToolUse s); reflexivity.
  - destruct (Codex.hasToolUse s) eqn:Hh; [specialize (Hi eq_refl); congruence|].
    reflexivity.
Qed.

Lemma blocks_set_nonempty m k v : blocks_nonempty (Cursor.blocks_set m k v) = true.
Proof. destruct m as [|[k' v'] m]; simpl; [|destruct (Cursor.opt_str_eqb k k')]; reflexivity. Qed.

Lemma blocks_get_nonempty m k v : Cursor.blocks_get m k = Some v -> blocks_nonempty m = true.
Proof. destruct m; simpl; [discriminate | reflexivity]. Qed.

Lemma close_all_spec m :
  blocks_nonempty (fst (Cursor.close_all m)) = blocks_nonempty m /\
  Forall (fun e => exists i, e = BlockStop i) (snd (Cursor.close_all m)).
Proof.
  induction m as [|[k [i c]] m [_ IH]]; simpl; [split; auto|].
  destruct (Cursor.close_all m) as [m' es]; simpl in *.
  destruct c; simpl; split; auto.
  constructor; eauto.
Qed.

Lemma stops_no_tool_start es :
  Forall (fun e => exists i, e = BlockStop i) es ->
  existsb is_tool_start es = false /\ message_deltas es = [].
Proof.
  induction 1 as [|e es [i ->] _ [IH1 IH2]]; simpl; auto.
Qed.

Lemma cursor_step_stop s r s1 e1 :
  cursor_inv s -> Cursor.step s r = (s1, e1) ->
  cursor_inv s1 /\ message_deltas e1 = [] /\
  Cursor.sawToolCall s1 = Cursor.sawToolCall s || existsb is_tool_start e1.
Proof.
  unfold cursor_inv; intros Hinv Hs.
  unfold Cursor.step in Hs.
  destruct r as [[t [tc|] err]|]; simpl in Hs.
  - (* a tool call *)
    unfold Cursor.ensureMessageStart in Hs; simpl in Hs.
    destruct (Cursor.started s); destruct (Cursor.textBlockIndex s); simpl in Hs;
    destruct (Cursor.blocks_get (Cursor.toolBlocks s) (Cursor.tc_id tc)) as [[i [|]]|] eqn:Hg;
    destruct (truthy_str (Cursor.tc_arguments tc)); destruct (Cursor.tc_isLast tc);
    simpl in Hs; inversion Hs; subst; clear Hs; simpl;
    unfold message_deltas; rewrite ?filter_app, ?existsb_app; simpl;
    rewrite ?blocks_set_nonempty, ?orb_true_r; auto;
    try (rewrite Hinv, (blocks_get_nonempty _ _ _ Hg); auto).
  - (* text or nothing *)
    destruct (truthy_str t) as [txt|]; [|inversion Hs; subst; simpl; rewrite orb_false_r; auto].
    unfold Cursor.ensureMessageStart in Hs.
    destruct (close_all_spec (Cursor.toolBlocks s)) as [Hn Hf].
    destruct (Cursor.started s); simpl in Hs;
    destruct (Cursor.close_all (Cursor.toolBlocks s)) as [tb e2] eqn:Hc; simpl in *;
    destruct (stops_no_tool_start _ Hf) as [Ht Hm];
    destruct (Cursor.textBlockIndex s); inversion Hs; subst; clear Hs; simpl;
    unfold message_deltas in *; rewrite ?filter_app, ?existsb_app, ?Ht, ?Hm; simpl;
    rewrite ?orb_false_r; rewrite Hinv, Hn; auto.
  - inversion Hs; subst; simpl; rewrite orb_false_r; auto.
Qed.

Lemma cursor_run_stop rs : forall s s' es,
  cursor_inv s -> Cursor.run s rs = (s', es) ->
  cursor_inv s' /\ message_deltas es = [] /\
  Cursor.sawToolCall s' = Cursor.sawToolCall s || existsb is_tool_start es.
Proof.
  induction rs as [|r rs IH]; intros s s' es Hinv Hrun; simpl in Hrun.
  - inversion Hrun; subst; simpl; rewrite orb_false_r; auto.
  - destruct (Cursor.step s r) as [s1 e1] eqn:Hs.
    destruct (Cursor.run s1 rs) as [s2 e2] eqn:Hr.
    inversion Hrun; subst; clear Hrun.
    destruct (cursor_step_stop _ _ _ _ Hinv Hs) as (Hi1 & Hm1 & Ht1).
    destruct (IH _ _ _ Hi1 Hr) as (Hi2 & Hm2 & Ht2).
    unfold message_deltas in *; rewrite filter_app, Hm1, Hm2, existsb_app.
    rewrite Ht2, Ht1, orb_assoc; auto.
Qed.

Lemma unclosed_stops (m : Cursor.blocks) :
  Forall (fun e => exists i, e = BlockStop i)
    (flat_map (fun (b : option string * (nat * bool)) =>
                 let '(_, (i, closed)) := b in if closed then [] else [BlockStop i]) m).
Proof.
  induction m as [|[k [i c]] m IH]; simpl; auto.
  destruct c; simpl; auto.
  constructor; eauto.
Qed.

Lemma cursor_stop_law rs evs :
  Cursor.streamResults rs = Cursor.Ok evs -> stop_law evs.
Proof.
  unfold Cursor.streamResults.
  destruct (Cursor.run Cursor.init rs) as [s es] eqn:Hr.
  assert (H0 : cursor_inv Cursor.init) by reflexivity.
  destruct (cursor_run_stop _ _ _ _ H0 Hr) as (_ & Hm & Ht); simpl in Ht.
  unfold Cursor.finish.
  destruct (Cursor.started s); simpl; [|discriminate].
  intro H; inversion H; subst; clear H.
  destruct (stops_no_tool_start _ (unclosed_stops (Cursor.toolBlocks s))) as [Ht2 Hm2].
  unfold stop_law, message_deltas in *.
  rewrite !filter_app, !existsb_app, Hm, <- Ht, Hm2, Ht2.
  destruct (Cursor.textBlockIndex s); destruct (Cursor.sawToolCall s); reflexivity.
Qed.

Lemma codex_step_quiet s c s1 e1 :
  codex_quiet s -> Codex.step s c = (s1, e1) ->
  codex_quiet s1 /\
  (Codex.started s1 = false -> Codex.started s = false /\ e1 = []) /\
  (Codex.started s1 = true -> Codex.started s = true \/ In MessageStart e1).
Proof.
  unfold codex_quiet; intros Hq Hs.
  destruct c as [d | [it|] | iid d | | it ot |]; simpl in Hs.
  - destruct (String.eqb d ""); [inversion Hs; subst; auto|].
    rewrite codex_ensureStarted_spec in Hs. simpl in Hs.
    destruct (Codex.started s);
    destruct (Codex.textBlockIndex s); inversion Hs; subst; clear Hs; simpl;
      repeat split; auto; discriminate.
  - destruct (String.eqb (Codex.item_type it) "function_call"); [|inversion Hs; subst; auto].
    rewrite codex_ensureStarted_spec in Hs. simpl in Hs.
    destruct (Codex.started s); destruct (truthy_str (Codex.item_call_id it));
    destruct (Codex.textBlockIndex s); inversion Hs; subst; clear Hs; simpl;
      repeat split; auto; discriminate.
  - inversion Hs; subst; auto.
  - destruct (String.eqb d ""); [inversion Hs; subst; auto|].
    destruct (Codex.started s) eqn:Hst.
    + revert Hs; split_lets; intro Hs; inversion Hs; subst; rewrite Hst;
        repeat split; auto; discriminate.
    + destruct (Hq eq_refl) as (Hm & Hc & Hh).
      rewrite Hm, Hc in Hs. simpl in Hs.
      destruct (truthy_str iid); simpl in Hs; inversion Hs; subst; rewrite Hst;
        repeat split; auto; intros; discriminate.
  - inversion Hs; subst; auto.
  - inversion Hs; subst; auto.
  - inversion Hs; subst; auto.
Qed.

Lemma codex_run_quiet cs : forall s s' es,
  codex_quiet s -> Codex.run s cs = (s', es) ->
  codex_quiet s' /\
  (Codex.started s' = false -> Codex.started s = false /\ es = []) /\
  (Codex.started s' = true -> Codex.started s = true \/ In MessageStart es).
Proof.
  induction cs as [|c cs IH]; intros s s' es Hq Hrun; simpl in Hrun.
  - inversion Hrun; subst; auto.
  - destruct (Codex.step s c) as [s1 e1] eqn:Hs.
    destruct (Codex.run s1 cs) as [s2 e2] eqn:Hr.
    inversion Hrun; subst; clear Hrun.
    destruct (codex_step_quiet _ _ _ _ Hq Hs) as (Hq1 & Hf1 & Ht1).
    destruct (IH _ _ _ Hq1 Hr) as (Hq2 & Hf2 & Ht2).
    split; [exact Hq2|split].
    + intro H. destruct (Hf2 H) as [H1 ->]. destruct (Hf1 H1) as [H2 ->]. auto.
    + intro H. destruct (Ht2 H) as [H1 | H1].
      * destruct (Ht1 H1) as [H2 | H2]; auto. right; apply in_or_app; auto.
      * right; apply in_or_app; auto.
Qed.

(** ** The framed-buffer decoder *)

Lemma skipn_nth_error {A} (l : list A) n x :
  nth_error l n = Some x -> skipn n l = x :: skipn (S n) l.
Proof.
  revert n; induction l as [|y l IH]; intros [|n] H; simpl in *; try discriminate.
  - inversion H; reflexivity.
  - apply IH; exact H.
Qed.

Lemma nth_error_lt {A} (l : list A) n : n < List.length l -> exists x, nth_error l n = Some x.
Proof.
  intro H. destruct (nth_error l n) eqn:E; eauto.
  apply nth_error_None in E; lia.
Qed.

Section FramesProofs.

Variable ext : list byte -> option Cursor.result.
Variable gunzip : list byte -> option (list byte).
Variable jparse : list byte -> option JS.jv.

Lemma loop_frames fuel : forall buf off acc,
  (N.to_nat off <= List.length buf) ->
  List.length buf - N.to_nat off < fuel ->
  exists fs rest,
    skipn (N.to_nat off) buf = List.concat (map Frames.encode fs) ++ rest /\
    Forall Frames.frame_wf fs /\
    Frames.complete_frame_at rest = false /\
    Frames.loop ext gunzip jparse fuel buf off acc = Frames.process ext gunzip jparse fs acc.
Proof.
  induction fuel as [|f IH]; intros buf off acc Hle Hfuel; [lia|].
  simpl Frames.loop.
  destruct (off <? N.of_nat (List.length buf))%N eqn:Hlt.
  2:{ apply N.ltb_ge in Hlt.
      exists [], []. simpl. rewrite skipn_all2 by lia. repeat split; auto. }
  apply N.ltb_lt in Hlt.
  destruct (N.of_nat (List.length buf) <? off + 5)%N eqn:H5.
  { apply N.ltb_lt in H5.
    exists [], (skipn (N.to_nat off) buf). simpl. repeat split; auto.
    unfold Frames.complete_frame_at.
    assert (Hl : List.length (skipn (N.to_nat off) buf) < 5) by (rewrite length_skipn; lia).
    destruct (skipn (N.to_nat off) buf) as [|? [|? [|? [|? [|? ?]]]]]; simpl in *; auto; lia. }
  apply N.ltb_ge in H5.
  destruct (nth_error_lt buf (N.to_nat off)) as [fl Hfl]; [lia|].
  destruct (nth_error_lt buf (N.to_nat (off + 1))) as [b0 Hb0]; [lia|].
  destruct (nth_error_lt buf (N.to_nat (off + 1 + 1))) as [b1 Hb1]; [lia|].
  destruct (nth_error_lt buf (N.to_nat (off + 1 + 2))) as [b2 Hb2]; [lia|].
  destruct (nth_error_lt buf (N.to_nat (off + 1 + 3))) as [b3 Hb3]; [lia|].
  unfold Frames.readUInt32BE, Frames.read_byte.
  rewrite Hfl, Hb0, Hb1, Hb2, Hb3.
  assert (Hsk : skipn (N.to_nat off) buf =
                fl :: b0 :: b1 :: b2 :: b3 :: skipn (N.to_nat (off + 5)) buf).
  { rewrite (skipn_nth_error _ _ _ Hfl).
    replace (S (N.to_nat off)) with (N.to_nat (off + 1)) by lia.
    rewrite (skipn_nth_error _ _ _ Hb0).
    replace (S (N.to_nat (off + 1))) with (N.to_nat (off + 1 + 1)) by lia.
    rewrite (skipn_nth_error _ _ _ Hb1).
    replace (S (N.to_nat (off + 1 + 1))) with (N.to_nat (off + 1 + 2)) by lia.
    rewrite (skipn_nth_error _ _ _ Hb2).
    replace (S (N.to_nat (off + 1 + 2))) with (N.to_nat (off + 1 + 3)) by lia.
    rewrite (skipn_nth_error _ _ _ Hb3).
    replace (S (N.to_nat (off + 1 + 3))) with (N.to_nat (off + 5)) by lia.
    reflexivity. }
  set (L := Frames.be32 b0 b1 b2 b3).
  assert (Hlen5 : List.length (skipn (N.to_nat (off + 5)) buf) = List.length buf - N.to_nat (off + 5))
    by (rewrite length_skipn; reflexivity).
  destruct (N.of_nat (List.length buf) <? off + 5 + L)%N eqn:HL.
  { apply N.ltb_lt in HL.
    exists [], (skipn (N.to_nat off) buf). simpl. repeat split; auto.
    rewrite Hsk. unfold Frames.complete_frame_at. fold L.
    apply N.leb_gt. lia. }
  apply N.ltb_ge in HL.
  unfold Frames.slice.
  replace ((off + 5 + L <=? N.of_nat (List.length buf))%N) with true
    by (symmetry; apply N.leb_le; lia).
  replace (N.to_nat (off + 5 + L - (off + 5))) with (N.to_nat L) by lia.
  set (payload := firstn (N.to_nat L) (skipn (N.to_nat (off + 5)) buf)).
  assert (Hrest : skipn (N.to_nat (off + 5)) buf =
                  payload ++ skipn (N.to_nat (off + 5 + L)) buf).
  { unfold payload. rewrite <- (firstn_skipn (N.to_nat L) (skipn (N.to_nat (off + 5)) buf)) at 1.
    f_equal. rewrite skipn_skipn. f_equal. lia. }
  assert (Hplen : List.length payload = N.to_nat L).
  { unfold payload. rewrite length_firstn. lia. }
  set (fr := Frames.mkFrame fl [b0; b1; b2; b3] payload).
  assert (Hwf : Frames.frame_wf fr).
  { unfold Frames.frame_wf; simpl. rewrite Hplen. fold L. lia. }
  assert (Henc : skipn (N.to_nat off) buf =
                 Frames.encode fr ++ skipn (N.to_nat (off + 5 + L)) buf).
  { rewrite Hsk, Hrest. reflexivity. }
  destruct (Frames.handlePayload ext gunzip jparse payload fl) as [[[st m]|]|r] eqn:Hh.
  1,2: destruct (IH buf (off + 5 + L)%N [] ltac:(lia) ltac:(lia)) as (fs' & rest' & Hs' & Hw' & Hc' & _);
    exists (fr :: fs'), rest'; simpl; rewrite Henc, Hs', app_assoc;
    repeat split; auto; rewrite Hh; reflexivity.
  - destruct (IH buf (off + 5 + L)%N (r :: acc) ltac:(lia) ltac:(lia)) as (fs' & rest' & Hs' & Hw' & Hc' & Hl').
    exists (fr :: fs'), rest'. simpl. rewrite Henc, Hs', app_assoc.
    repeat split; auto. rewrite Hh. exact Hl'.
Qed.

Lemma handlePayload_status raw fl st m :
  Frames.handlePayload ext gunzip jparse raw fl = inl (Some (st, m)) -> st = 400%Z \/ st = 429%Z.
Proof.
  unfold Frames.handlePayload. intro H.
  destruct (Frames.parseJsonError jparse _) as [j|]; [destruct (JS.truthy j)|];
  [destruct (Frames.json_error_message j); inversion H; auto | |];
  destruct (option_map Cursor.r_error _) as [e|]; try discriminate;
  destruct (truthy_str e); try discriminate;
  inversion H; auto.
Qed.

(** The payload of a frame holds an embedded error whose message cannot be
    converted to a string. *)
Definition unconvertible_error (f : Frames.frame) : Prop :=
  exists j, Frames.parseJsonError jparse (Frames.decompressPayload gunzip (Frames.fr_payload f)
                                                                   (Frames.fr_flags f)) = Some j /\
            JS.truthy j = true /\ Frames.json_error_message j = None.

Lemma handlePayload_type_error raw fl :
  Frames.handlePayload ext gunzip jparse raw fl = inl None ->
  unconvertible_error (Frames.mkFrame fl [] raw).
Proof.
  unfold Frames.handlePayload, unconvertible_error. simpl. intro H.
  destruct (Frames.parseJsonError jparse _) as [j|] eqn:Ej.
  - destruct (JS.truthy j) eqn:Tj.
    + destruct (Frames.json_error_message j) eqn:Em; [discriminate|]. exists j. auto.
    + destruct (option_map Cursor.r_error _) as [e|]; try discriminate;
      destruct (truthy_str e); discriminate.
  - destruct (option_map Cursor.r_error _) as [e|]; try discriminate;
    destruct (truthy_str e); discriminate.
Qed.

Lemma process_outcome fs : forall acc,
  (exists rs, Frames.process ext gunzip jparse fs acc = Frames.Parsed rs) \/
  (exists st m, Frames.process ext gunzip jparse fs acc = Frames.Raised st m /\
                (st = 400%Z \/ st = 429%Z)) \/
  (Frames.process ext gunzip jparse fs acc = Frames.TypeErr /\
   exists f, In f fs /\ unconvertible_error f).
Proof.
  induction fs as [|f fs IH]; intro acc; simpl; [left; eauto|].
  destruct (Frames.handlePayload ext gunzip jparse (Frames.fr_payload f) (Frames.fr_flags f))
    as [[[st m]|]|r] eqn:Hh.
  - right; left. exists st, m. split; auto. eapply handlePayload_status; eauto.
  - right; right. split; [reflexivity|]. exists f. split; [left; reflexivity|].
    apply handlePayload_type_error in Hh. exact Hh.
  - destruct (IH (r :: acc)) as [H|[H|[H [f' [Hin Hf]]]]]; auto.
    right; right. split; [exact H|]. exists f'. split; [right; exact Hin|exact Hf].
Qed.

(** C10 (as amended). For every buffer, [parseCursorResponseBuffer] stops
    within its fuel and never reads outside the buffer; it splits the
    buffer into the complete frames (flag byte, 4-byte big-endian length,
    payload of that length) followed by a remainder that holds no complete
    frame, and handles exactly these frames in order. It returns the
    results, or throws the status-400 or status-429 error of an embedded
    error, or throws the [TypeError] of [new Error(msg)] when one of these
    frames holds an embedded error whose message cannot be converted to a
    string. A gzip-flagged payload that fails to decompress is used as it
    is. *)
Theorem parseCursorResponseBuffer_frames (buf : list byte) :
  (exists fs rest,
     buf = List.concat (map Frames.encode fs) ++ rest /\
     Forall Frames.frame_wf fs /\
     Frames.complete_frame_at rest = false /\
     Frames.parseCursorResponseBuffer ext gunzip jparse buf =
     Frames.process ext gunzip jparse fs [] /\
     ((exists rs, Frames.parseCursorResponseBuffer ext gunzip jparse buf = Frames.Parsed rs) \/
      (exists st m, Frames.parseCursorResponseBuffer ext gunzip jparse buf = Frames.Raised st m /\
                    (st = 400%Z \/ st = 429%Z)) \/
      (Frames.parseCursorResponseBuffer ext gunzip jparse buf = Frames.TypeErr /\
       exists f, In f fs /\ unconvertible_error f))) /\
  (forall payload flags,
     Frames.is_gzip_flag flags = true -> gunzip payload = None ->
     Frames.decompressPayload gunzip payload flags = payload).
Proof.
  destruct (loop_frames (S (List.length buf)) buf 0%N [] ltac:(simpl; lia) ltac:(simpl; lia))
    as (fs & rest & Hs & Hw & Hc & Hl).
  simpl in Hs.
  split.
  - exists fs, rest. split; [exact Hs|]. split; [exact Hw|]. split; [exact Hc|].
    unfold Frames.parseCursorResponseBuffer. rewrite Hl. split; [reflexivity|apply process_outcome].
  - intros payload flags Hg Hz. unfold Frames.decompressPayload.
    rewrite Hg, Hz. destruct (_ && _ && _); reflexivity.
Qed.

End FramesProofs.

Lemma cursor_run_unusable rs : forall s,
  forallb (fun r => negb (cursor_usable r)) rs = true ->
  Cursor.run s rs = (s, []).
Proof.
  induction rs as [|r rs IH]; intros s H; simpl in *; [reflexivity|].
  apply andb_prop in H as [H1 H2].
  destruct r as [[t [tc|] e]|]; simpl in H1; try discriminate.
  - unfold Cursor.step; simpl. destruct (truthy_str t); [discriminate|].
    rewrite IH by exact H2. reflexivity.
  - unfold Cursor.step; simpl. rewrite IH by exact H2. reflexivity.
Qed.

(** C1 (failing input). Two tool calls opened by the Codex backend: the
    Codex adapter starts blocks 0 and 1 but only ever stops block 1, so
    block 0 has no [content_block_stop] before [message_delta]. *)
Theorem codex_two_tool_blocks_unclosed :
  Codex.streamCodexResponseToAnthropic
    [fn_call "call_a" "fc_a" "Read"; fn_call "call_b" "fc_b" "Grep"] =
  [MessageStart;
   BlockStart 0 (BKToolUse (KStr "call_a") "Read");
   BlockStart 1 (BKToolUse (KStr "call_b") "Grep");
   BlockStop 1;
   MessageDelta "tool_use"; MessageStop] /\
  ~ In (BlockStop 0)
    (Codex.streamCodexResponseToAnthropic
       [fn_call "call_a" "fc_a" "Read"; fn_call "call_b" "fc_b" "Grep"]).
Proof.
  split; [reflexivity|].
  vm_compute. intuition discriminate.
Qed.

(** C2. Both streaming adapters emit exactly one [message_delta], whose
    stop reason is [tool_use] when some emitted [content_block_start] is a
    [tool_use] block and [end_turn] otherwise. *)
Theorem stop_reason_law :
  (forall cs, stop_law (Codex.streamCodexResponseToAnthropic cs)) /\
  (forall ext gunzip jparse buf evs,
     Frames.streamCursorResponseToAnthropic ext gunzip jparse buf = Cursor.Ok evs ->
     stop_law evs).
Proof.
  split; [exact codex_stop_law|].
  intros ext gunzip jparse buf evs.
  unfold Frames.streamCursorResponseToAnthropic.
  destruct (Frames.parseCursorResponseBuffer ext gunzip jparse buf); try discriminate.
  apply cursor_stop_law.
Qed.

(** C3 (counterexample). A Cursor response with no content (the empty
    buffer) makes the Cursor adapter throw instead of emitting the minimal
    stream. *)
Theorem cursor_empty_stream_throws :
  Frames.streamCursorResponseToAnthropic (fun _ => None) (fun _ => None) (fun _ => None) [] =
  Cursor.Throw None "No content received from Cursor response".
Proof. reflexivity. Qed.

(** C3 (amended). When the loop of the Codex adapter has emitted no
    [message_start], the adapter emits exactly [message_start], an empty
    text block 0 with its stop, [message_delta] with [end_turn] and
    [message_stop]. When none of the decoded Cursor results carries a tool
    call or text, the Cursor adapter throws
    [No content received from Cursor response] and emits nothing. *)
Theorem empty_stream_behaviour :
  (forall cs, ~ In MessageStart (snd (Codex.run Codex.init cs)) ->
     Codex.streamCodexResponseToAnthropic cs = minimal_stream) /\
  (forall ext gunzip jparse buf rs,
     Frames.parseCursorResponseBuffer ext gunzip jparse buf = Frames.Parsed rs ->
     forallb (fun r => negb (cursor_usable r)) rs = true ->
     Frames.streamCursorResponseToAnthropic ext gunzip jparse buf =
     Cursor.Throw None "No content received from Cursor response").
Proof.
  split.
  - intros cs Hno.
    unfold Codex.streamCodexResponseToAnthropic.
    destruct (Codex.run Codex.init cs) as [s es] eqn:Hr. simpl in Hno.
    assert (Hq0 : codex_quiet Codex.init) by (intro; repeat split).
    destruct (codex_run_quiet _ _ _ _ Hq0 Hr) as (Hq & Hf & Ht).
    destruct (Codex.started s) eqn:Hst.
    + destruct (Ht eq_refl) as [H | H]; [discriminate | contradiction].
    + destruct (Hf eq_refl) as [_ ->]. destruct (Hq Hst) as (_ & _ & Hh).
      unfold Codex.finish. rewrite Hst, Hh. reflexivity.
  - intros ext gunzip jparse buf rs Hp Hu.
    unfold Frames.streamCursorResponseToAnthropic. rewrite Hp.
    unfold Cursor.streamResults. rewrite cursor_run_unusable by exact Hu.
    reflexivity.
Qed.

(** ** The dispatch loop *)

Section DispatchProofs.

Variable Number_of_string : string -> option Z.
Variable JSON_parse : string -> option JS.jv.
Variable DEFAULT_COOLDOWN_MS : Z.

Abbreviation loop := (Dispatch.loop Number_of_string JSON_parse DEFAULT_COOLDOWN_MS).
Abbreviation retryMs := (Dispatch.retryMs Number_of_string JSON_parse DEFAULT_COOLDOWN_MS).
Abbreviation ToNumber := (Dispatch.ToNumber Number_of_string).
Abbreviation body_error_object := (Dispatch.body_error_object JSON_parse).
Abbreviation header_number := (Dispatch.header_number Number_of_string).

(** C4. In the Codex dispatch loop, a round where [selectAccount] returns no
    account with [waitMs > 0] throws [RESOURCE_EXHAUSTED] at once, with
    [resetMins = ceil(waitMs / 60000)], when [waitMs > 60000]; otherwise it
    sleeps [waitMs + 500] ms and goes on with the same attempt number. The
    budget is [max(3, accountCount + 1)] for both entry points. *)
Theorem no_account_wait (rounds : list Dispatch.round) (attempt maxAttempts waitMs : Z) :
  (attempt < maxAttempts)%Z -> (0 < waitMs)%Z ->
  ((60000 < waitMs)%Z ->
   loop (Dispatch.RNoAccount waitMs :: rounds) attempt maxAttempts =
   ([], Dispatch.Thrown (Dispatch.ResourceExhausted ((waitMs + 59999) / 60000)))) /\
  ((waitMs <= 60000)%Z ->
   loop (Dispatch.RNoAccount waitMs :: rounds) attempt maxAttempts =
   (Dispatch.Sleep (waitMs + 500) :: fst (loop rounds attempt maxAttempts),
    snd (loop rounds attempt maxAttempts))) /\
  (forall n,
   Dispatch.sendCodexMessage Number_of_string JSON_parse DEFAULT_COOLDOWN_MS rounds n =
   loop rounds 0 (Z.max 3 (n + 1)) /\
   Dispatch.sendCodexMessageStream Number_of_string JSON_parse DEFAULT_COOLDOWN_MS rounds n =
   loop rounds 0 (Z.max 3 (n + 1))).
Proof.
  intros Hlt Hpos. simpl.
  replace (attempt <? maxAttempts)%Z with true by (symmetry; apply Z.ltb_lt; exact Hlt).
  replace (0 <? waitMs)%Z with true by (symmetry; apply Z.ltb_lt; exact Hpos).
  split; [|split].
  - intro Hbig. replace (60000 <? waitMs)%Z with true by (symmetry; apply Z.ltb_lt; exact Hbig).
    unfold Dispatch.ceil_div. do 2 f_equal.
    rewrite <- (Z.opp_involutive ((waitMs + 59999) / 60000)).
    f_equal.
    assert (H : (- waitMs = (- ((waitMs + 59999) / 60000)) * 60000 + (59999 - (waitMs + 59999) mod 60000))%Z).
    { pose proof (Z.div_mod (waitMs + 59999) 60000 ltac:(lia)). lia. }
    rewrite H, Z.div_add_l by lia.
    rewrite (Z.div_small (59999 - _)); [lia|].
    pose proof (Z.mod_pos_bound (waitMs + 59999) 60000 ltac:(lia)). lia.
  - intro Hsmall. replace (60000 <? waitMs)%Z with false by (symmetry; apply Z.ltb_ge; exact Hsmall).
    replace (attempt - 1 + 1)%Z with attempt by lia. reflexivity.
  - intro n; split; reflexivity.
Qed.

Lemma parseRetryAfter_split (retryAfter : option string) (bodyText : string) (now : Z) :
  Dispatch.parseRetryAfter Number_of_string JSON_parse retryAfter bodyText now =
  let err := body_error_object bodyText in
  let from_reset_at :=
    if JS.truthy_opt (Dispatch.opt_get err "resets_at") then
      match ToNumber (Dispatch.opt_get err "resets_at") with
      | Some (Some at_) => match Dispatch.time_clip (at_ * 1000) with
                           | Some t => if (0 <? t - now)%Z then Some (t - now)%Z else None
                           | None => None
                           end
      | _ => None
      end
    else None in
  let from_body :=
    match ToNumber (Dispatch.opt_get err "resets_in_seconds") with
    | None => None
    | Some (Some n) => if (0 <? n)%Z then Some (n * 1000)%Z else from_reset_at
    | Some None => from_reset_at
    end in
  match header_number retryAfter with
  | Some s => if (0 <? s)%Z then Some (s * 1000)%Z else from_body
  | None => from_body
  end.
Proof.
  unfold Dispatch.parseRetryAfter, Dispatch.header_number, Dispatch.body_error_object.
  assert (E : forall err,
    (if JS.truthy_opt (Dispatch.opt_get err "resets_at") then
       match ToNumber (Dispatch.opt_get err "resets_at") with
       | Some (Some at_) => match Dispatch.time_clip (at_ * 1000) with
                            | Some t => if (0 <? t - now)%Z then Some (t - now)%Z else None
                            | None => None
                            end
       | Some None => None
       | None => None
       end
     else None) =
    (if JS.truthy_opt (Dispatch.opt_get err "resets_at") then
       match ToNumber (Dispatch.opt_get err "resets_at") with
       | Some (Some at_) => match Dispatch.time_clip (at_ * 1000) with
                            | Some t => if (0 <? t - now)%Z then Some (t - now)%Z else None
                            | None => None
                            end
       | _ => None
       end
     else None)) by reflexivity.
  destruct (truthy_str retryAfter) as [h|];
    [destruct (Number_of_string h) as [x|]; [destruct (0 <? x)%Z|]|];
    destruct (String.eqb bodyText ""); try reflexivity;
    destruct (JSON_parse bodyText); reflexivity.
Qed.

Lemma retryMs_some (retryAfter : option string) (bodyText : string) (now ms : Z) :
  Dispatch.parseRetryAfter Number_of_string JSON_parse retryAfter bodyText now = Some ms ->
  (0 < ms)%Z -> retryMs retryAfter bodyText now = ms.
Proof.
  intros H Hp. unfold Dispatch.retryMs. rewrite H.
  replace (ms =? 0)%Z with false by (symmetry; apply Z.eqb_neq; lia). reflexivity.
Qed.

Lemma retryMs_none (retryAfter : option string) (bodyText : string) (now : Z) :
  Dispatch.parseRetryAfter Number_of_string JSON_parse retryAfter bodyText now = None ->
  retryMs retryAfter bodyText now = DEFAULT_COOLDOWN_MS.
Proof. intros H. unfold Dispatch.retryMs. rewrite H. reflexivity. Qed.

(** C5, as the code has it. On a 429 the loop marks the account rate-limited
    for [parseRetryAfter(response, errorText) || DEFAULT_COOLDOWN_MS] and
    goes on with the next attempt. That cooldown is, in this order: [n * 1000]
    for a positive number [n] in the [Retry-After] header; else, with [err]
    being [body.error] when that is truthy and the whole parsed body
    otherwise, the default when [err.resets_in_seconds] cannot be converted
    to a number (the comparison throws inside the [try]); else [k * 1000] for
    [err.resets_in_seconds = k > 0]; else [t - now] when [err.resets_at] is
    truthy and [t = resets_at * 1000] is a valid date in the future; else
    the default. *)
Theorem rate_limit_cooldown (id : string) (retryAfter : option string) (bodyText : string)
    (now : Z) (rest : list Dispatch.round) (attempt maxAttempts : Z) :
  (attempt < maxAttempts)%Z ->
  let err := body_error_object bodyText in
  let c := retryMs retryAfter bodyText now in
  loop (Dispatch.RAccount id (Dispatch.HttpError 429 retryAfter bodyText now) :: rest)
       attempt maxAttempts =
  Dispatch.prepend [Dispatch.Fetch id; Dispatch.MarkRateLimited id c]
                   (loop rest (attempt + 1) maxAttempts) /\
  (forall n, header_number retryAfter = Some n -> (0 < n)%Z -> c = (n * 1000)%Z) /\
  ((forall n, header_number retryAfter = Some n -> (n <= 0)%Z) ->
   (ToNumber (Dispatch.opt_get err "resets_in_seconds") = None -> c = DEFAULT_COOLDOWN_MS) /\
   (forall k, ToNumber (Dispatch.opt_get err "resets_in_seconds") = Some (Some k) -> (0 < k)%Z ->
      c = (k * 1000)%Z) /\
   (ToNumber (Dispatch.opt_get err "resets_in_seconds") <> None ->
    (forall k, ToNumber (Dispatch.opt_get err "resets_in_seconds") = Some (Some k) -> (k <= 0)%Z) ->
    (forall a t, JS.truthy_opt (Dispatch.opt_get err "resets_at") = true ->
       ToNumber (Dispatch.opt_get err "resets_at") = Some (Some a) ->
       Dispatch.time_clip (a * 1000) = Some t -> (now < t)%Z -> c = (t - now)%Z) /\
    ((forall a t, JS.truthy_opt (Dispatch.opt_get err "resets_at") = true ->
       ToNumber (Dispatch.opt_get err "resets_at") = Some (Some a) ->
       Dispatch.time_clip (a * 1000) = Some t -> (t <= now)%Z) ->
     c = DEFAULT_COOLDOWN_MS))).
Proof.
  intros Hlt err c.
  assert (Hhd : forall x, (forall n, header_number retryAfter = Some n -> (n <= 0)%Z) ->
            match header_number retryAfter with
            | Some s => if (0 <? s)%Z then Some (s * 1000)%Z else x
            | None => x
            end = x).
  { intros x Hh. destruct (header_number retryAfter) as [s|] eqn:E; [|reflexivity].
    replace (0 <? s)%Z with false by (symmetry; apply Z.ltb_ge; apply Hh; reflexivity).
    reflexivity. }
  split; [|split; [|intro Hh; split; [|split; [|intros Hnt Hs; split]]]].
  - simpl. replace (attempt <? maxAttempts)%Z with true by (symmetry; apply Z.ltb_lt; exact Hlt).
    reflexivity.
  - intros n Hn Hp. apply retryMs_some; [|lia].
    rewrite parseRetryAfter_split, Hn. simpl.
    replace (0 <? n)%Z with true by (symmetry; apply Z.ltb_lt; exact Hp). reflexivity.
  - intros Hk. apply retryMs_none.
    rewrite parseRetryAfter_split. cbv zeta. fold err. rewrite Hk. apply Hhd, Hh.
  - intros k Hk Hp. apply retryMs_some; [|lia].
    rewrite parseRetryAfter_split. cbv zeta. fold err. rewrite Hk.
    replace (0 <? k)%Z with true by (symmetry; apply Z.ltb_lt; exact Hp).
    apply Hhd, Hh.
  - intros a t Ht Ha Hc Hf. apply retryMs_some; [|lia].
    rewrite parseRetryAfter_split. cbv zeta. fold err. rewrite Hhd by exact Hh.
    rewrite Ht, Ha, Hc.
    replace (0 <? t - now)%Z with true by (symmetry; apply Z.ltb_lt; lia).
    destruct (ToNumber (Dispatch.opt_get err "resets_in_seconds")) as [[k|]|] eqn:Ek;
      [|reflexivity|congruence].
    replace (0 <? k)%Z with false by (symmetry; apply Z.ltb_ge; apply Hs; reflexivity).
    reflexivity.
  - intros Hr. apply retryMs_none. rewrite parseRetryAfter_split. cbv zeta. fold err.
    rewrite Hhd by exact Hh.
    assert (Hres : (if JS.truthy_opt (Dispatch.opt_get err "resets_at") then
      match ToNumber (Dispatch.opt_get err "resets_at") with
      | Some (Some at_) => match Dispatch.time_clip (at_ * 1000) with
                           | Some t => if (0 <? t - now)%Z then Some (t - now)%Z else None
                           | None => None
                           end
      | _ => None
      end
    else None) = None).
    { destruct (JS.truthy_opt (Dispatch.opt_get err "resets_at")) eqn:Et; [|reflexivity].
      destruct (ToNumber (Dispatch.opt_get err "resets_at")) as [[a|]|] eqn:Ea; try reflexivity.
      destruct (Dispatch.time_clip (a * 1000)) as [t|] eqn:Ec; [|reflexivity].
      replace (0 <? t - now)%Z with false
        by (symmetry; apply Z.ltb_ge; pose proof (Hr a t eq_refl eq_refl Ec); lia).
      reflexivity. }
    rewrite Hres.
    destruct (ToNumber (Dispatch.opt_get err "resets_in_seconds")) as [[k|]|] eqn:Ek;
      [|reflexivity|congruence].
    replace (0 <? k)%Z with false by (symmetry; apply Z.ltb_ge; apply Hs; reflexivity).
    reflexivity.
Qed.

End DispatchProofs.

Lemma no_account_wait_witness :
  Dispatch.loop (fun _ => None) (fun _ => None) 60000
    [Dispatch.RNoAccount 120000] 0 3 =
  ([], Dispatch.Thrown (Dispatch.ResourceExhausted 2)).
Proof.
  exact (proj1 (no_account_wait (fun _ => None) (fun _ => None) 60000
                  [] 0 3 120000 ltac:(lia) ltac:(lia)) ltac:(lia)).
Defined.

(** C5 counterexample: a 429 without [Retry-After] whose body is
    [{resets_in_seconds: 30}], with no [error] field. The claim would use the
    default cooldown (60 s here); the code reads the top-level field through
    [body?.error || body] and marks the account for 30 s. *)
Lemma rate_limit_top_level_body :
  Dispatch.loop (fun _ => None)
    (fun _ => Some (JS.JObj [("resets_in_seconds", JS.JNum 30)])) 60000
    [Dispatch.RAccount "a" (Dispatch.HttpError 429 None "body" 0)] 0 3 =
  ([Dispatch.Fetch "a"; Dispatch.MarkRateLimited "a" 30000],
   Dispatch.Thrown Dispatch.EnvironmentExhausted).
Proof. vm_compute. reflexivity. Qed.

Lemma rate_limit_cooldown_witness :
  Dispatch.retryMs (fun s => if String.eqb s "42" then Some 42%Z else None)
    (fun _ => None) 60000 (Some "42") "" 0 = 42000%Z.
Proof.
  exact (proj1 (proj2 (rate_limit_cooldown
           (fun s => if String.eqb s "42" then Some 42%Z else None)
           (fun _ => None) 60000
           "a" (Some "42") "" 0 [] 0 3 ltac:(lia))) 42%Z eq_refl ltac:(lia)).
Defined.

(** ** The Cursor account pool *)

Lemma nth_error_update_nth (n m : nat) (f : Pool.account -> Pool.account) (l : list Pool.account) :
  nth_error (Pool.update_nth n f l) m =
  if Nat.eqb n m then option_map f (nth_error l m) else nth_error l m.
Proof.
  revert n m. induction l as [|a l IH]; intros [|n] [|m]; simpl; try reflexivity.
  - destruct (Nat.eqb n m); reflexivity.
  - apply IH.
Qed.

Lemma find_index_some (p : Pool.account -> bool) (l : list Pool.account) (j : nat) :
  Pool.find_index p l = Some j -> exists a, nth_error l j = Some a /\ p a = true.
Proof.
  revert j. induction l as [|a l IH]; intros j H; simpl in H; [discriminate|].
  destruct (p a) eqn:Hp.
  - inversion H; subst. exists a. auto.
  - destruct (Pool.find_index p l) as [j'|] eqn:E; simpl in H; [|discriminate].
    inversion H; subst. destruct (IH j' eq_refl) as [b [Hb Hpb]]. exists b. auto.
Qed.

Lemma latched_update (j n : nat) (f : Pool.account -> Pool.account) (st : Pool.state) :
  (forall a, Pool.isInvalid a = true -> Pool.isInvalid (f a) = true) ->
  latched j st -> latched j (Pool.with_accounts st (Pool.update_nth n f (Pool.accounts st))).
Proof.
  intros Hf [Hi [a [Ha Hinv]]]. split; [exact Hi|].
  simpl. rewrite nth_error_update_nth, Ha.
  destruct (Nat.eqb n j); simpl; eexists; split; eauto.
Qed.

Lemma account_at_nth (st : Pool.state) (idx : Pool.num) (j : nat) (acc : Pool.account) :
  Pool.account_at st idx = Some (j, acc) -> nth_error (Pool.accounts st) j = Some acc.
Proof.
  unfold Pool.account_at. destruct (Pool.array_index idx) as [k|]; [|discriminate].
  destruct (nth_error (Pool.accounts st) k) eqn:E; intros H; inversion H; subst; exact E.
Qed.

(** *** Whole numbers below [2^53] in double arithmetic *)

Lemma scale_pos : (0 < Pool.scale)%Z.
Proof. unfold Pool.scale. apply Z.pow_pos_nonneg; lia. Qed.

Lemma round_whole (k : Z) : (Z.abs k < 2 ^ 53)%Z -> Pool.round (k * Pool.scale) = Pool.of_int k.
Proof.
  intros Hk. pose proof scale_pos as Hsc0. unfold Pool.round, Pool.of_int.
  destruct (Z.log2 (Z.abs (k * Pool.scale)) - 52 <=? 0)%Z eqn:E; [reflexivity|].
  apply Z.leb_gt in E.
  assert (Hn : (0 < Z.abs (k * Pool.scale) < 2 ^ 1127)%Z).
  { destruct (Z.eq_dec k 0) as [->|Hk0]; [rewrite Z.mul_0_l in E; simpl in E; lia|].
    rewrite Z.abs_mul, (Z.abs_eq Pool.scale) by lia. split; [nia|].
    replace (2 ^ 1127)%Z with (2 ^ 53 * Pool.scale)%Z
      by (unfold Pool.scale; rewrite <- Z.pow_add_r by lia; reflexivity).
    apply Z.mul_lt_mono_pos_r; lia. }
  pose proof (proj1 (Z.log2_lt_pow2 _ 1127 (proj1 Hn)) (proj2 Hn)) as Hlog.
  set (s := (Z.log2 (Z.abs (k * Pool.scale)) - 52)%Z) in *.
  assert (Hs : Pool.scale = (2 ^ (1074 - s) * 2 ^ s)%Z)
    by (unfold Pool.scale; rewrite <- Z.pow_add_r by lia; f_equal; lia).
  assert (Hp : (0 < 2 ^ s)%Z) by (apply Z.pow_pos_nonneg; lia).
  assert (Hmod : ((k * Pool.scale) mod 2 ^ s = 0)%Z)
    by (rewrite Hs, Z.mul_assoc; apply Z.mod_mul; lia).
  rewrite Hmod.
  replace (2 * 0 <? 2 ^ s)%Z with true by (symmetry; apply Z.ltb_lt; lia).
  rewrite (Z.mul_comm (k * Pool.scale / 2 ^ s) (2 ^ s)),
    <- (proj2 (Z.div_exact (k * Pool.scale) (2 ^ s) ltac:(lia)) Hmod).
  replace (2 ^ (1024 + 1074) <=? Z.abs (k * Pool.scale))%Z with false; [reflexivity|].
  symmetry. apply Z.leb_gt.
  assert (H2 : (2 ^ 1127 < 2 ^ (1024 + 1074))%Z) by (apply Z.pow_lt_mono_r; lia). lia.
Qed.

Lemma add_whole (a b : Z) :
  (Z.abs (a + b) < 2 ^ 53)%Z -> Pool.add (Pool.of_int a) (Pool.of_int b) = Pool.of_int (a + b).
Proof.
  intros H. unfold Pool.add, Pool.of_int at 1 2. rewrite <- Z.mul_add_distr_r.
  apply round_whole. exact H.
Qed.

Lemma rem_whole (a t : Z) : (0 < t)%Z -> Pool.rem_int (Pool.of_int a) t = Pool.of_int (Z.rem a t).
Proof.
  intros Ht. pose proof scale_pos. unfold Pool.rem_int, Pool.of_int.
  rewrite Z.mul_rem_distr_r by lia. reflexivity.
Qed.

Lemma array_index_whole (z : Z) : (0 <= z)%Z -> Pool.array_index (Pool.of_int z) = Some (Z.to_nat z).
Proof.
  intros Hz. pose proof scale_pos. unfold Pool.array_index, Pool.of_int.
  rewrite Z.mod_mul, Z.div_mul by lia.
  replace (0 <=? z * Pool.scale)%Z with true by (symmetry; apply Z.leb_le; nia).
  reflexivity.
Qed.

Lemma account_at_whole (st : Pool.state) (z : Z) :
  (0 <= z < Z.of_nat (List.length (Pool.accounts st)))%Z ->
  exists acc, Pool.account_at st (Pool.of_int z) = Some (Z.to_nat z, acc) /\
              nth_error (Pool.accounts st) (Z.to_nat z) = Some acc.
Proof.
  intros H. unfold Pool.account_at. rewrite array_index_whole by lia.
  destruct (nth_error_lt (Pool.accounts st) (Z.to_nat z)) as [a Ha]; [lia|].
  rewrite Ha. exists a. auto.
Qed.

Lemma length_update_nth (n : nat) (f : Pool.account -> Pool.account) (l : list Pool.account) :
  List.length (Pool.update_nth n f l) = List.length l.
Proof. revert n. induction l as [|x l IH]; intros [|n]; simpl; auto. Qed.

(** The loop of [selectAccount] from round [i] on, for a whole
    [activeIndex = a] with [a + total < 2^53]: every index it computes is
    the exact [(a + i) % total]. Either no account it visits is available
    and it ends with nothing, or it returns the first available one. *)
Lemma scan_spec (n : nat) (i now a : Z) (st : Pool.state) :
  let total := Z.of_nat (List.length (Pool.accounts st)) in
  let at_ k := Z.rem (a + (i + Z.of_nat k)) total in
  Pool.activeIndex st = Pool.of_int a ->
  (0 < total)%Z -> (0 <= a)%Z -> (a + total < 2 ^ 53)%Z -> (0 <= i)%Z ->
  (i + Z.of_nat n <= total)%Z ->
  (Pool.scan n i total now st = Some (None, st) /\
   forall k, (k < n)%nat -> exists b,
     nth_error (Pool.accounts st) (Z.to_nat (at_ k)) = Some b /\ Pool.available now b = false) \/
  (exists k b, (k < n)%nat /\
     (forall k', (k' < k)%nat -> exists c,
        nth_error (Pool.accounts st) (Z.to_nat (at_ k')) = Some c /\ Pool.available now c = false) /\
     nth_error (Pool.accounts st) (Z.to_nat (at_ k)) = Some b /\ Pool.available now b = true /\
     Pool.scan n i total now st =
       Some (Some (Z.to_nat (at_ k)),
             Pool.mkState (Pool.update_nth (Z.to_nat (at_ k)) (touched now) (Pool.accounts st))
                          (Pool.of_int (Z.rem (at_ k + 1) total)) (Pool.initialized st))).
Proof.
  intros total at_ Hai Ht Ha Hbig. unfold at_; clear at_. revert i.
  induction n as [|n IH]; intros i Hi Hn.
  - left. split; [reflexivity|]. intros k Hk. lia.
  - assert (Hr : (0 <= Z.rem (a + i) total < total)%Z)
      by (apply Z.rem_bound_pos; lia).
    assert (Hidx : Pool.rem_int (Pool.add (Pool.activeIndex st) (Pool.of_int i)) total =
                   Pool.of_int (Z.rem (a + i) total)).
    { rewrite Hai, add_whole by lia. apply rem_whole. exact Ht. }
    destruct (account_at_whole st _ Hr) as [acc [Hacc Hnth]].
    assert (H0 : Z.rem (a + (i + Z.of_nat 0)) total = Z.rem (a + i) total)
      by (f_equal; lia).
    assert (HS : forall k, Z.rem (a + (i + Z.of_nat (S k))) total = Z.rem (a + ((i + 1) + Z.of_nat k)) total)
      by (intro k; f_equal; lia).
    cbn [Pool.scan]. rewrite Hidx, Hacc.
    destruct (Pool.available now acc) eqn:Hav.
    + unfold Pool.available in Hav.
      apply andb_true_iff in Hav as [Hav Hc]. apply andb_true_iff in Hav as [He Hi'].
      apply negb_true_iff in Hi'. apply negb_true_iff in Hc.
      rewrite He, Hi', Hc. cbn [negb orb].
      right. exists 0%nat, acc. rewrite H0.
      split; [lia|]. split; [intros k' Hk'; lia|]. split; [exact Hnth|].
      split; [unfold Pool.available; rewrite He, Hi', Hc; reflexivity|].
      rewrite add_whole by lia. rewrite rem_whole by exact Ht. reflexivity.
    + assert (Hskip : (if negb (Pool.enabled acc) || Pool.isInvalid acc
                       then Pool.scan n (i + 1) total now st
                       else if Pool.cooling now acc then Pool.scan n (i + 1) total now st
                       else Some (Some (Z.to_nat (Z.rem (a + i) total)),
                                  Pool.mkState (Pool.update_nth (Z.to_nat (Z.rem (a + i) total))
                                    (fun a0 => Pool.mkAccount (Pool.id a0) (Pool.email a0) (Pool.enabled a0)
                                                 (Pool.isInvalid a0) (Pool.invalidReason a0)
                                                 (Pool.cooldownUntil a0) (Some now)) (Pool.accounts st))
                                    (Pool.rem_int (Pool.add (Pool.of_int (Z.rem (a + i) total)) (Pool.of_int 1)) total)
                                    (Pool.initialized st))) =
                      Pool.scan n (i + 1) total now st).
      { unfold Pool.available in Hav.
        destruct (Pool.enabled acc), (Pool.isInvalid acc); cbn [negb orb andb] in *; try reflexivity.
        rewrite negb_false_iff in Hav. rewrite Hav. reflexivity. }
      rewrite Hskip.
      destruct (IH (i + 1)%Z ltac:(lia) ltac:(lia)) as [[Hs Hall] | [k [b [Hk [Hbefore [Hat [Hava Hs]]]]]]].
      * left. split; [exact Hs|]. intros [|k] Hk.
        -- exists acc. rewrite H0. auto.
        -- rewrite HS. apply Hall. lia.
      * right. exists (S k), b. rewrite HS. repeat split; try assumption; try lia.
        intros [|k'] Hk'.
        -- exists acc. rewrite H0. auto.
        -- rewrite HS. apply Hbefore. lia.
Qed.

Lemma scan_none (n : nat) (i total now : Z) (st st' : Pool.state) :
  Pool.scan n i total now st = Some (None, st') -> st' = st.
Proof.
  revert i. induction n as [|n IH]; intros i H; simpl in H.
  - inversion H; auto.
  - destruct (Pool.account_at st _) as [[k acc]|]; [|discriminate].
    destruct (negb (Pool.enabled acc) || Pool.isInvalid acc); [eapply IH; eauto|].
    destruct (Pool.cooling now acc); [eapply IH; eauto|discriminate].
Qed.

Lemma scan_some (n : nat) (i total now : Z) (st st' : Pool.state) (j : nat) :
  Pool.scan n i total now st = Some (Some j, st') ->
  exists a, nth_error (Pool.accounts st) j = Some a /\ Pool.enabled a = true /\
    Pool.isInvalid a = false /\ Pool.cooling now a = false /\
    exists f, st' = Pool.mkState (Pool.update_nth j f (Pool.accounts st)) (Pool.activeIndex st')
                                 (Pool.initialized st) /\
              (forall b, Pool.isInvalid (f b) = Pool.isInvalid b).
Proof.
  revert i. induction n as [|n IH]; intros i H; simpl in H; [discriminate|].
  destruct (Pool.account_at st _) as [[k acc]|] eqn:Hat; [|discriminate].
  destruct (negb (Pool.enabled acc) || Pool.isInvalid acc) eqn:Hok; [eapply IH; eauto|].
  destruct (Pool.cooling now acc) eqn:Hc; [eapply IH; eauto|].
  inversion H; subst. apply account_at_nth in Hat.
  apply orb_false_iff in Hok as [He Hi]. apply negb_false_iff in He.
  exists acc. repeat split; auto.
  eexists. split; [reflexivity|]. reflexivity.
Qed.

Lemma select_keeps_latch (now : Z) (st st' : Pool.state) (sel : option nat) (w : Z) (j : nat) :
  latched j st -> Pool.selectAccount now st = Some ((sel, w), st') ->
  sel <> Some j /\ latched j st'.
Proof.
  intros Hl H. unfold Pool.selectAccount in H.
  destruct (Z.of_nat (List.length (Pool.accounts st)) =? 0)%Z.
  { inversion H; subst. split; [discriminate|exact Hl]. }
  destruct (Pool.scan _ _ _ _ _) as [[[j'|] st1]|] eqn:E; inversion H; subst.
  - destruct (scan_some _ _ _ _ _ _ _ E) as [a [Ha [_ [Hi [_ [f [Hst Hf]]]]]]].
    destruct Hl as [Hin [b [Hb Hbi]]]. split.
    + intro Heq. inversion Heq; subst. congruence.
    + rewrite Hst. split; [exact Hin|]. simpl. rewrite nth_error_update_nth, Hb.
      destruct (Nat.eqb j' j); simpl; eexists; split; eauto; rewrite Hf; exact Hbi.
  - apply scan_none in E. subst. split; [discriminate|exact Hl].
Qed.

Lemma step_keeps_latch (o : Pool.op) (st st' : Pool.state) (sel : option nat) (j : nat) :
  latched j st ->
  (forall acc, o = Pool.OpAdd acc -> Pool.add_index acc (Pool.accounts st) <> Some j) ->
  Pool.step o st = Some (sel, st') -> sel <> Some j /\ latched j st'.
Proof.
  intros Hl Hadd H. destruct o as [config|acc|now|k now w|k reason]; simpl in H.
  - inversion H; subst. split; [discriminate|].
    unfold Pool.initialize. destruct Hl as [Hin Hex]. rewrite Hin. split; auto.
  - inversion H; subst. split; [discriminate|]. unfold Pool.addAccount.
    specialize (Hadd acc eq_refl).
    destruct (Pool.add_index acc (Pool.accounts st)) as [j'|] eqn:E.
    + destruct Hl as [Hin [a [Ha Hai]]]. split; [exact Hin|]. simpl.
      rewrite nth_error_update_nth, Ha.
      destruct (Nat.eqb j' j) eqn:Ej; [apply Nat.eqb_eq in Ej; subst; congruence|].
      eexists; split; eauto.
    + destruct Hl as [Hin [a [Ha Hai]]]. split; [exact Hin|]. simpl.
      rewrite nth_error_app1; [eexists; split; eauto|].
      apply nth_error_Some. congruence.
  - destruct (Pool.selectAccount now st) as [[[s w] st1]|] eqn:E; [|discriminate].
    inversion H; subst. eapply select_keeps_latch; eauto.
  - inversion H; subst. split; [discriminate|]. unfold Pool.markRateLimited.
    destruct (Pool.find_index _ _); [|exact Hl].
    apply latched_update; auto.
  - inversion H; subst. split; [discriminate|]. unfold Pool.markInvalid.
    destruct (Pool.find_index _ _); [|exact Hl].
    apply latched_update; auto.
Qed.

Lemma run_keeps_latch (ops : list Pool.op) (st st' : Pool.state) (sels : list (option nat)) (j : nat) :
  latched j st -> latch_kept j ops st -> Pool.run ops st = Some (sels, st') ->
  ~ In (Some j) sels /\ latched j st'.
Proof.
  revert st sels. induction ops as [|o ops IH]; intros st sels Hl Hk H; simpl in H.
  - inversion H; subst. split; [intro C; exact C|exact Hl].
  - simpl in Hk. destruct Hk as [Hadd Hk].
    destruct (Pool.step o st) as [[sel st1]|] eqn:E; [|discriminate].
    destruct (Pool.run ops st1) as [[sels1 st2]|] eqn:E2; [|discriminate].
    inversion H; subst.
    destruct (step_keeps_latch _ _ _ _ _ Hl Hadd E) as [Hne Hl1].
    destruct (IH _ _ Hl1 Hk E2) as [Hnin Hl2].
    split; [|exact Hl2]. intros [C|C]; [congruence|contradiction].
Qed.

Lemma markInvalid_at (k : string) (reason : option string) (st : Pool.state) (j : nat) :
  Pool.find_index (Pool.matches k) (Pool.accounts st) = Some j ->
  Pool.markInvalid k reason st =
  Pool.with_accounts st (Pool.update_nth j (fun a =>
      Pool.mkAccount (Pool.id a) (Pool.email a) (Pool.enabled a) true
        (Some (match truthy_str reason with Some r => r | None => "invalid" end))
        (Pool.cooldownUntil a) (Pool.lastUsed a)) (Pool.accounts st)).
Proof.
  intros Hf. unfold Pool.markInvalid. rewrite Hf. destruct (truthy_str reason); reflexivity.
Qed.

Lemma find_index_first (p : Pool.account -> bool) (l : list Pool.account) (j : nat) :
  Pool.find_index p l = Some j ->
  exists a, nth_error l j = Some a /\ p a = true /\
    (forall m, (m < j)%nat -> forall b, nth_error l m = Some b -> p b = false).
Proof.
  revert j. induction l as [|x l IH]; intros j H; simpl in H; [discriminate|].
  destruct (p x) eqn:Hp.
  - inversion H; subst. exists x. split; [reflexivity|]. split; [exact Hp|]. intros m Hm; lia.
  - destruct (Pool.find_index p l) as [j'|] eqn:E; simpl in H; [|discriminate].
    inversion H; subst. destruct (IH j' eq_refl) as [a [Ha [Hpa Hb]]].
    exists a. split; [exact Ha|]. split; [exact Hpa|].
    intros [|m] Hm b Hnb; simpl in Hnb.
    + inversion Hnb; subst. exact Hp.
    + apply (Hb m ltac:(lia) b Hnb).
Qed.

(** C6, as the code has it. An account [selectAccount] returns is enabled,
    not flagged invalid, and not cooling at [now]. [markInvalid(k, reason)]
    does nothing when no account's id or email is [k]; otherwise it flags
    the first such account in pool order (reason [reason], or "invalid" for
    a falsy one) and leaves every other account as it was, so a later
    account whose id is [k] stays unflagged and is still returned when the
    rotation reaches it while it is available. Once the pool is loaded, the
    flagged account is never returned again by [selectAccount] in any later
    sequence of calls in which no [addAccount] finds it; an [addAccount]
    that finds it clears the flag. *)
Theorem pool_selection_latch :
  (forall (now : Z) (st st' : Pool.state) (j : nat) (w : Z),
     Pool.selectAccount now st = Some ((Some j, w), st') ->
     exists a, nth_error (Pool.accounts st) j = Some a /\ Pool.enabled a = true /\
       Pool.isInvalid a = false /\
       (forall t, Pool.cooldownUntil a = Some t -> (t <= now)%Z)) /\
  (forall (st st' : Pool.state) (k : string) (reason : option string) (j : nat)
          (ops : list Pool.op) (sels : list (option nat)),
     Pool.initialized st = true ->
     Pool.find_index (Pool.matches k) (Pool.accounts st) = Some j ->
     latch_kept j ops (Pool.markInvalid k reason st) ->
     Pool.run (Pool.OpInvalid k reason :: ops) st = Some (sels, st') ->
     ~ In (Some j) sels /\ latched j st') /\
  (forall (st : Pool.state) (k : string) (reason : option string),
     Pool.find_index (Pool.matches k) (Pool.accounts st) = None ->
     Pool.markInvalid k reason st = st) /\
  (forall (st : Pool.state) (k : string) (reason : option string) (j : nat),
     Pool.find_index (Pool.matches k) (Pool.accounts st) = Some j ->
     (exists a, nth_error (Pool.accounts st) j = Some a /\ Pool.matches k a = true /\
        (forall m, (m < j)%nat -> forall b, nth_error (Pool.accounts st) m = Some b ->
                   Pool.matches k b = false) /\
        nth_error (Pool.accounts (Pool.markInvalid k reason st)) j =
          Some (Pool.mkAccount (Pool.id a) (Pool.email a) (Pool.enabled a) true
                  (Some (match truthy_str reason with Some r => r | None => "invalid" end))
                  (Pool.cooldownUntil a) (Pool.lastUsed a))) /\
     (forall m, m <> j ->
        nth_error (Pool.accounts (Pool.markInvalid k reason st)) m = nth_error (Pool.accounts st) m) /\
     Pool.activeIndex (Pool.markInvalid k reason st) = Pool.activeIndex st) /\
  (forall (st : Pool.state) (k : string) (reason : option string) (j m : nat)
          (b : Pool.account) (now : Z),
     Pool.find_index (Pool.matches k) (Pool.accounts st) = Some j -> m <> j ->
     nth_error (Pool.accounts st) m = Some b -> Pool.available now b = true ->
     Pool.activeIndex st = Pool.of_int (Z.of_nat m) ->
     (Z.of_nat (List.length (Pool.accounts st)) <= 2 ^ 32)%Z ->
     exists st', Pool.selectAccount now (Pool.markInvalid k reason st) = Some ((Some m, 0%Z), st')) /\
  (forall (st : Pool.state) (acc : Pool.account) (j : nat),
     Pool.add_index acc (Pool.accounts st) = Some j ->
     exists a, nth_error (Pool.accounts (Pool.addAccount acc st)) j = Some a /\
       Pool.enabled a = true /\ Pool.isInvalid a = false).
Proof.
  split; [|split; [|split; [|split; [|split]]]].
  - intros now st st' j w H. unfold Pool.selectAccount in H.
    destruct (Z.of_nat (List.length (Pool.accounts st)) =? 0)%Z; [discriminate|].
    destruct (Pool.scan _ _ _ _ _) as [[[j'|] st1]|] eqn:E; inversion H; subst.
    destruct (scan_some _ _ _ _ _ _ _ E) as [a [Ha [He [Hi [Hc _]]]]].
    exists a. repeat split; auto.
    intros t Ht. unfold Pool.cooling in Hc. rewrite Ht in Hc.
    apply Z.ltb_ge in Hc. exact Hc.
  - intros st st' k reason j ops sels Hin Hf Hk H.
    assert (Hl : latched j (Pool.markInvalid k reason st)).
    { unfold Pool.markInvalid. rewrite Hf. split; [exact Hin|]. simpl.
      destruct (find_index_some _ _ _ Hf) as [a [Ha _]].
      rewrite nth_error_update_nth, Ha, Nat.eqb_refl. simpl.
      eexists; split; reflexivity. }
    simpl in H.
    destruct (Pool.run ops (Pool.markInvalid k reason st)) as [[sels1 st2]|] eqn:E;
      [|discriminate].
    inversion H; subst.
    destruct (run_keeps_latch _ _ _ _ _ Hl Hk E) as [Hn Hl2].
    split; [|exact Hl2]. intros [C|C]; [discriminate|contradiction].
  - intros st k reason Hf. unfold Pool.markInvalid. rewrite Hf. reflexivity.
  - intros st k reason j Hf. rewrite (markInvalid_at _ _ _ _ Hf). cbn [Pool.accounts Pool.with_accounts Pool.activeIndex].
    split; [|split; [|reflexivity]].
    + destruct (find_index_first _ _ _ Hf) as [a [Ha [Hm Hbefore]]].
      exists a. split; [exact Ha|]. split; [exact Hm|]. split; [exact Hbefore|].
      rewrite nth_error_update_nth, Nat.eqb_refl, Ha. reflexivity.
    + intros m Hm. rewrite nth_error_update_nth.
      destruct (Nat.eqb j m) eqn:E; [apply Nat.eqb_eq in E; congruence|reflexivity].
  - intros st k reason j m b now Hf Hmj Hb Hav Hai Hlen.
    set (st1 := Pool.markInvalid k reason st).
    assert (Hb1 : nth_error (Pool.accounts st1) m = Some b).
    { unfold st1. rewrite (markInvalid_at _ _ _ _ Hf). cbn [Pool.accounts Pool.with_accounts].
      rewrite nth_error_update_nth. destruct (Nat.eqb j m) eqn:E; [apply Nat.eqb_eq in E; congruence|exact Hb]. }
    assert (Hl1 : List.length (Pool.accounts st1) = List.length (Pool.accounts st)).
    { unfold st1. rewrite (markInvalid_at _ _ _ _ Hf). apply length_update_nth. }
    assert (Hai1 : Pool.activeIndex st1 = Pool.of_int (Z.of_nat m)).
    { unfold st1. rewrite (markInvalid_at _ _ _ _ Hf). exact Hai. }
    assert (Hm : (m < List.length (Pool.accounts st1))%nat) by (apply nth_error_Some; congruence).
    unfold Pool.selectAccount.
    destruct (Z.of_nat (List.length (Pool.accounts st1)) =? 0)%Z eqn:E0; [apply Z.eqb_eq in E0; lia|].
    assert (Hat0 : forall k', Z.rem (Z.of_nat m + (0 + Z.of_nat k')) (Z.of_nat (List.length (Pool.accounts st1))) = Z.of_nat m ->
                   Z.to_nat (Z.rem (Z.of_nat m + (0 + Z.of_nat k')) (Z.of_nat (List.length (Pool.accounts st1)))) = m)
      by (intros k' ->; lia).
    assert (Hr0 : Z.rem (Z.of_nat m + (0 + Z.of_nat 0)) (Z.of_nat (List.length (Pool.accounts st1))) = Z.of_nat m)
      by (rewrite Z.rem_small; lia).
    destruct (scan_spec (List.length (Pool.accounts st1)) 0 now (Z.of_nat m) st1 Hai1 ltac:(lia) ltac:(lia) ltac:(lia) ltac:(lia) ltac:(lia))
      as [[Hs Hall] | [k' [c [Hk [Hbefore [Hc [Hcav Hs]]]]]]].
    + destruct (Hall 0%nat ltac:(lia)) as [c [Hc Hcav]].
      rewrite (Hat0 0%nat Hr0), Hb1 in Hc. inversion Hc; subst. congruence.
    + destruct k' as [|k'].
      * rewrite Hs, (Hat0 0%nat Hr0). eexists. reflexivity.
      * destruct (Hbefore 0%nat ltac:(lia)) as [c' [Hc' Hc'av]].
        rewrite (Hat0 0%nat Hr0), Hb1 in Hc'. inversion Hc'; subst. congruence.
  - intros st acc j Hj. unfold Pool.addAccount. rewrite Hj. cbn [Pool.accounts Pool.with_accounts].
    destruct (find_index_some _ _ _ Hj) as [a [Ha _]].
    rewrite nth_error_update_nth, Nat.eqb_refl, Ha. eexists. split; [reflexivity|]. split; reflexivity.
Qed.

(** C6 counterexample: after [markInvalid("b")] the account whose id is [b]
    is still returned by [selectAccount]: the lookup matched the first
    account, whose email is [b]. *)
Lemma mark_invalid_email_collision :
  match Pool.run [Pool.OpInitialize (Some (pool_collision_config, Pool.NFin 0));
                  Pool.OpInvalid "b" None; Pool.OpSelect 0] Pool.empty with
  | Some (sels, st) =>
      sels = [None; None; Some 1%nat] /\
      option_map Pool.id (nth_error (Pool.accounts st) 1) = Some "b"
  | None => False
  end.
Proof. vm_compute. split; reflexivity. Qed.

Lemma pool_selection_latch_witness :
  match Pool.run [Pool.OpInvalid "b" None; Pool.OpSelect 0]
          (Pool.initialize (Some (pool_collision_config, Pool.NFin 0)) Pool.empty) with
  | Some (sels, _) => ~ In (Some 0%nat) sels
  | None => False
  end /\
  exists st',
    Pool.selectAccount 0
      (Pool.markInvalid "b" None
         (Pool.mkState (map Pool.of_raw pool_collision_config) (Pool.of_int 1) true)) =
    Some ((Some 1%nat, 0%Z), st').
Proof.
  split.
  - destruct (Pool.run [Pool.OpInvalid "b" None; Pool.OpSelect 0]
                (Pool.initialize (Some (pool_collision_config, Pool.NFin 0)) Pool.empty))
      as [[sels st']|] eqn:E; [|vm_compute in E; discriminate E].
    refine (proj1 (proj1 (proj2 pool_selection_latch)
                     (Pool.initialize (Some (pool_collision_config, Pool.NFin 0)) Pool.empty) st' "b" None 0%nat
                     [Pool.OpSelect 0] sels ltac:(vm_compute; reflexivity) ltac:(vm_compute; reflexivity) _ E)).
    vm_compute. split; [intros acc C; discriminate C|exact I].
  - apply (proj1 (proj2 (proj2 (proj2 (proj2 pool_selection_latch))))
             (Pool.mkState (map Pool.of_raw pool_collision_config) (Pool.of_int 1) true)
             "b" None 0%nat 1%nat
             (Pool.of_raw (Pool.mkRaw (Some "b") None true false None None None "")) 0%Z);
      [vm_compute; reflexivity|discriminate|reflexivity|vm_compute; reflexivity|reflexivity|simpl; lia].
Defined.

(** ** Web search in the Codex request *)

Lemma assoc_get_set_same (fs : list (string * JS.jv)) (k : string) (v : JS.jv) :
  JS.assoc_get (JS.assoc_set fs k v) k = Some v.
Proof.
  induction fs as [|[k' v'] fs IH]; simpl.
  - rewrite String.eqb_refl. reflexivity.
  - destruct (String.eqb k k') eqn:E; simpl.
    + rewrite E. reflexivity.
    + rewrite E. exact IH.
Qed.

Lemma assoc_get_set_other (fs : list (string * JS.jv)) (k k2 : string) (v : JS.jv) :
  k2 <> k -> JS.assoc_get (JS.assoc_set fs k v) k2 = JS.assoc_get fs k2.
Proof.
  intro Hne. induction fs as [|[k' v'] fs IH]; simpl.
  - destruct (String.eqb k2 k) eqn:E; [apply String.eqb_eq in E; congruence|reflexivity].
  - destruct (String.eqb k k') eqn:E; simpl.
    + apply String.eqb_eq in E. subst k'.
      destruct (String.eqb k2 k) eqn:E2; [apply String.eqb_eq in E2; congruence|reflexivity].
    + destruct (String.eqb k2 k'); [reflexivity|exact IH].
Qed.

Lemma is_str_excl (v : option JS.jv) (a b : string) :
  Schema.is_str v a = true -> Schema.is_str v b = true -> a = b.
Proof.
  unfold Schema.is_str. destruct v as [[]|]; try discriminate.
  intros Ha Hb. apply String.eqb_eq in Ha, Hb. congruence.
Qed.

Section WebSearchProofs.

Variable JSON_stringify : JS.jv -> string.
Variable random_hex : nat -> string.

Lemma emit_block_ws (ids : list (option JS.jv)) (b : JS.jv) (n : nat) :
  is_ws_block ids b = true -> Request.emit_block JSON_stringify random_hex ids b n = Some ([], n).
Proof.
  unfold is_ws_block, Request.emit_block. intro H.
  destruct (JS.truthy b); [|reflexivity]. simpl in *.
  destruct (Schema.is_str (JS.get b "type") "tool_use") eqn:Tu; simpl in H.
  - destruct (Request.ws_name (JS.get b "name")); [reflexivity|].
    simpl in H. apply andb_true_iff in H as [H _].
    pose proof (is_str_excl _ _ _ Tu H). discriminate.
  - destruct (Schema.is_str (JS.get b "type") "tool_result"); [|discriminate].
    simpl in H. rewrite H. reflexivity.
Qed.

Lemma emit_block_kept (ids : list (option JS.jv)) (b : JS.jv) (n : nat) :
  is_ws_block ids b = false ->
  Request.emit_block JSON_stringify random_hex ids b n =
  Request.emit_block JSON_stringify random_hex [] b n.
Proof.
  unfold is_ws_block, Request.emit_block. intro H.
  destruct (JS.truthy b); [|reflexivity]. simpl in *.
  destruct (Schema.is_str (JS.get b "type") "tool_use") eqn:Tu; [reflexivity|].
  destruct (Schema.is_str (JS.get b "type") "tool_result"); [|reflexivity].
  simpl in H. rewrite H. reflexivity.
Qed.

Lemma emit_blocks_strip (ids : list (option JS.jv)) (bs : list JS.jv) (n : nat) :
  Request.emit_blocks JSON_stringify random_hex ids bs n =
  Request.emit_blocks JSON_stringify random_hex [] (filter (fun b => negb (is_ws_block ids b)) bs) n.
Proof.
  revert n. induction bs as [|b bs IH]; intro n; simpl; [reflexivity|].
  destruct (is_ws_block ids b) eqn:Hw; simpl.
  - rewrite emit_block_ws by exact Hw. rewrite IH. simpl.
    destruct (Request.emit_blocks _ _ [] _ n) as [[]|]; reflexivity.
  - rewrite emit_block_kept by exact Hw.
    destruct (Request.emit_block _ _ [] b n) as [[o1 n1]|]; [|reflexivity]. rewrite IH. reflexivity.
Qed.

Lemma emit_blocks_no_tool (bs : list JS.jv) (n : nat) :
  existsb Request.is_tool_block bs = false ->
  Request.emit_blocks JSON_stringify random_hex [] bs n = Some ([], n).
Proof.
  revert n. induction bs as [|b bs IH]; intros n H; simpl in *; [reflexivity|].
  apply orb_false_iff in H as [Hb Hbs].
  assert (E : Request.emit_block JSON_stringify random_hex [] b n = Some ([], n)).
  { unfold Request.is_tool_block in Hb. unfold Request.emit_block.
    destruct (JS.truthy b); [|reflexivity]. simpl in Hb.
    apply orb_false_iff in Hb as [H1 H2]. rewrite H1, H2. reflexivity. }
  rewrite E, IH by exact Hbs. reflexivity.
Qed.

Lemma text_parts_strip (ids : list (option JS.jv)) (ptype : string) (bs : list JS.jv) :
  Request.text_parts ptype (Some (JS.JArr (filter (fun b => negb (is_ws_block ids b)) bs))) =
  Request.text_parts ptype (Some (JS.JArr bs)).
Proof.
  simpl. induction bs as [|b bs IH]; simpl; [reflexivity|].
  destruct (is_ws_block ids b) eqn:Hw; simpl; [|rewrite IH; reflexivity].
  rewrite IH.
  assert (Ht : Schema.is_str (JS.get b "type") "text" = false).
  { unfold is_ws_block in Hw. apply andb_true_iff in Hw as [_ Hw].
    unfold Schema.is_str in *. destruct (JS.get b "type") as [[]|]; try reflexivity.
    apply orb_true_iff in Hw as [Hw|Hw]; apply andb_true_iff in Hw as [Hw _];
      apply String.eqb_eq in Hw; subst; reflexivity. }
  rewrite Ht, andb_false_r. reflexivity.
Qed.

Lemma existsb_filter_tool (p : JS.jv -> bool) (bs : list JS.jv) :
  existsb Request.is_tool_block (filter p bs) = true -> existsb Request.is_tool_block bs = true.
Proof.
  intro H. apply existsb_exists in H as [x [Hx Ht]]. apply filter_In in Hx as [Hx _].
  apply existsb_exists. eauto.
Qed.

Lemma emit_message_strip (ids : list (option JS.jv)) (m : JS.jv) (n : nat) :
  Request.emit_message JSON_stringify random_hex ids m n =
  Request.emit_message JSON_stringify random_hex [] (strip_ws ids m) n.
Proof.
  destruct m as [| | | | l |fs]; try (simpl; reflexivity).
  unfold strip_ws. destruct (JS.assoc_get fs "content") as [c|] eqn:Hc;
    [|unfold Request.emit_message; simpl JS.get; rewrite Hc; reflexivity].
  destruct c as [| | | |bs|];
    try (unfold Request.emit_message; simpl JS.get; rewrite Hc; reflexivity).
  unfold Request.emit_message. simpl JS.get.
  rewrite assoc_get_set_same, (assoc_get_set_other fs "content" "role") by discriminate.
  rewrite Hc, !text_parts_strip.
  destruct (existsb Request.is_tool_block (filter (fun b => negb (is_ws_block ids b)) bs)) eqn:Hf.
  - rewrite (existsb_filter_tool _ _ Hf). rewrite emit_blocks_strip. reflexivity.
  - destruct (existsb Request.is_tool_block bs); [|reflexivity].
    rewrite emit_blocks_strip, emit_blocks_no_tool by exact Hf. rewrite app_nil_r. reflexivity.
Qed.

Lemma emit_messages_strip (ids : list (option JS.jv)) (ms : list JS.jv) (n : nat) :
  Request.emit_messages JSON_stringify random_hex ids ms n =
  Request.emit_messages JSON_stringify random_hex [] (map (strip_ws ids) ms) n.
Proof.
  revert n. induction ms as [|m ms IH]; intro n; simpl; [reflexivity|].
  rewrite emit_message_strip.
  destruct (Request.emit_message _ _ [] (strip_ws ids m) n) as [[o1 n1]|]; [|reflexivity].
  rewrite IH. reflexivity.
Qed.

End WebSearchProofs.

Lemma prescan_strip (ids : list (option JS.jv)) (ms : list JS.jv) :
  Request.prescan (map (strip_ws ids) ms) = [].
Proof.
  induction ms as [|m ms IH]; simpl; [reflexivity|]. rewrite IH, app_nil_r.
  destruct m as [| | | | l |fs]; try reflexivity. simpl.
  destruct (JS.assoc_get fs "content") as [c|] eqn:Hc; [|simpl; rewrite Hc; reflexivity].
  destruct c as [| | | |bs|]; try (simpl; rewrite Hc; reflexivity).
  simpl. rewrite assoc_get_set_same. clear Hc.
  induction bs as [|b bs IHb]; simpl; [reflexivity|].
  destruct (is_ws_block ids b) eqn:Hw; simpl; [exact IHb|].
  rewrite IHb, app_nil_r.
  unfold is_ws_block in Hw.
  destruct (JS.truthy b); [|reflexivity]. simpl in *.
  destruct (Schema.is_str (JS.get b "type") "tool_use"); [|reflexivity].
  simpl in Hw. destruct (Request.ws_name (JS.get b "name")); [discriminate|reflexivity].
Qed.

Lemma existsb_null_strip (ids : list (option JS.jv)) (ms : list JS.jv) :
  existsb Request.is_null (map (strip_ws ids) ms) = existsb Request.is_null ms.
Proof.
  induction ms as [|m ms IH]; simpl; [reflexivity|]. rewrite IH. f_equal.
  destruct m as [| | | | l |fs]; try reflexivity. simpl.
  destruct (JS.assoc_get fs "content") as [[]|]; reflexivity.
Qed.

Lemma function_tools_names (ts : list JS.jv) (fts : list Request.tool) :
  Request.function_tools ts = Some fts ->
  Forall (fun t => Request.ws_name (JS.get t "name") = false) ts ->
  Forall (fun t => exists n d p, t = Request.FunctionTool n d p /\ Request.ws_name n = false) fts.
Proof.
  revert fts. induction ts as [|t ts IH]; intros fts H Hn; simpl in H.
  - inversion H. constructor.
  - destruct (Request.wire_parameters (Request.tool_rawSchema t)) as [p|]; [|discriminate].
    destruct (Request.function_tools ts) as [rest|]; [|discriminate].
    inversion H; subst. inversion Hn; subst.
    constructor; [do 3 eexists; split; [reflexivity|assumption]|].
    apply IH; auto.
Qed.

Lemma emit_block_names (JSON_stringify : JS.jv -> string) (random_hex : nat -> string)
    (ids : list (option JS.jv)) (b : JS.jv) (n : nat) r :
  Request.emit_block JSON_stringify random_hex ids b n = Some r -> Forall call_not_ws (fst r).
Proof.
  unfold Request.emit_block.
  destruct (JS.truthy b); [|intros E; injection E as <-; constructor]. simpl.
  destruct (Schema.is_str (JS.get b "type") "tool_use").
  - destruct (Request.ws_name (JS.get b "name")) eqn:Hw; [intros E; injection E as <-; constructor|].
    destruct (Request.or_random random_hex (JS.get b "id") n) as [cid n'].
    intros E; injection E as <-.
    constructor; [|constructor]. unfold call_not_ws, JS.js_or.
    destruct (JS.truthy_opt (JS.get b "name")); [|reflexivity].
    destruct (JS.get b "name") as [v|]; [exact Hw|reflexivity].
  - destruct (Schema.is_str (JS.get b "type") "tool_result"); [|intros E; injection E as <-; constructor].
    destruct (Request.set_has ids (JS.get b "tool_use_id")); [intros E; injection E as <-; constructor|].
    destruct (Request.or_random random_hex _ n) as [cid n'].
    destruct (Request.toolResultToOutput _ _); [|discriminate].
    intros E; injection E as <-. constructor; constructor.
Qed.

Lemma emit_blocks_names (JSON_stringify : JS.jv -> string) (random_hex : nat -> string)
    (ids : list (option JS.jv)) (bs : list JS.jv) (n : nat) r :
  Request.emit_blocks JSON_stringify random_hex ids bs n = Some r -> Forall call_not_ws (fst r).
Proof.
  revert n r. induction bs as [|b bs IH]; intros n r; simpl; [intros E; injection E as <-; constructor|].
  destruct (Request.emit_block _ _ ids b n) as [[o1 n1]|] eqn:Hb; [|discriminate].
  apply emit_block_names in Hb.
  destruct (Request.emit_blocks _ _ ids bs n1) as [[o2 n2]|] eqn:Hbs; [|discriminate].
  apply IH in Hbs. intros E; injection E as <-.
  simpl in *. apply Forall_app; auto.
Qed.

Lemma emit_messages_names (JSON_stringify : JS.jv -> string) (random_hex : nat -> string)
    (ids : list (option JS.jv)) (ms : list JS.jv) (n : nat) r :
  Request.emit_messages JSON_stringify random_hex ids ms n = Some r -> Forall call_not_ws (fst r).
Proof.
  revert n r. induction ms as [|m ms IH]; intros n r; simpl; [intros E; injection E as <-; constructor|].
  assert (Hm : forall r, Request.emit_message JSON_stringify random_hex ids m n = Some r ->
                         Forall call_not_ws (fst r)).
  { intros r0. unfold Request.emit_message.
    cbv zeta. destruct (JS.get m "content") as [[| | | |bs|]|].
    5: { destruct (existsb Request.is_tool_block bs).
         - destruct (Request.emit_blocks _ _ ids bs n) as [[o n']|] eqn:Hb; [|discriminate].
           apply emit_blocks_names in Hb. intros E; injection E as <-.
           cbn [fst] in *. apply Forall_app; split; [|exact Hb].
           destruct (_ || _); [msg_parts|constructor].
         - intros E; injection E as <-. cbn [fst]. destruct (_ || _); [try msg_parts; repeat constructor|constructor]. }
    all: intros E; injection E as <-; cbn [fst]; destruct (_ || _);
      [try destruct (_ =? _); try msg_parts; repeat constructor|constructor]. }
  destruct (Request.emit_message _ _ ids m n) as [[o1 n1]|] eqn:E1; [|discriminate].
  specialize (Hm _ eq_refl).
  destruct (Request.emit_messages _ _ ids ms n1) as [[o2 n2]|] eqn:E2; [|discriminate].
  apply IH in E2. intros E; injection E as <-.
  simpl in *. apply Forall_app; auto.
Qed.

(** C7. When the [tools] of a request declare [WebSearch] or [web_search],
    the converted tool list starts with the one entry [{type: 'web_search'}]
    and every other entry is a function tool with another name. The
    [input] of the converted request is the one the conversation gives with
    every [WebSearch]/[web_search] [tool_use] block, and every [tool_result]
    block answering one of them, removed; in particular no [function_call]
    item is named [WebSearch] or [web_search]. *)
Theorem web_search_conversion (JSON_stringify : JS.jv -> string) (random_hex : nat -> string)
    (req : JS.jv) (out : Request.result) :
  Request.convertAnthropicToCodexRequest JSON_stringify random_hex req = Some out ->
  (forall ts, JS.get req "tools" = Some (JS.JArr ts) ->
     existsb (fun t => Request.ws_name (JS.get t "name")) ts = true ->
     exists fts, Request.tools out = Some (Request.WebSearchTool :: fts) /\
       Forall (fun t => exists n d p, t = Request.FunctionTool n d p /\ Request.ws_name n = false) fts) /\
  Request.convert_messages JSON_stringify random_hex
    (without_web_search (Request.cleanCacheControl (Request.messages_of req))) =
  Some (Request.input out) /\
  Forall (fun it => match it with
                    | Request.WFunctionCall _ name _ => Request.ws_name (Some name) = false
                    | _ => True
                    end) (Request.input out).
Proof.
  unfold Request.convertAnthropicToCodexRequest. intro H.
  destruct (Request.is_null req); [discriminate|].
  destruct (negb (Request.instructions_ok (JS.get req "system"))); [discriminate|].
  destruct (Request.convert_messages JSON_stringify random_hex
              (Request.cleanCacheControl (Request.messages_of req))) as [inp|] eqn:Hm;
    [|discriminate].
  destruct (Request.convert_tools (JS.get req "tools")) as [tls|] eqn:Ht; [|discriminate].
  inversion H; subst; clear H. simpl.
  assert (Hstrip : Request.convert_messages JSON_stringify random_hex
             (without_web_search (Request.cleanCacheControl (Request.messages_of req))) = Some inp).
  { rewrite <- Hm. destruct (Request.cleanCacheControl (Request.messages_of req)) as [| | | | ms |];
      try reflexivity.
    unfold Request.convert_messages. simpl.
    rewrite existsb_null_strip. destruct (existsb Request.is_null ms); [reflexivity|].
    rewrite prescan_strip, (emit_messages_strip JSON_stringify random_hex (Request.prescan ms)).
    reflexivity. }
  split; [|split; [exact Hstrip|]].
  - intros ts Hts Hws. rewrite Hts in Ht. destruct ts as [|t0 ts0]; [discriminate|].
    unfold Request.convert_tools in Ht.
    destruct (existsb Request.is_null (t0 :: ts0)); [discriminate|].
    rewrite Hws in Ht.
    destruct (Request.function_tools _) as [fts|] eqn:Hf; [|discriminate].
    inversion Ht; subst. exists fts. split; [reflexivity|].
    eapply function_tools_names; [exact Hf|].
    apply Forall_forall. intros t Hin. apply filter_In in Hin as [_ Hin].
    apply andb_true_iff in Hin as [Hin _]. apply negb_true_iff in Hin. exact Hin.
  - unfold Request.convert_messages in Hm.
    destruct (Schema.spread _) as [ms|]; [|discriminate].
    destruct (existsb Request.is_null ms); [discriminate|].
    destruct (Request.emit_messages _ _ _ ms 0) as [r|] eqn:Er; [|discriminate].
    inversion Hm; subst. eapply emit_messages_names; exact Er.
Qed.

Lemma web_search_conversion_witness :
  exists out,
    Request.convertAnthropicToCodexRequest (fun _ => "") (fun _ => "0") ws_request = Some out /\
    Request.input out = [] /\
    exists fts, Request.tools out = Some (Request.WebSearchTool :: fts).
Proof.
  eexists; split; [reflexivity|]. split; [reflexivity|].
  destruct (proj1 (web_search_conversion (fun _ => "") (fun _ => "0") ws_request _ eq_refl)
              _ eq_refl eq_refl) as [fts [Hfts _]].
  exists fts. exact Hfts.
Defined.

(** ** Tool schemas *)

(** C8. [sanitizeSchema] is not idempotent: the [type] an [anyOf] option
    brings in is copied after the flattening of type arrays, so one pass
    leaves the array [["string", "null"]] that the next pass flattens to
    ["string"]. *)
Theorem sanitize_anyOf_type_array :
  Schema.sanitizeSchema
    (Some (JS.JObj [("anyOf", JS.JArr [JS.JObj [("type", JS.JArr [JS.JStr "string"; JS.JStr "null"])]])])) =
  Some (JS.JObj [("type", JS.JArr [JS.JStr "string"; JS.JStr "null"])]) /\
  Schema.sanitizeSchema (Some (JS.JObj [("type", JS.JArr [JS.JStr "string"; JS.JStr "null"])])) =
  Some (JS.JObj [("type", JS.JStr "string")]).
Proof. split; vm_compute; reflexivity. Qed.

Lemma jv_size_pos (v : JS.jv) : exists k, Schema.jv_size v = S k.
Proof. destruct v; simpl; eexists; reflexivity. Qed.

(** C9 counterexample: a tool declared with the empty schema [{}] gets the
    parameters [{type: 'object', properties: {}}], not the [reason] schema. *)
Lemma empty_schema_parameters :
  Request.wire_parameters (Request.tool_rawSchema empty_schema_tool) =
  Some (JS.JObj [("type", JS.JStr "object"); ("properties", JS.JObj [])]).
Proof. vm_compute. reflexivity. Qed.

(** C9, as the code has it. A tool whose schema
    ([input_schema || function?.input_schema || function?.parameters ||
    parameters]) is missing, falsy or not an object gets the parameters
    [{type: 'object', properties: {reason: {type: 'string', ...}},
    required: ['reason']}]; a tool whose schema is the empty object [{}]
    gets [{type: 'object', properties: {}}]. *)
Theorem tool_parameters_of_empty_schema (t : JS.jv) :
  ((Request.tool_rawSchema t = None \/
    exists v, Request.tool_rawSchema t = Some v /\ (JS.truthy v = false \/ JS.is_object v = false)) ->
   Request.wire_parameters (Request.tool_rawSchema t) = Some Schema.reason_schema) /\
  (Request.tool_rawSchema t = Some (JS.JObj []) ->
   Request.wire_parameters (Request.tool_rawSchema t) =
   Some (JS.JObj [("type", JS.JStr "object"); ("properties", JS.JObj [])])).
Proof.
  split.
  - intros [H | [v [H Hv]]]; rewrite H; unfold Request.wire_parameters, Schema.sanitizeSchema.
    + reflexivity.
    + destruct (jv_size_pos v) as [k Hk]. rewrite Hk. simpl.
      destruct Hv as [Hv|Hv]; rewrite Hv; [reflexivity|].
      rewrite orb_true_r. reflexivity.
  - intro H. rewrite H. reflexivity.
Qed.

Lemma tool_parameters_of_empty_schema_witness :
  Request.wire_parameters (Request.tool_rawSchema empty_schema_tool) =
  Some (JS.JObj [("type", JS.JStr "object"); ("properties", JS.JObj [])]).
Proof.
  exact (proj2 (tool_parameters_of_empty_schema empty_schema_tool) eq_refl).
Defined.

(** ** Witnesses of the stream theorems *)

Lemma stop_reason_law_witness :
  stop_law (match Frames.streamCursorResponseToAnthropic
                    (fun _ => Some (Cursor.mkResult (Some "a") None None))
                    (fun _ => None) (fun _ => None) [x00; x00; x00; x00; x01; x41] with
            | Cursor.Ok evs => evs
            | Cursor.Throw _ _ => []
            end).
Proof.
  exact (proj2 stop_reason_law (fun _ => Some (Cursor.mkResult (Some "a") None None))
           (fun _ => None) (fun _ => None) [x00; x00; x00; x00; x01; x41] _ eq_refl).
Defined.

Lemma empty_stream_behaviour_witness :
  Frames.streamCursorResponseToAnthropic (fun _ => None) (fun _ => None) (fun _ => None)
    [x00; x00; x00; x00; x01; x41] =
  Cursor.Throw None "No content received from Cursor response".
Proof.
  exact (proj2 empty_stream_behaviour (fun _ => None) (fun _ => None) (fun _ => None)
           [x00; x00; x00; x00; x01; x41] [None] eq_refl eq_refl).
Defined.

Lemma parseCursorResponseBuffer_frames_witness :
  Frames.decompressPayload (fun _ => None) [x41] x01 = [x41].
Proof.
  exact (proj2 (parseCursorResponseBuffer_frames (fun _ => None) (fun _ => None)
                  (fun _ => None) [x00; x00; x00; x00; x01; x41]) [x41] x01 eq_refl eq_refl).
Defined.

(** C10, counterexample: a single uncompressed frame whose payload is the
    JSON text [{"error":{"message":{"toString":1}}}] makes
    [new Error(msg)] throw a [TypeError] (converting the message object to
    a string calls its [toString], which is not a function): the parse
    ends neither in results nor in a 400 or 429 error. *)
Lemma parseCursorResponseBuffer_type_error :
  Frames.parseCursorResponseBuffer (fun _ => None) (fun _ => None)
    (fun _ => Some (JS.JObj [("error", JS.JObj [("message", JS.JObj [("toString", JS.JNum 1)])])]))
    [x00; x00; x00; x00; x24;
     x7b; x22; x65; x72; x72; x6f; x72; x22; x3a; x7b; x22; x6d; x65; x73; x73; x61; x67; x65; x22; x3a;
     x7b; x22; x74; x6f; x53; x74; x72; x69; x6e; x67; x22; x3a; x31; x7d; x7d; x7d] = Frames.TypeErr.
Proof. vm_compute. reflexivity. Qed.

(** ** Further properties of the Cursor account pool *)








(** The rotation of [selectAccount] (for a whole [activeIndex] [a] with
    [0 <= a] and [a + total < 2^53], where every index is computed
    exactly): the account returned is the first available one in the
    order [a], [a + 1], ... modulo the pool size; [activeIndex] moves just
    past it, and only its [lastUsed] changes. *)
Theorem selectAccount_rotation (now a : Z) (st st' : Pool.state) (j : nat) (w : Z) :
  let total := Z.of_nat (List.length (Pool.accounts st)) in
  Pool.activeIndex st = Pool.of_int a -> (0 <= a)%Z -> (a + total < 2 ^ 53)%Z ->
  Pool.selectAccount now st = Some ((Some j, w), st') ->
  exists k, (k < List.length (Pool.accounts st))%nat /\
    Z.of_nat j = Z.rem (a + Z.of_nat k) total /\
    (forall k', (k' < k)%nat -> exists b,
       nth_error (Pool.accounts st) (Z.to_nat (Z.rem (a + Z.of_nat k') total)) = Some b /\
       Pool.available now b = false) /\
    w = 0%Z /\
    Pool.activeIndex st' = Pool.of_int (Z.rem (Z.of_nat j + 1) total) /\
    Pool.accounts st' = Pool.update_nth j (touched now) (Pool.accounts st).
Proof.
  intros total Hai Ha Hbig H. unfold Pool.selectAccount in H. fold total in H.
  destruct (total =? 0)%Z eqn:E0; [discriminate|]. apply Z.eqb_neq in E0.
  assert (Ht : (0 < total)%Z) by (unfold total in *; lia).
  destruct (scan_spec (List.length (Pool.accounts st)) 0 now a st Hai Ht Ha Hbig ltac:(lia) ltac:(lia))
    as [[Hs Hall] | [k [b [Hk [Hbefore [Hat [Hava Hs]]]]]]]; fold total in Hs;
    rewrite Hs in H; inversion H; subst.
  assert (Hb : (0 <= Z.rem (a + Z.of_nat k) total < total)%Z).
  { apply Z.rem_bound_pos; [|exact Ht]. lia. }
  exists k. split; [exact Hk|].
  rewrite Z2Nat.id by lia.
  split; [reflexivity|]. split; [|repeat split; reflexivity].
  intros k' Hk'. destruct (Hbefore k' Hk') as [c [Hc1 Hc2]]. exists c.
  rewrite ?Z.add_0_l in Hc1. split; assumption.
Qed.





(** [markRateLimited(k, waitMs)] at [now] puts the first account matching
    [k] on cooldown: it is available again exactly from [now + waitMs] on
    (if it is enabled and valid), and [selectAccount] never returns it
    before. *)
Theorem rate_limited_skipped (k : string) (now waitMs : Z) (st : Pool.state) (j : nat) :
  Pool.find_index (Pool.matches k) (Pool.accounts st) = Some j ->
  (exists a a', nth_error (Pool.accounts st) j = Some a /\
     nth_error (Pool.accounts (Pool.markRateLimited k now waitMs st)) j = Some a' /\
     forall t, Pool.available t a' =
               Pool.enabled a && negb (Pool.isInvalid a) && (now + waitMs <=? t)%Z) /\
  (forall t sel w st', (t < now + waitMs)%Z ->
     Pool.selectAccount t (Pool.markRateLimited k now waitMs st) = Some ((sel, w), st') ->
     sel <> Some j).
Proof.
  intros Hf. destruct (find_index_some _ _ _ Hf) as [a [Ha _]].
  assert (Hj : nth_error (Pool.accounts (Pool.markRateLimited k now waitMs st)) j =
               Some (Pool.mkAccount (Pool.id a) (Pool.email a) (Pool.enabled a) (Pool.isInvalid a)
                       (Pool.invalidReason a) (Some (now + waitMs)%Z) (Pool.lastUsed a))).
  { unfold Pool.markRateLimited. rewrite Hf. simpl. rewrite nth_error_update_nth, Nat.eqb_refl, Ha.
    reflexivity. }
  split.
  - do 2 eexists. split; [exact Ha|]. split; [exact Hj|]. intros t.
    unfold Pool.available, Pool.cooling. simpl. rewrite Z.ltb_antisym, negb_involutive. reflexivity.
  - intros t sel w st' Ht H Hsel. subst sel. unfold Pool.selectAccount in H.
    destruct (_ =? 0)%Z; [discriminate|].
    destruct (Pool.scan _ _ _ _ _) as [[[j'|] st1]|] eqn:E; inversion H; subst.
    destruct (scan_some _ _ _ _ _ _ _ E) as [b [Hb [_ [_ [Hc _]]]]].
    rewrite Hj in Hb. inversion Hb; subst. unfold Pool.cooling in Hc. simpl in Hc.
    apply Z.ltb_ge in Hc. lia.
Qed.

Lemma find_index_none (p : Pool.account -> bool) (l : list Pool.account) :
  Pool.find_index p l = None -> forall a, In a l -> p a = false.
Proof.
  induction l as [|b l IH]; intros H a Ha; simpl in *; [destruct Ha|].
  destruct (p b) eqn:Hb; [discriminate|].
  destruct (Pool.find_index p l) eqn:E; [discriminate|].
  destruct Ha as [<-|Ha]; [exact Hb|]. apply IH; auto.
Qed.

Lemma update_nth_app (l1 l2 : list Pool.account) (a : Pool.account) (f : Pool.account -> Pool.account) :
  Pool.update_nth (List.length l1) f (l1 ++ a :: l2) = l1 ++ f a :: l2.
Proof. induction l1 as [|b l1 IH]; simpl; [reflexivity|]. rewrite IH. reflexivity. Qed.

Lemma nodup_replace {A} (l1 l2 : list A) (x y : A) :
  NoDup (l1 ++ y :: l2) -> (NoDup (l1 ++ x :: l2) <-> ~ In x (l1 ++ l2)).
Proof.
  intros Hy. pose proof (NoDup_remove_1 _ _ _ Hy) as H12.
  split.
  - intros Hx. apply (Permutation_NoDup (Permutation_sym (Permutation_middle l1 l2 x))) in Hx.
    apply NoDup_cons_iff in Hx. tauto.
  - intros Hn. apply (Permutation_NoDup (Permutation_middle l1 l2 x)).
    apply NoDup_cons; assumption.
Qed.

(** [addAccount] and the uniqueness of account ids. An account matching
    neither an id nor an email of the pool is appended, and distinct ids
    stay distinct. An account that matches is merged into the first match,
    whose id it takes: the pool keeps its size, and its ids stay distinct
    exactly when no other account already has the new id (an email match
    can thus leave two accounts with one id). *)
Theorem addAccount_ids (acc : Pool.account) (st : Pool.state) :
  NoDup (map Pool.id (Pool.accounts st)) ->
  (Pool.add_index acc (Pool.accounts st) = None ->
   Pool.accounts (Pool.addAccount acc st) = Pool.accounts st ++ [acc] /\
   NoDup (map Pool.id (Pool.accounts (Pool.addAccount acc st)))) /\
  (forall j, Pool.add_index acc (Pool.accounts st) = Some j ->
   List.length (Pool.accounts (Pool.addAccount acc st)) = List.length (Pool.accounts st) /\
   (NoDup (map Pool.id (Pool.accounts (Pool.addAccount acc st))) <->
    forall k b, k <> j -> nth_error (Pool.accounts st) k = Some b -> Pool.id b <> Pool.id acc)).
Proof.
  intros Hnd. unfold Pool.addAccount. split.
  - intros Hn. rewrite Hn. simpl. split; [reflexivity|].
    rewrite map_app. simpl.
    apply (Permutation_NoDup (Permutation_cons_append (map Pool.id (Pool.accounts st)) (Pool.id acc))).
    apply NoDup_cons; [|exact Hnd]. intros Hin. apply in_map_iff in Hin as [a [Ea Ha]].
    pose proof (find_index_none _ _ Hn a Ha) as Hf. simpl in Hf.
    rewrite Ea, String.eqb_refl in Hf. discriminate.
  - intros j Hj. rewrite Hj. simpl.
    destruct (find_index_some _ _ _ Hj) as [a0 [Ha0 _]].
    destruct (nth_error_split _ _ Ha0) as [l1 [l2 [El Hl1]]].
    rewrite El. subst j. rewrite update_nth_app. split.
    { rewrite !length_app. reflexivity. }
    rewrite El, map_app in Hnd. rewrite map_app. simpl in *.
    rewrite (nodup_replace _ _ (Pool.id acc) (Pool.id a0) Hnd), <- map_app.
    split.
    + intros Hn k b Hk Hb Eb. apply Hn. apply in_map_iff. exists b. split; [exact Eb|].
      apply in_or_app.
      destruct (Nat.lt_ge_cases k (List.length l1)) as [Hlt|Hge].
      * rewrite nth_error_app1 in Hb by exact Hlt. left. eapply nth_error_In; eauto.
      * rewrite nth_error_app2 in Hb by exact Hge.
        destruct (k - List.length l1) as [|k'] eqn:Ek; [lia|].
        simpl in Hb. right. eapply nth_error_In; eauto.
    + intros Hall Hin. apply in_map_iff in Hin as [b [Eb Hb]].
      apply in_app_or in Hb as [Hb|Hb]; apply In_nth_error in Hb as [k Hk].
      * assert (Hlt : (k < List.length l1)%nat) by (apply nth_error_Some; congruence).
        apply (Hall k b); [lia| |exact Eb]. rewrite nth_error_app1 by exact Hlt. exact Hk.
      * apply (Hall (List.length l1 + S k)%nat b); [lia| |exact Eb].
        rewrite nth_error_app2 by lia. replace (List.length l1 + S k - List.length l1)%nat with (S k) by lia.
        exact Hk.
Qed.

(** [initialize()] loads the file once: a later call changes nothing. Every
    account it loads has a non-empty id (the file's id, else its email,
    else a generated [cursor_] id), and a file that cannot be read or
    parsed leaves an empty pool with [activeIndex] 0. *)
Theorem initialize_loads_once (config config' : option (list Pool.raw_account * Pool.num)) (st : Pool.state) :
  Pool.initialize config' (Pool.initialize config st) = Pool.initialize config st /\
  (Pool.initialized st = false ->
   (forall a, In a (Pool.accounts (Pool.initialize config st)) -> Pool.id a <> "") /\
   (config = None -> Pool.accounts (Pool.initialize config st) = [] /\
                     Pool.activeIndex (Pool.initialize config st) = Pool.NFin 0)).
Proof.
  split.
  - unfold Pool.initialize. destruct (Pool.initialized st) eqn:Hi.
    + rewrite Hi. reflexivity.
    + destruct config as [[raws ai]|]; reflexivity.
  - intros Hi. unfold Pool.initialize. rewrite Hi. split.
    + destruct config as [[raws ai]|]; simpl; [|intros a []].
      intros a Ha. apply in_map_iff in Ha as [r [<- _]]. unfold Pool.of_raw. simpl.
      unfold truthy_str.
      destruct (Pool.r_id r) as [i|]; [destruct (String.eqb i "") eqn:Ei;
                                       [|intros E; subst; discriminate]|];
      (destruct (Pool.r_email r) as [e|]; [destruct (String.eqb e "") eqn:Ee;
                                           [|intros E; subst; discriminate]|]);
      discriminate.
    + intros ->. split; reflexivity.
Qed.

(** ** Witnesses of the further pool properties *)



Lemma selectAccount_rotation_witness :
  exists k, (k < 3)%nat /\ Z.of_nat 2 = Z.rem (1 + Z.of_nat k) 3.
Proof.
  destruct (selectAccount_rotation 7 1
              (Pool.mkState [Pool.mkAccount "a" None true false None None None;
                             Pool.mkAccount "b" None false false None None None;
                             Pool.mkAccount "c" None true false None None None] (Pool.of_int 1) true)
              (Pool.mkState [Pool.mkAccount "a" None true false None None None;
                             Pool.mkAccount "b" None false false None None None;
                             Pool.mkAccount "c" None true false None None (Some 7%Z)] (Pool.of_int 0) true)
              2 0 eq_refl ltac:(lia) ltac:(simpl; lia) ltac:(vm_compute; reflexivity))
    as [k [Hk [Hj _]]].
  exists k. split; [exact Hk|exact Hj].
Defined.


Lemma rate_limited_skipped_witness :
  exists sel w st',
  Pool.selectAccount 20
    (Pool.markRateLimited "a" 10 30
       (Pool.mkState [Pool.mkAccount "a" None true false None None None;
                      Pool.mkAccount "b" None true false None None None] (Pool.of_int 0) true)) = Some ((sel, w), st') /\
  sel <> Some 0%nat.
Proof.
  destruct (Pool.selectAccount 20
    (Pool.markRateLimited "a" 10 30
       (Pool.mkState [Pool.mkAccount "a" None true false None None None;
                      Pool.mkAccount "b" None true false None None None] (Pool.of_int 0) true))) as [[[sel w] st']|] eqn:E.
  - exists sel, w, st'. split; [reflexivity|].
    exact (proj2 (rate_limited_skipped "a" 10 30
                    (Pool.mkState [Pool.mkAccount "a" None true false None None None;
                                   Pool.mkAccount "b" None true false None None None] (Pool.of_int 0) true)
                    0 eq_refl) 20%Z sel w st' ltac:(lia) E).
  - vm_compute in E. discriminate E.
Defined.

Lemma addAccount_ids_witness :
  ~ NoDup (map Pool.id (Pool.accounts
     (Pool.addAccount (Pool.mkAccount "b" (Some "e") true false None None None)
        (Pool.mkState [Pool.mkAccount "a" (Some "e") true false None None None;
                       Pool.mkAccount "b" None true false None None None] (Pool.of_int 0) true)))).
Proof.
  intros Hnd.
  assert (H0 : NoDup (map Pool.id [Pool.mkAccount "a" (Some "e") true false None None None;
                                   Pool.mkAccount "b" None true false None None None])).
  { simpl. constructor; [simpl; intros [E|[]]; discriminate|].
    constructor; [intros []|constructor]. }
  apply (proj1 (proj2 (proj2 (addAccount_ids
             (Pool.mkAccount "b" (Some "e") true false None None None)
             (Pool.mkState [Pool.mkAccount "a" (Some "e") true false None None None;
                            Pool.mkAccount "b" None true false None None None] (Pool.of_int 0) true) H0)
             0 eq_refl)) Hnd 1 (Pool.mkAccount "b" None true false None None None));
    [discriminate|reflexivity|reflexivity].
Defined.

Lemma initialize_loads_once_witness :
  Forall (fun a => Pool.id a <> "")
    (Pool.accounts (Pool.initialize
                      (Some ([Pool.mkRaw None None true false None None None "00ff"], Pool.NFin 0)) Pool.empty)).
Proof.
  apply Forall_forall.
  exact (proj1 (proj2 (initialize_loads_once
           (Some ([Pool.mkRaw None None true false None None None "00ff"], Pool.NFin 0)) None Pool.empty)
           eq_refl)).
Defined.

(** ** Further properties of the Codex dispatch loop *)

Section DispatchMore.

Variable Number_of_string : string -> option Z.
Variable JSON_parse : string -> option JS.jv.
Variable DEFAULT_COOLDOWN_MS : Z.

Abbreviation loop := (Dispatch.loop Number_of_string JSON_parse DEFAULT_COOLDOWN_MS).

Lemma loop_fetch_bound (rounds : list Dispatch.round) : forall attempt maxAttempts,
  (List.length (filter (fun a => match a with Dispatch.Fetch _ => true | _ => false end)
                  (fst (loop rounds attempt maxAttempts))) <= Z.to_nat (maxAttempts - attempt))%nat.
Proof.
  induction rounds as [|r rest IH]; intros attempt maxAttempts; simpl;
    destruct (attempt <? maxAttempts)%Z eqn:Ha; simpl; try lia.
  apply Z.ltb_lt in Ha.
  destruct r as [waitMs|id res].
  - destruct (0 <? waitMs)%Z; [|simpl; lia].
    destruct (60000 <? waitMs)%Z; simpl; [lia|].
    replace (attempt - 1 + 1)%Z with attempt by lia. apply IH.
  - assert (Hc : forall e,
      (List.length (filter (fun a => match a with Dispatch.Fetch _ => true | _ => false end)
         (fst (if (attempt + 1 >=? maxAttempts)%Z then ([Dispatch.Fetch id], Dispatch.Thrown e)
               else Dispatch.prepend [Dispatch.Fetch id] (loop rest (attempt + 1) maxAttempts))))
       <= Z.to_nat (maxAttempts - attempt))%nat).
    { intros e. destruct (attempt + 1 >=? maxAttempts)%Z; simpl; [lia|].
      specialize (IH (attempt + 1)%Z maxAttempts). lia. }
    destruct res as [|status ra body now|]; simpl; [lia| |apply Hc].
    destruct ((status =? 401)%Z || (status =? 403)%Z); simpl.
    + specialize (IH (attempt + 1)%Z maxAttempts). lia.
    + destruct (status =? 429)%Z; simpl; [|apply Hc].
      specialize (IH (attempt + 1)%Z maxAttempts). lia.
Qed.

(** The loop sends at most [maxAttempts = max(3, accountCount + 1)]
    requests, however many times it sleeps waiting for a cooldown. *)
Theorem fetch_budget (rounds : list Dispatch.round) (accountCount : Z) :
  (List.length (filter (fun a => match a with Dispatch.Fetch _ => true | _ => false end)
     (fst (Dispatch.sendCodexMessage Number_of_string JSON_parse DEFAULT_COOLDOWN_MS
             rounds accountCount))) <= Z.to_nat (Z.max 3 (accountCount + 1)))%nat /\
  (List.length (filter (fun a => match a with Dispatch.Fetch _ => true | _ => false end)
     (fst (Dispatch.sendCodexMessageStream Number_of_string JSON_parse DEFAULT_COOLDOWN_MS
             rounds accountCount))) <= Z.to_nat (Z.max 3 (accountCount + 1)))%nat.
Proof.
  unfold Dispatch.sendCodexMessage, Dispatch.sendCodexMessageStream.
  pose proof (loop_fetch_bound rounds 0 (Z.max 3 (accountCount + 1))) as H.
  rewrite Z.sub_0_r in H. split; exact H.
Qed.

Lemma loop_sleep_bound (rounds : list Dispatch.round) : forall attempt maxAttempts,
  Forall (fun a => match a with Dispatch.Sleep ms => (500 < ms <= 60500)%Z | _ => True end)
         (fst (loop rounds attempt maxAttempts)).
Proof.
  induction rounds as [|r rest IH]; intros attempt maxAttempts; simpl;
    destruct (attempt <? maxAttempts)%Z eqn:Ha; simpl; try constructor.
  destruct r as [waitMs|id res].
  - destruct (0 <? waitMs)%Z eqn:H0; [|constructor].
    destruct (60000 <? waitMs)%Z eqn:H6; simpl; [constructor|].
    apply Z.ltb_lt in H0. apply Z.ltb_ge in H6.
    constructor; [lia|apply IH].
  - assert (Hc : forall e,
      Forall (fun a => match a with Dispatch.Sleep ms => (500 < ms <= 60500)%Z | _ => True end)
         (fst (if (attempt + 1 >=? maxAttempts)%Z then ([Dispatch.Fetch id], Dispatch.Thrown e)
               else Dispatch.prepend [Dispatch.Fetch id] (loop rest (attempt + 1) maxAttempts)))).
    { intros e. destruct (attempt + 1 >=? maxAttempts)%Z; simpl; repeat constructor. apply IH. }
    destruct res as [|status ra body now|]; simpl; [repeat constructor| |apply Hc].
    destruct ((status =? 401)%Z || (status =? 403)%Z); simpl.
    + repeat constructor. apply IH.
    + destruct (status =? 429)%Z; simpl; [|apply Hc]. repeat constructor. apply IH.
Qed.

(** Every sleep of the loop lasts more than 500 ms and at most 60.5 s:
    longer waits end the loop with [RESOURCE_EXHAUSTED]. *)
Theorem sleep_bound (rounds : list Dispatch.round) (accountCount : Z) :
  Forall (fun a => match a with Dispatch.Sleep ms => (500 < ms <= 60500)%Z | _ => True end)
    (fst (Dispatch.sendCodexMessage Number_of_string JSON_parse DEFAULT_COOLDOWN_MS
            rounds accountCount)) /\
  Forall (fun a => match a with Dispatch.Sleep ms => (500 < ms <= 60500)%Z | _ => True end)
    (fst (Dispatch.sendCodexMessageStream Number_of_string JSON_parse DEFAULT_COOLDOWN_MS
            rounds accountCount)).
Proof. split; apply loop_sleep_bound. Qed.

Lemma parseRetryAfter_pos (retryAfter : option string) (bodyText : string) (now ms : Z) :
  Dispatch.parseRetryAfter Number_of_string JSON_parse retryAfter bodyText now = Some ms ->
  (0 < ms)%Z.
Proof.
  unfold Dispatch.parseRetryAfter.
  destruct (truthy_str retryAfter) as [h|];
    [destruct (Number_of_string h) as [x|]; [destruct (0 <? x)%Z eqn:Hx|]|].
  1: { intros H. inversion H. apply Z.ltb_lt in Hx. lia. }
  all: destruct (String.eqb bodyText ""); [discriminate|];
       destruct (JSON_parse bodyText) as [body|]; [|discriminate]; cbv zeta;
       destruct (Dispatch.ToNumber _ _) as [[n|]|]; try discriminate;
       try (destruct (0 <? n)%Z eqn:Hn; [intros H; inversion H; apply Z.ltb_lt in Hn; lia|]);
       destruct (JS.truthy_opt _); try discriminate;
       destruct (Dispatch.ToNumber _ _) as [[at_|]|]; try discriminate;
       destruct (Dispatch.time_clip _) as [t|]; try discriminate;
       destruct (0 <? t - now)%Z eqn:Ht; try discriminate;
       intros H; inversion H; apply Z.ltb_lt in Ht; lia.
Qed.

Lemma loop_rate_limit_positive (rounds : list Dispatch.round) :
  (0 < DEFAULT_COOLDOWN_MS)%Z -> forall attempt maxAttempts,
  Forall (fun a => match a with Dispatch.MarkRateLimited _ ms => (0 < ms)%Z | _ => True end)
    (fst (loop rounds attempt maxAttempts)).
Proof.
  intros Hd.
  induction rounds as [|r rest IH]; intros attempt maxAttempts; simpl;
    destruct (attempt <? maxAttempts)%Z eqn:Ha; simpl; try constructor.
  assert (Hr : forall ra body now, (0 < Dispatch.retryMs Number_of_string JSON_parse
                                          DEFAULT_COOLDOWN_MS ra body now)%Z).
  { intros ra body now. unfold Dispatch.retryMs.
    destruct (Dispatch.parseRetryAfter _ _ ra body now) as [ms|] eqn:E; [|exact Hd].
    apply parseRetryAfter_pos in E. destruct (ms =? 0)%Z; [exact Hd|exact E]. }
  destruct r as [waitMs|id res].
  - destruct (0 <? waitMs)%Z; [|constructor].
    destruct (60000 <? waitMs)%Z; simpl; [constructor|].
    constructor; [exact I|apply IH].
  - assert (Hc : forall e,
      Forall (fun a => match a with Dispatch.MarkRateLimited _ ms => (0 < ms)%Z | _ => True end)
         (fst (if (attempt + 1 >=? maxAttempts)%Z then ([Dispatch.Fetch id], Dispatch.Thrown e)
               else Dispatch.prepend [Dispatch.Fetch id] (loop rest (attempt + 1) maxAttempts)))).
    { intros e. destruct (attempt + 1 >=? maxAttempts)%Z; simpl; repeat constructor. apply IH. }
    destruct res as [|status ra body now|]; simpl; [repeat constructor| |apply Hc].
    destruct ((status =? 401)%Z || (status =? 403)%Z); simpl.
    + repeat constructor. apply IH.
    + destruct (status =? 429)%Z; simpl; [|apply Hc]. repeat constructor; [apply Hr|]. apply IH.
Qed.

(** With a positive [DEFAULT_COOLDOWN_MS], every cooldown the loop passes
    to [markRateLimited] is positive: [parseRetryAfter] only returns
    positive durations, and the default covers the rest. *)
Theorem rate_limit_positive (rounds : list Dispatch.round) (accountCount : Z) :
  (0 < DEFAULT_COOLDOWN_MS)%Z ->
  Forall (fun a => match a with Dispatch.MarkRateLimited _ ms => (0 < ms)%Z | _ => True end)
    (fst (Dispatch.sendCodexMessage Number_of_string JSON_parse DEFAULT_COOLDOWN_MS
            rounds accountCount)) /\
  Forall (fun a => match a with Dispatch.MarkRateLimited _ ms => (0 < ms)%Z | _ => True end)
    (fst (Dispatch.sendCodexMessageStream Number_of_string JSON_parse DEFAULT_COOLDOWN_MS
            rounds accountCount)).
Proof. intros Hd. split; apply loop_rate_limit_positive; exact Hd. Qed.

End DispatchMore.

Lemma rate_limit_positive_witness :
  Forall (fun a => match a with Dispatch.MarkRateLimited _ ms => (0 < ms)%Z | _ => True end)
    (fst (Dispatch.sendCodexMessage (fun _ => Some 0%Z) (fun _ => None) 60000
            [Dispatch.RAccount "a" (Dispatch.HttpError 429 (Some "0") "" 0)] 1)).
Proof. exact (proj1 (rate_limit_positive (fun _ => Some 0%Z) (fun _ => None) 60000 _ 1 ltac:(lia))). Defined.

(** ** Further properties of the tool schemas *)

Lemma assoc_get_del (fs : list (string * JS.jv)) (k k2 : string) :
  JS.assoc_get (JS.assoc_del fs k) k2 = if String.eqb k k2 then None else JS.assoc_get fs k2.
Proof.
  induction fs as [|[k' v'] fs IH]; simpl.
  - destruct (String.eqb k k2); reflexivity.
  - destruct (String.eqb k k') eqn:E; simpl.
    + rewrite IH. apply String.eqb_eq in E. subst k'.
      destruct (String.eqb k k2) eqn:E2; [reflexivity|].
      rewrite String.eqb_sym, E2. reflexivity.
    + destruct (String.eqb k2 k') eqn:E2; [|exact IH].
      apply String.eqb_eq in E2. subst k'. rewrite E. reflexivity.
Qed.

Lemma dels_keep_none (k : string) (ks : list string) : forall fs,
  JS.assoc_get fs k = None -> JS.assoc_get (fold_left JS.assoc_del ks fs) k = None.
Proof.
  induction ks as [|k1 ks IH]; intros fs H0; simpl; [exact H0|].
  apply IH. rewrite assoc_get_del. destruct (String.eqb k1 k); [reflexivity|exact H0].
Qed.

Lemma dels_keep_other (k : string) (ks : list string) : forall fs,
  ~ In k ks -> JS.assoc_get (fold_left JS.assoc_del ks fs) k = JS.assoc_get fs k.
Proof.
  induction ks as [|k1 ks IH]; intros fs Hn; simpl; [reflexivity|].
  rewrite IH by (intro; apply Hn; right; assumption). rewrite assoc_get_del.
  destruct (String.eqb k1 k) eqn:E; [|reflexivity].
  apply String.eqb_eq in E. exfalso. apply Hn. left. exact E.
Qed.

Lemma strip_none (ks : list string) : forall fs k,
  In k ks -> JS.assoc_get (fold_left JS.assoc_del ks fs) k = None.
Proof.
  induction ks as [|k0 ks IH]; intros fs k Hk; [destruct Hk|]. simpl.
  destruct (in_dec String.string_dec k ks) as [Hin|Hnin]; [apply IH; exact Hin|].
  destruct Hk as [<-|Hk]; [|contradiction].
  apply dels_keep_none. rewrite assoc_get_del, String.eqb_refl. reflexivity.
Qed.

Lemma map_opt_in (g : JS.jv -> option JS.jv) (l : list JS.jv) : forall l',
  Schema.map_opt g l = Some l' -> forall y, In y l' -> exists x, g x = Some y.
Proof.
  induction l as [|x l IH]; intros l' H y Hy; simpl in H.
  - inversion H; subst. destruct Hy.
  - destruct (g x) as [x'|] eqn:Ex; [|discriminate].
    destruct (Schema.map_opt g l) as [l''|] eqn:El; [|discriminate].
    inversion H; subst. destruct Hy as [<-|Hy]; [exists x; exact Ex|].
    eapply IH; eauto.
Qed.

Lemma assoc_set_in (fs : list (string * JS.jv)) (k : string) (v : JS.jv) (p : string * JS.jv) :
  In p (JS.assoc_set fs k v) -> In p fs \/ snd p = v.
Proof.
  induction fs as [|[k' v'] fs IH]; simpl; intros H.
  - destruct H as [<-|[]]. right. reflexivity.
  - destruct (String.eqb k k').
    + destruct H as [<-|H]; [right; reflexivity|left; right; exact H].
    + destruct H as [<-|H]; [left; left; reflexivity|].
      destruct (IH H) as [H'|H']; [left; right; exact H'|right; exact H'].
Qed.

Lemma clean_entries_vals (rec : JS.jv -> option JS.jv) (es : list (string * JS.jv)) : forall acc out,
  Schema.clean_entries rec es acc = Some out ->
  (forall p, In p acc -> exists v, rec v = Some (snd p)) ->
  forall p, In p out -> exists v, rec v = Some (snd p).
Proof.
  induction es as [|[k v] es IH]; intros acc out H Hacc; simpl in H.
  - inversion H; subst. exact Hacc.
  - destruct (rec v) as [v'|] eqn:Ev; [|discriminate].
    apply (IH _ _ H). intros p Hp. destruct (assoc_set_in _ _ _ _ Hp) as [Hp'|Hp'].
    + apply Hacc. exact Hp'.
    + exists v. rewrite Hp'. exact Ev.
Qed.

Lemma recurse_properties_get (rec : JS.jv -> option JS.jv) (fs fs' : list (string * JS.jv)) :
  Schema.recurse_properties rec fs = Some fs' ->
  (forall k, k <> "properties" -> JS.assoc_get fs' k = JS.assoc_get fs k) /\
  match JS.assoc_get fs' "properties" with
  | Some (JS.JObj ps) => forall p, In p ps -> exists v, rec v = Some (snd p)
  | _ => True
  end.
Proof.
  unfold Schema.recurse_properties. intros H.
  destruct (JS.assoc_get fs "properties") as [p|] eqn:Ep.
  - destruct (JS.truthy p && JS.is_object p) eqn:Ht.
    + destruct (Schema.clean_entries rec (JS.own_entries p) []) as [cl|] eqn:Ec; [|discriminate].
      inversion H; subst. split.
      * intros k Hk. apply assoc_get_set_other. exact Hk.
      * rewrite assoc_get_set_same. apply (clean_entries_vals _ _ _ _ Ec). intros q [].
    + inversion H; subst. split; [reflexivity|]. rewrite Ep.
      destruct p; try exact I. simpl in Ht. discriminate.
  - inversion H; subst. split; [reflexivity|]. rewrite Ep. exact I.
Qed.

Lemma recurse_items_get (rec : JS.jv -> option JS.jv) (fs fs' : list (string * JS.jv)) :
  Schema.recurse_items rec fs = Some fs' ->
  (forall k, k <> "items" -> JS.assoc_get fs' k = JS.assoc_get fs k) /\
  match JS.assoc_get fs' "items" with
  | Some x => (exists v, rec v = Some x) \/
              (exists l l0, x = JS.JArr l /\ Schema.map_opt rec l0 = Some l) \/
              JS.truthy x = false
  | None => True
  end.
Proof.
  unfold Schema.recurse_items. intros H.
  destruct (JS.assoc_get fs "items") as [it|] eqn:Ei.
  - destruct (JS.truthy it) eqn:Ht.
    + destruct (match it with JS.JArr l => option_map JS.JArr (Schema.map_opt rec l) | _ => rec it end)
        as [it'|] eqn:Er; [|discriminate].
      inversion H; subst. split.
      * intros k Hk. apply assoc_get_set_other. exact Hk.
      * rewrite assoc_get_set_same. destruct it; try (left; eexists; exact Er).
        right; left. destruct (Schema.map_opt rec l) as [l'|] eqn:Em; [|discriminate].
        simpl in Er. inversion Er; subst. exists l', l. split; [reflexivity|exact Em].
    + inversion H; subst. split; [reflexivity|]. rewrite Ei. right; right. exact Ht.
  - inversion H; subst. split; [reflexivity|]. rewrite Ei. exact I.
Qed.

Lemma check_required_get (fs : list (string * JS.jv)) (k : string) :
  k <> "required" -> JS.assoc_get (Schema.check_required fs) k = JS.assoc_get fs k.
Proof.
  intros Hk. unfold Schema.check_required.
  destruct (JS.assoc_get fs "required") as [[]|]; try reflexivity.
  destruct (JS.assoc_get fs "properties") as [p|]; try reflexivity.
  destruct (JS.truthy p); [|reflexivity].
  unfold Schema.filter_required. destruct (filter _ _).
  - rewrite assoc_get_del. destruct (String.eqb "required" k) eqn:E; [|reflexivity].
    apply String.eqb_eq in E. congruence.
  - apply assoc_get_set_other. exact Hk.
Qed.

Ltac strip_keys :=
  let k := fresh "k" in let Hk := fresh "Hk" in
  intros k Hk; simpl in Hk; repeat (destruct Hk as [<-|Hk]; [reflexivity|]); destruct Hk.

Lemma reason_schema_kw_free : kw_free Schema.reason_schema.
Proof.
  intros [|[|n]]; simpl; [exact I| |].
  - split; [strip_keys|]. split; [|exact I]. repeat constructor.
  - split; [strip_keys|]. split; [|exact I]. constructor; [|constructor].
    simpl. split; [strip_keys|]. split; exact I.
Qed.

Lemma falsy_kw_free (x : JS.jv) : JS.truthy x = false -> kw_free x.
Proof. intros H [|n]; [exact I|]. destruct x; simpl in *; try exact I; discriminate. Qed.

Lemma ref_hint_shape (fs : list (string * JS.jv)) (ref out : JS.jv) :
  Schema.ref_hint fs ref = Some out ->
  exists d, out = JS.JObj [("type", JS.JStr "object"); ("description", JS.JStr d)].
Proof.
  unfold Schema.ref_hint. destruct (JS.js_String ref); [|discriminate]. cbv zeta.
  match goal with |- option_map _ ?x = _ -> _ => destruct x as [d|] end; [|discriminate].
  intros E. injection E as <-. exists d. reflexivity.
Qed.

Lemma sanitize_fuel_kw_free (fuel : nat) : forall v out,
  Schema.sanitize_fuel fuel v = Some out -> kw_free out.
Proof.
  induction fuel as [|f IH]; intros v out H; simpl in H; [discriminate|].
  destruct (negb (JS.truthy v) || negb (JS.is_object v)) eqn:Hv.
  { inversion H; subst. apply reason_schema_kw_free. }
  destruct v as [| | | |l|fs]; try (inversion H; subst; apply reason_schema_kw_free).
  - destruct (Schema.map_opt (Schema.sanitize_fuel f) l) as [l'|] eqn:Em; inversion H; subst.
    intros [|n]; [exact I|]. simpl. apply Forall_forall. intros y Hy.
    destruct (map_opt_in _ _ _ Em y Hy) as [x Hx]. exact (IH _ _ Hx n).
  - unfold Schema.sanitize_object in H. cbv zeta in H.
    destruct (JS.truthy_opt (JS.assoc_get (Schema.flatten_type fs) "$ref")).
    { destruct (ref_hint_shape _ _ _ H) as [d ->]. intros [|n]; [exact I|]. simpl.
      split; [strip_keys|]. split; exact I. }
    destruct (Schema.merge_allOf (Schema.flatten_type fs)) as [r1|]; [|discriminate].
    set (r2 := Schema.strip _) in H.
    destruct (Schema.recurse_properties (Schema.sanitize_fuel f) r2) as [r3|] eqn:E3; [|discriminate].
    destruct (Schema.recurse_items (Schema.sanitize_fuel f) r3) as [r4|] eqn:E4; [|discriminate].
    inversion H; subst. clear H.
    destruct (recurse_properties_get _ _ _ E3) as [P3 Q3].
    destruct (recurse_items_get _ _ _ E4) as [P4 Q4].
    intros [|n]; [exact I|]. simpl. split; [|split].
    + intros k Hk.
      assert (Hp : k <> "properties") by (intro; subst; simpl in Hk; intuition discriminate).
      assert (Hi : k <> "items") by (intro; subst; simpl in Hk; intuition discriminate).
      assert (Hr : k <> "required") by (intro; subst; simpl in Hk; intuition discriminate).
      rewrite check_required_get, P4, P3 by assumption.
      apply strip_none. exact Hk.
    + rewrite check_required_get, P4 by discriminate.
      destruct (JS.assoc_get r3 "properties") as [[]|]; try exact I.
      apply Forall_forall. intros p Hp. destruct (Q3 p Hp) as [v0 Hv0]. exact (IH _ _ Hv0 n).
    + rewrite check_required_get by discriminate.
      destruct (JS.assoc_get r4 "items") as [x|]; [|exact I].
      destruct Q4 as [[v0 Hv0]|[[l [l0 [-> Hm]]]|Hf]].
      * exact (IH _ _ Hv0 n).
      * destruct n; [exact I|]. simpl. apply Forall_forall. intros y Hy.
        destruct (map_opt_in _ _ _ Hm y Hy) as [x Hx]. exact (IH _ _ Hx n).
      * exact (falsy_kw_free x Hf n).
Qed.

(** The keywords [sanitizeSchema] strips (additionalProperties, default,
    $schema, $defs, definitions, $ref, $id, $comment, minLength, maxLength,
    pattern, format, minItems, maxItems, examples, allOf, anyOf, oneOf,
    const) occur nowhere in its result that is reachable through
    [properties] and [items], whatever the input. *)
Theorem sanitize_keyword_free (schema : option JS.jv) (out : JS.jv) :
  Schema.sanitizeSchema schema = Some out -> kw_free out.
Proof.
  unfold Schema.sanitizeSchema. destruct schema as [v|].
  - apply sanitize_fuel_kw_free.
  - intros H. inversion H; subst. apply reason_schema_kw_free.
Qed.

Lemma sanitize_keyword_free_witness :
  Schema.sanitizeSchema (Some (JS.JObj [("type", JS.JStr "object"); ("additionalProperties", JS.JBool false);
    ("properties", JS.JObj [("a", JS.JObj [("anyOf", JS.JArr [JS.JObj [
       ("type", JS.JArr [JS.JStr "string"; JS.JStr "null"]); ("default", JS.JNum 1); ("minLength", JS.JNum 2)]])])])]))
  = Some (JS.JObj [("type", JS.JStr "object");
       ("properties", JS.JObj [("a", JS.JObj [("type", JS.JArr [JS.JStr "string"; JS.JStr "null"])])])]) /\
  kw_free (JS.JObj [("type", JS.JStr "object");
       ("properties", JS.JObj [("a", JS.JObj [("type", JS.JArr [JS.JStr "string"; JS.JStr "null"])])])]).
Proof.
  assert (H : Schema.sanitizeSchema (Some (JS.JObj [("type", JS.JStr "object"); ("additionalProperties", JS.JBool false);
    ("properties", JS.JObj [("a", JS.JObj [("anyOf", JS.JArr [JS.JObj [
       ("type", JS.JArr [JS.JStr "string"; JS.JStr "null"]); ("default", JS.JNum 1); ("minLength", JS.JNum 2)]])])])]))
    = Some (JS.JObj [("type", JS.JStr "object");
       ("properties", JS.JObj [("a", JS.JObj [("type", JS.JArr [JS.JStr "string"; JS.JStr "null"])])])]))
    by (vm_compute; reflexivity).
  split; [exact H|]. exact (sanitize_keyword_free _ _ H).
Defined.

Lemma filter_required_get (fs : list (string * JS.jv)) (r : list JS.jv) (props : JS.jv) (k : string) :
  k <> "required" ->
  JS.assoc_get (Schema.filter_required fs r props) k = JS.assoc_get fs k.
Proof.
  intros Hk. unfold Schema.filter_required. cbv zeta. destruct (filter _ r).
  - rewrite assoc_get_del. destruct (String.eqb "required" k) eqn:E; [|reflexivity].
    apply String.eqb_eq in E. congruence.
  - apply assoc_get_set_other. exact Hk.
Qed.

Lemma filter_required_required (fs : list (string * JS.jv)) (r : list JS.jv) (ps : list (string * JS.jv)) (r' : list JS.jv) :
  JS.assoc_get (Schema.filter_required fs r (JS.JObj ps)) "required" = Some (JS.JArr r') ->
  r' <> [] /\ Forall (fun x => exists s, x = JS.JStr s /\ In s (map fst ps)) r'.
Proof.
  unfold Schema.filter_required. cbv zeta. simpl JS.own_entries.
  destruct (filter _ r) as [|y ys] eqn:Ef.
  - rewrite assoc_get_del. simpl. discriminate.
  - rewrite assoc_get_set_same. intros H. inversion H; subst. split; [discriminate|].
    apply Forall_forall. intros x Hx. rewrite <- Ef in Hx. apply filter_In in Hx as [_ Hx].
    destruct x; try discriminate. exists s. split; [reflexivity|].
    apply existsb_exists in Hx as [s' [Hs' E]]. apply String.eqb_eq in E. subst s'. exact Hs'.
Qed.

Lemma normalize_shape (schema : JS.jv) :
  exists fs ps,
    Schema.normalizeFunctionParameters schema = JS.JObj fs /\
    JS.assoc_get fs "type" = Some (JS.JStr "object") /\
    JS.assoc_get fs "properties" = Some (JS.JObj ps) /\
    (forall r, JS.assoc_get fs "required" = Some (JS.JArr r) ->
       r <> [] /\ Forall (fun x => exists s, x = JS.JStr s /\ In s (map fst ps)) r).
Proof.
  unfold Schema.normalizeFunctionParameters.
  destruct (negb (JS.truthy schema) || negb (JS.is_object schema) || JS.is_array schema) eqn:Hs.
  { eexists. exists []. split; [reflexivity|]. split; [reflexivity|]. split; [reflexivity|].
    intros r H. discriminate H. }
  destruct schema as [| | | |l|res]; simpl in Hs; rewrite ?orb_true_r in Hs; try discriminate Hs.
  cbv zeta.
  set (ty := JS.assoc_get res "type").
  destruct (JS.truthy_opt ty && negb (Schema.is_str ty "object")) eqn:Ety.
  { eexists. exists [("input", JS.JObj res)]. split; [reflexivity|]. split; [reflexivity|].
    split; [reflexivity|]. intros r H. simpl in H. inversion H; subst. split; [discriminate|].
    constructor; [|constructor]. exists "input"%string. split; [reflexivity|left; reflexivity]. }
  set (r1 := if JS.truthy_opt ty then res else JS.assoc_set res "type" (JS.JStr "object")).
  assert (H1 : JS.assoc_get r1 "type" = Some (JS.JStr "object")).
  { unfold r1. destruct (JS.truthy_opt ty) eqn:Et.
    - simpl in Ety. apply negb_false_iff in Ety. fold ty.
      destruct ty as [[]|]; try discriminate. simpl in Ety. apply String.eqb_eq in Ety. subst. reflexivity.
    - apply assoc_get_set_same. }
  set (r2 := match JS.assoc_get r1 "properties" with
             | Some p => if JS.truthy p && JS.is_object p && negb (JS.is_array p) then r1
                         else JS.assoc_set r1 "properties" (JS.JObj [])
             | None => JS.assoc_set r1 "properties" (JS.JObj []) end).
  assert (H2 : JS.assoc_get r2 "type" = Some (JS.JStr "object") /\
               exists ps, JS.assoc_get r2 "properties" = Some (JS.JObj ps)).
  { unfold r2. destruct (JS.assoc_get r1 "properties") as [p|] eqn:Ep.
    - destruct (JS.truthy p && JS.is_object p && negb (JS.is_array p)) eqn:Ep2.
      + split; [exact H1|]. destruct p as [| | | | |pl]; simpl in Ep2; rewrite ?andb_false_r in Ep2; try discriminate Ep2. exists pl. exact Ep.
      + rewrite assoc_get_set_other by discriminate. split; [exact H1|].
        exists []. apply assoc_get_set_same.
    - rewrite assoc_get_set_other by discriminate. split; [exact H1|].
      exists []. apply assoc_get_set_same. }
  destruct H2 as [H2t [ps H2p]].
  destruct (JS.assoc_get r2 "required") as [[| | | |r|]|] eqn:Er;
    try (exists r2, ps; split; [reflexivity|]; split; [exact H2t|]; split; [exact H2p|];
         intros r' H; rewrite Er in H; discriminate H).
  rewrite H2p. exists (Schema.filter_required r2 r (JS.JObj ps)), ps.
  split; [reflexivity|]. split; [rewrite filter_required_get by discriminate; exact H2t|].
  split; [rewrite filter_required_get by discriminate; exact H2p|].
  apply filter_required_required.
Qed.

(** Whatever [normalizeFunctionParameters] is given, it returns an object
    whose [type] is ["object"] and whose [properties] is an object; a
    [required] array it returns is non-empty and lists only keys of those
    [properties]. *)
Theorem normalize_object_shape (schema : JS.jv) :
  exists fs ps,
    Schema.normalizeFunctionParameters schema = JS.JObj fs /\
    JS.assoc_get fs "type" = Some (JS.JStr "object") /\
    JS.assoc_get fs "properties" = Some (JS.JObj ps) /\
    (forall r, JS.assoc_get fs "required" = Some (JS.JArr r) ->
       r <> [] /\ Forall (fun x => exists s, x = JS.JStr s /\ In s (map fst ps)) r).
Proof. exact (normalize_shape schema). Qed.

Lemma clean_block_spec (b : JS.jv) :
  JS.truthy_opt (JS.get (Request.clean_block b) "cache_control") = false /\
  (forall k, k <> "cache_control" -> JS.get (Request.clean_block b) k = JS.get b k).
Proof.
  unfold Request.clean_block.
  destruct (negb (JS.truthy b) || negb (JS.truthy_opt (JS.get b "cache_control"))) eqn:E.
  - split; [|reflexivity]. destruct b; simpl in E |- *; try reflexivity.
    apply negb_true_iff in E. exact E.
  - destruct b as [| | | | |fs]; simpl in E; rewrite ?orb_true_r in E; try discriminate E.
    simpl. split.
    + rewrite assoc_get_del, String.eqb_refl. reflexivity.
    + intros k Hk. rewrite assoc_get_del. destruct (String.eqb "cache_control" k) eqn:Ek; [|reflexivity].
      apply String.eqb_eq in Ek. congruence.
Qed.

(** [cleanCacheControl] keeps the messages one for one. A message whose
    [content] is an array comes back with the same fields, and each of its
    blocks has every field kept except [cache_control], which is no longer
    set to a truthy value. Every other message comes back unchanged. *)
Theorem cleanCacheControl_blocks (ms : list JS.jv) :
  exists ms', Request.cleanCacheControl (JS.JArr ms) = JS.JArr ms' /\
  Forall2 (fun m m' =>
    (forall bs, JS.get m "content" = Some (JS.JArr bs) ->
       (forall k, k <> "content" -> JS.get m' k = JS.get m k) /\
       exists bs', JS.get m' "content" = Some (JS.JArr bs') /\
       Forall2 (fun b b' => JS.truthy_opt (JS.get b' "cache_control") = false /\
                            forall k, k <> "cache_control" -> JS.get b' k = JS.get b k) bs bs') /\
    ((forall bs, JS.get m "content" <> Some (JS.JArr bs)) -> m' = m)) ms ms'.
Proof.
  eexists. split; [reflexivity|].
  induction ms as [|m ms IH]; simpl; constructor; [|exact IH].
  destruct (negb (JS.truthy m)) eqn:Et.
  { destruct m; simpl in Et |- *; split; try (intros; discriminate); try (intros; reflexivity). }
  destruct m as [| | | |l|fs]; simpl; split; try (intros; discriminate); try (intros; reflexivity).
  - intros bs Hc. rewrite Hc. split.
    + intros k Hk. apply assoc_get_set_other. exact Hk.
    + exists (map Request.clean_block bs). split; [apply assoc_get_set_same|].
      clear. induction bs as [|b bs IH]; constructor; [apply clean_block_spec|exact IH].
  - intros Hn. destruct (JS.assoc_get fs "content") as [[| | | |bs|]|] eqn:Hc; try reflexivity.
    exfalso. exact (Hn bs eq_refl).
Qed.

Lemma function_tools_params (ts : list JS.jv) (fts : list Request.tool) :
  Request.function_tools ts = Some fts ->
  Forall2 (fun t ft => exists p, ft = Request.FunctionTool (JS.get t "name") (JS.get t "description") p /\
                                 Request.wire_parameters (Request.tool_rawSchema t) = Some p) ts fts.
Proof.
  revert fts. induction ts as [|t ts IH]; intros fts H; simpl in H.
  - inversion H. constructor.
  - destruct (Request.wire_parameters (Request.tool_rawSchema t)) as [p|] eqn:Hp; [|discriminate].
    destruct (Request.function_tools ts) as [rest|]; [|discriminate].
    inversion H; subst. constructor; [exists p; split; [reflexivity|exact Hp]|]. apply IH. reflexivity.
Qed.

(** When [tools] is a non-empty array, the converted tool list is
    [{type: 'web_search'}] first when some declaration is named [WebSearch]
    or [web_search], then one function tool per remaining declaration, in
    order, skipping the blocked names [Task], [dispatch_agent], [computer]
    and [browser]. Each function tool keeps the declaration's [name] and
    [description], and its [parameters] is an object schema whose [type]
    is ["object"] and whose [properties] is an object. *)
Theorem convert_tools_entries (ts : list JS.jv) (tl : list Request.tool) :
  Request.convert_tools (Some (JS.JArr ts)) = Some (Some tl) ->
  exists fts,
    tl = (if existsb (fun t => Request.ws_name (JS.get t "name")) ts then [Request.WebSearchTool] else []) ++ fts /\
    Forall2 (fun t ft =>
      Request.ws_name (JS.get t "name") = false /\ Request.blocked (JS.get t "name") = false /\
      exists p fs ps, ft = Request.FunctionTool (JS.get t "name") (JS.get t "description") p /\
        p = JS.JObj fs /\ JS.assoc_get fs "type" = Some (JS.JStr "object") /\
        JS.assoc_get fs "properties" = Some (JS.JObj ps))
      (filter (fun t => negb (Request.ws_name (JS.get t "name")) && negb (Request.blocked (JS.get t "name"))) ts)
      fts.
Proof.
  unfold Request.convert_tools. destruct ts as [|t0 ts0]; [discriminate|].
  destruct (existsb Request.is_null (t0 :: ts0)); [discriminate|]. cbv zeta.
  destruct (Request.function_tools _) as [fts|] eqn:Hf; [|discriminate].
  intros H. inversion H; subst; clear H. exists fts. split; [reflexivity|].
  apply function_tools_params in Hf.
  assert (Hl : forall t, In t (filter (fun t => negb (Request.ws_name (JS.get t "name")) &&
                                              negb (Request.blocked (JS.get t "name"))) (t0 :: ts0)) ->
               Request.ws_name (JS.get t "name") = false /\ Request.blocked (JS.get t "name") = false).
  { intros t Ht. apply filter_In in Ht as [_ Ht]. apply andb_true_iff in Ht as [H1 H2].
    apply negb_true_iff in H1, H2. split; assumption. }
  revert Hf Hl.
  generalize (filter (fun t => negb (Request.ws_name (JS.get t "name")) && negb (Request.blocked (JS.get t "name")))
                     (t0 :: ts0)) as l.
  intros l Hf Hl.
  induction Hf as [|t ft l fts [p [-> Hp]] _ IH]; constructor.
  - destruct (Hl t (or_introl eq_refl)) as [H1 H2]. split; [exact H1|]. split; [exact H2|].
    unfold Request.wire_parameters in Hp.
    destruct (Schema.sanitizeSchema (Request.tool_rawSchema t)) as [s|]; [|discriminate].
    simpl in Hp. inversion Hp; subst.
    destruct (normalize_shape s) as [fs [ps [E [Et [Ep _]]]]].
    exists (Schema.normalizeFunctionParameters s), fs, ps. auto.
  - apply IH. intros; apply Hl; right; assumption.
Qed.

Lemma convert_tools_entries_witness :
  exists fts,
    Request.convert_tools (Some (JS.JArr [JS.JObj [("name", JS.JStr "WebSearch")]; JS.JObj [("name", JS.JStr "Task")];
      JS.JObj [("name", JS.JStr "Read"); ("input_schema", JS.JObj [("type", JS.JStr "object");
        ("properties", JS.JObj [("path", JS.JObj [("type", JS.JStr "string")])])])]]))
    = Some (Some (Request.WebSearchTool :: fts)) /\ List.length fts = 1%nat.
Proof.
  assert (H : Request.convert_tools (Some (JS.JArr [JS.JObj [("name", JS.JStr "WebSearch")]; JS.JObj [("name", JS.JStr "Task")];
      JS.JObj [("name", JS.JStr "Read"); ("input_schema", JS.JObj [("type", JS.JStr "object");
        ("properties", JS.JObj [("path", JS.JObj [("type", JS.JStr "string")])])])]]))
    = Some (Some [Request.WebSearchTool; Request.FunctionTool (Some (JS.JStr "Read")) None
        (JS.JObj [("type", JS.JStr "object"); ("properties", JS.JObj [("path", JS.JObj [("type", JS.JStr "string")])])])]))
    by (vm_compute; reflexivity).
  destruct (convert_tools_entries _ _ H) as [fts [E F]].
  exists fts. simpl in E. split.
  - rewrite H. rewrite E. reflexivity.
  - apply Forall2_length in F. rewrite <- F. reflexivity.
Defined.

(** ** Further properties of the Codex response conversion *)

Section ResponseProofs.

Variable JSON_parse : string -> option JS.jv.
Variable random_hex : nat -> string.

Lemma js_or_none_truthy (a : option JS.jv) (x : JS.jv) :
  JS.js_or a None = Some x -> JS.truthy x = true.
Proof.
  unfold JS.js_or. destruct (JS.truthy_opt a) eqn:E; [|discriminate].
  intros ->. exact E.
Qed.

Lemma tool_block_spec (x : JS.jv) (n : nat) :
  exists id nm inp, fst (Response.tool_block JSON_parse random_hex x n) = Response.BToolUse id nm inp /\
                    JS.truthy id = true.
Proof.
  unfold Response.tool_block. cbv zeta.
  destruct (JS.js_or (JS.js_or (JS.get x "call_id") (JS.get x "id")) None) as [v|] eqn:E.
  - do 3 eexists. split; [reflexivity|]. exact (js_or_none_truthy _ _ E).
  - do 3 eexists. split; [reflexivity|]. reflexivity.
Qed.

Lemma is_str_distinct (v : option JS.jv) (s1 s2 : string) :
  s1 <> s2 -> Schema.is_str v s1 = true -> Schema.is_str v s2 = false.
Proof.
  intros Hne H. destruct v as [[]|]; try discriminate. simpl in *.
  apply String.eqb_eq in H. subst. apply String.eqb_neq. exact Hne.
Qed.

Lemma part_blocks_tool (p : JS.jv) (n : nat) :
  existsb Response.is_tool_use (fst (Response.part_blocks JSON_parse random_hex p n)) =
  JS.truthy p && Schema.is_str (JS.get p "type") "function_call".
Proof.
  unfold Response.part_blocks. destruct (JS.truthy p); [|reflexivity]. simpl.
  destruct (Schema.is_str (JS.get p "type") "output_text") eqn:E1.
  { rewrite (is_str_distinct _ "output_text" "function_call" ltac:(discriminate) E1). simpl.
    destruct (JS.js_or _ None); reflexivity. }
  destruct (Schema.is_str (JS.get p "type") "text") eqn:E2.
  { rewrite (is_str_distinct _ "text" "function_call" ltac:(discriminate) E2). simpl.
    destruct (JS.js_or _ None); reflexivity. }
  simpl. destruct (Schema.is_str (JS.get p "type") "function_call"); [|reflexivity].
  destruct (tool_block_spec p n) as [id [nm [inp [E _]]]].
  destruct (Response.tool_block JSON_parse random_hex p n) as [b n']. simpl in E |- *. subst b. reflexivity.
Qed.

Lemma parts_blocks_tool (ps : list JS.jv) (n : nat) :
  existsb Response.is_tool_use (fst (Response.parts_blocks JSON_parse random_hex ps n)) =
  existsb (fun p => JS.truthy p && Schema.is_str (JS.get p "type") "function_call") ps.
Proof.
  revert n. induction ps as [|p ps IH]; intro n; simpl; [reflexivity|].
  pose proof (part_blocks_tool p n) as Hp.
  destruct (Response.part_blocks JSON_parse random_hex p n) as [bs1 n1].
  specialize (IH n1).
  destruct (Response.parts_blocks JSON_parse random_hex ps n1) as [bs2 n2].
  simpl in *. rewrite existsb_app, Hp, IH. reflexivity.
Qed.

Lemma item_blocks_tool (it : JS.jv) (n : nat) (bs : list Response.block) (n' : nat) :
  Response.item_blocks JSON_parse random_hex it n = Some (bs, n') ->
  (existsb Response.is_tool_use bs = true <->
   JS.truthy it = true /\
   (Schema.is_str (JS.get it "type") "function_call" = true \/
    exists parts, Response.iter (Response.content_of it) = Some parts /\
      existsb (fun p => JS.truthy p && Schema.is_str (JS.get p "type") "function_call") parts = true)).
Proof.
  unfold Response.item_blocks. destruct (JS.truthy it) eqn:Et; simpl.
  { destruct (Schema.is_str (JS.get it "type") "function_call") eqn:Ef.
    - destruct (tool_block_spec it n) as [id [nm [inp [E _]]]].
      destruct (Response.tool_block JSON_parse random_hex it n) as [b n1]. simpl in E. subst b.
      intros H. inversion H; subst. simpl. tauto.
    - destruct (Response.iter (Response.content_of it)) as [parts|] eqn:Ei; [|discriminate].
      intros H. injection H as H1. pose proof (parts_blocks_tool parts n) as Hp.
      rewrite H1 in Hp. simpl in Hp. rewrite Hp. split.
      + intros Hx. split; [reflexivity|]. right. exists parts. split; [reflexivity|exact Hx].
      + intros [_ [Hx|[parts' [Hq Hx]]]]; [discriminate|]. inversion Hq; subst. exact Hx. }
  intros H. inversion H; subst. simpl. split; [discriminate|]. intros [Hx _]; discriminate.
Qed.

Lemma items_blocks_tool (its : list JS.jv) : forall n bs n',
  Response.items_blocks JSON_parse random_hex its n = Some (bs, n') ->
  (existsb Response.is_tool_use bs = true <->
   exists it, In it its /\ JS.truthy it = true /\
   (Schema.is_str (JS.get it "type") "function_call" = true \/
    exists parts, Response.iter (Response.content_of it) = Some parts /\
      existsb (fun p => JS.truthy p && Schema.is_str (JS.get p "type") "function_call") parts = true)).
Proof.
  induction its as [|it its IH]; intros n bs n' H; simpl in H.
  - inversion H; subst. simpl. split; [discriminate|]. intros [x [[] _]].
  - destruct (Response.item_blocks JSON_parse random_hex it n) as [[bs1 n1]|] eqn:E1; [|discriminate].
    destruct (Response.items_blocks JSON_parse random_hex its n1) as [[bs2 n2]|] eqn:E2; [|discriminate].
    inversion H; subst. rewrite existsb_app, orb_true_iff.
    rewrite (item_blocks_tool _ _ _ _ E1), (IH _ _ _ E2). split.
    + intros [Hx|[x [Hx Hy]]]; [exists it; split; [left; reflexivity|exact Hx]|].
      exists x. split; [right; exact Hx|exact Hy].
    + intros [x [[<-|Hx] Hy]]; [left; exact Hy|right; exists x; split; [exact Hx|exact Hy]].
Qed.

Lemma items_blocks_none (its : list JS.jv) : forall n,
  Response.items_blocks JSON_parse random_hex its n = None <->
  exists it, In it its /\ JS.truthy it = true /\
    Schema.is_str (JS.get it "type") "function_call" = false /\
    Response.iter (Response.content_of it) = None.
Proof.
  assert (Hit : forall it n, Response.item_blocks JSON_parse random_hex it n = None <->
            JS.truthy it = true /\ Schema.is_str (JS.get it "type") "function_call" = false /\
            Response.iter (Response.content_of it) = None).
  { intros it n. unfold Response.item_blocks.
    destruct (JS.truthy it); simpl; [|split; [discriminate|intros [H _]; discriminate]].
    destruct (Schema.is_str (JS.get it "type") "function_call").
    - destruct (Response.tool_block _ _ it n). split; [discriminate|intros [_ [H _]]; discriminate].
    - destruct (Response.iter (Response.content_of it)); split; try discriminate;
        try (intros [_ [_ H]]; discriminate); intros _; auto. }
  induction its as [|it its IH]; intros n; simpl.
  - split; [discriminate|]. intros [x [[] _]].
  - destruct (Response.item_blocks JSON_parse random_hex it n) as [[bs1 n1]|] eqn:E1.
    + destruct (Response.items_blocks JSON_parse random_hex its n1) as [[bs2 n2]|] eqn:E2.
      * split; [discriminate|]. intros [x [[<-|Hx] Hy]].
        -- apply (proj2 (Hit _ n)) in Hy. congruence.
        -- assert (Hn : Response.items_blocks JSON_parse random_hex its n1 = None)
             by (apply (IH n1); exists x; auto).
           congruence.
      * split; [intros _|intros _; reflexivity].
        apply (IH n1) in E2 as [x [Hx Hy]]. exists x. split; [right; exact Hx|exact Hy].
    + split; [|intros _; reflexivity]. intros _. exists it. split; [left; reflexivity|].
      apply (proj1 (Hit it n)). exact E1.
Qed.

Lemma parts_blocks_ids (ps : list JS.jv) (n : nat) :
  Forall (fun b => match b with Response.BToolUse id _ _ => JS.truthy id = true | _ => True end)
         (fst (Response.parts_blocks JSON_parse random_hex ps n)).
Proof.
  revert n. induction ps as [|p ps IH]; intro n; simpl; [constructor|].
  assert (Hp : Forall (fun b => match b with Response.BToolUse id _ _ => JS.truthy id = true | _ => True end)
                      (fst (Response.part_blocks JSON_parse random_hex p n))).
  { unfold Response.part_blocks. destruct (JS.truthy p); simpl; [|constructor].
    destruct (_ || _).
    - destruct (JS.js_or _ None); repeat constructor.
    - destruct (Schema.is_str _ "function_call"); [|constructor].
      destruct (tool_block_spec p n) as [id [nm [inp [E Hid]]]].
      destruct (Response.tool_block JSON_parse random_hex p n) as [b n']. simpl in E |- *. subst b.
      repeat constructor. exact Hid. }
  destruct (Response.part_blocks JSON_parse random_hex p n) as [bs1 n1].
  specialize (IH n1).
  destruct (Response.parts_blocks JSON_parse random_hex ps n1) as [bs2 n2].
  simpl in *. apply Forall_app. auto.
Qed.

Lemma items_blocks_ids (its : list JS.jv) : forall n bs n',
  Response.items_blocks JSON_parse random_hex its n = Some (bs, n') ->
  Forall (fun b => match b with Response.BToolUse id _ _ => JS.truthy id = true | _ => True end) bs.
Proof.
  induction its as [|it its IH]; intros n bs n' H; simpl in H.
  - inversion H; subst. constructor.
  - destruct (Response.item_blocks JSON_parse random_hex it n) as [[bs1 n1]|] eqn:E1; [|discriminate].
    destruct (Response.items_blocks JSON_parse random_hex its n1) as [[bs2 n2]|] eqn:E2; [|discriminate].
    inversion H; subst. apply Forall_app. split; [|exact (IH _ _ _ E2)].
    unfold Response.item_blocks in E1. destruct (JS.truthy it); simpl in E1; [|inversion E1; constructor].
    destruct (Schema.is_str _ "function_call").
    + destruct (tool_block_spec it n) as [id [nm [inp [E Hid]]]].
      destruct (Response.tool_block JSON_parse random_hex it n) as [b n0]. simpl in E. subst b.
      inversion E1; subst. repeat constructor. exact Hid.
    + destruct (Response.iter _) as [parts|]; [|discriminate]. injection E1 as E1.
      pose proof (parts_blocks_ids parts n) as Hp. rewrite E1 in Hp. exact Hp.
Qed.

(** [extractResponseContent] (and so [convertCodexResponseToAnthropic])
    throws exactly when the response is truthy and either its [output]
    (after the [response.output || response.response?.output || []]
    fall-back) is not an array or string, or some truthy item that is not a
    [function_call] has a truthy [content] that is not an array or string. *)
Theorem extractResponseContent_throws (response : JS.jv) (n : nat) :
  Response.extractResponseContent JSON_parse random_hex response n = None <->
  JS.truthy response = true /\
  (Response.iter (Response.output_of response) = None \/
   exists items, Response.iter (Response.output_of response) = Some items /\
     exists it, In it items /\ JS.truthy it = true /\
       Schema.is_str (JS.get it "type") "function_call" = false /\
       Response.iter (Response.content_of it) = None).
Proof.
  unfold Response.extractResponseContent.
  destruct (JS.truthy response); simpl; [|split; [discriminate|intros [H _]; discriminate]].
  destruct (Response.iter (Response.output_of response)) as [items|] eqn:Ei.
  - assert (Hr : (exists it, In it items /\ JS.truthy it = true /\
                   Schema.is_str (JS.get it "type") "function_call" = false /\
                   Response.iter (Response.content_of it) = None) ->
                 Response.items_blocks JSON_parse random_hex items n = None)
      by apply items_blocks_none.
    destruct (Response.items_blocks JSON_parse random_hex items n) as [[bs n']|] eqn:E.
    + split.
      * destruct bs; [destruct (JS.get response "output_text") as [[]|]|]; discriminate.
      * intros [_ [H|[items' [H1 H2]]]]; [discriminate|]. injection H1 as <-.
        apply Hr in H2. congruence.
    + split; [intros _; split; [reflexivity|right; exists items; split; [reflexivity|]]|intros _; reflexivity].
      apply (items_blocks_none items n). exact E.
  - split; [intros _; split; [reflexivity|left; reflexivity]|intros _; reflexivity].
Qed.

(** A converted Codex response always has at least one content block, and
    its [stop_reason] is ["tool_use"] exactly when the response's [output]
    holds a truthy [function_call] item, or a truthy item whose [content]
    holds a truthy [function_call] part; otherwise it is ["end_turn"].
    Every [tool_use] block has a truthy [id]. *)
Theorem convertCodexResponse_stop_reason (response : JS.jv) (n : nat) (m : Response.message) (n' : nat) :
  Response.convertCodexResponseToAnthropic JSON_parse random_hex response n = Some (m, n') ->
  Response.content m <> [] /\
  (Response.stop_reason m = "tool_use" <->
   exists items, Response.iter (Response.output_of response) = Some items /\
     exists it, In it items /\ JS.truthy it = true /\
     (Schema.is_str (JS.get it "type") "function_call" = true \/
      exists parts, Response.iter (Response.content_of it) = Some parts /\
        exists p, In p parts /\ JS.truthy p = true /\
                  Schema.is_str (JS.get p "type") "function_call" = true)) /\
  (Response.stop_reason m = "tool_use" \/ Response.stop_reason m = "end_turn") /\
  Forall (fun b => match b with Response.BToolUse id _ _ => JS.truthy id = true | _ => True end)
         (Response.content m).
Proof.
  unfold Response.convertCodexResponseToAnthropic. cbv zeta.
  destruct (Response.extractResponseContent JSON_parse random_hex response n) as [[bs n1]|] eqn:E;
    [|discriminate].
  intros H. inversion H; subst; clear H. simpl.
  assert (Hx : (existsb Response.is_tool_use bs = true <->
     exists items, Response.iter (Response.output_of response) = Some items /\
     exists it, In it items /\ JS.truthy it = true /\
     (Schema.is_str (JS.get it "type") "function_call" = true \/
      exists parts, Response.iter (Response.content_of it) = Some parts /\
        exists p, In p parts /\ JS.truthy p = true /\
                  Schema.is_str (JS.get p "type") "function_call" = true)) /\
     bs <> [] /\
     Forall (fun b => match b with Response.BToolUse id _ _ => JS.truthy id = true | _ => True end) bs).
  { unfold Response.extractResponseContent in E.
    assert (Hno : forall items m, Response.iter (Response.output_of response) = Some items ->
              Response.items_blocks JSON_parse random_hex items n = Some ([], m) ->
              ~ exists it, In it items /\ JS.truthy it = true /\
                (Schema.is_str (JS.get it "type") "function_call" = true \/
                 exists parts, Response.iter (Response.content_of it) = Some parts /\
                 exists p, In p parts /\ JS.truthy p = true /\
                           Schema.is_str (JS.get p "type") "function_call" = true)).
    { intros items m _ Hb [it [Hin [Ht Hf]]].
      assert (Hc : existsb Response.is_tool_use [] = true).
      { apply (proj2 (items_blocks_tool _ _ _ _ Hb)). exists it. split; [exact Hin|]. split; [exact Ht|].
        destruct Hf as [Hf|[parts [Hp [p [Hpin [Hpt Hpf]]]]]]; [left; exact Hf|right].
        exists parts. split; [exact Hp|]. apply existsb_exists. exists p. split; [exact Hpin|].
        rewrite Hpt, Hpf. reflexivity. }
      discriminate Hc. }
    destruct (JS.truthy response) eqn:Ht; simpl in E.
    2: { inversion E; subst. split; [|split; [discriminate|repeat constructor]].
         split; [discriminate|]. intros [items [Hi Hex]].
         unfold Response.output_of, Response.or_default, JS.js_or in Hi.
         destruct response; simpl in Ht, Hi; try discriminate; inversion Hi; subst;
           destruct Hex as [it [[] _]]. }
    destruct (Response.iter (Response.output_of response)) as [items|] eqn:Ei; [|discriminate].
    destruct (Response.items_blocks JSON_parse random_hex items n) as [[bs0 n0]|] eqn:Eb; [|discriminate].
    destruct bs0 as [|b0 bs0].
    - assert (Hbs : bs = [Response.BText (JS.JStr "")] \/ exists s, bs = [Response.BText (JS.JStr s)]).
      { destruct (JS.get response "output_text") as [[]|]; inversion E; subst; eauto. }
      split; [|split; [destruct Hbs as [->|[s' ->]]; discriminate|
                       destruct Hbs as [->|[s' ->]]; repeat constructor]].
      split; [destruct Hbs as [->|[s' ->]]; discriminate|].
      intros [items' [Hi' Hex]]. injection Hi' as <-. exfalso. exact (Hno items n0 eq_refl Eb Hex).
    - inversion E; subst. split; [|split; [discriminate|exact (items_blocks_ids _ _ _ _ Eb)]].
      rewrite (items_blocks_tool _ _ _ _ Eb). split.
      + intros [it [Hin [Htr Hf]]]. exists items. split; [reflexivity|]. exists it.
        split; [exact Hin|]. split; [exact Htr|].
        destruct Hf as [Hf|[parts [Hp Hq]]]; [left; exact Hf|right]. exists parts. split; [exact Hp|].
        apply existsb_exists in Hq as [p [Hpin Hpq]]. apply andb_true_iff in Hpq as [Hpt Hpf].
        exists p. auto.
      + intros [items' [Hi' [it [Hin [Htr Hf]]]]]. injection Hi' as <-. exists it.
        split; [exact Hin|]. split; [exact Htr|].
        destruct Hf as [Hf|[parts [Hp [p [Hpin [Hpt Hpf]]]]]]; [left; exact Hf|right].
        exists parts. split; [exact Hp|]. apply existsb_exists. exists p. split; [exact Hpin|].
        rewrite Hpt, Hpf. reflexivity. }
  destruct Hx as [Hx [Hne Hids]].
  split; [exact Hne|]. split; [|split; [|exact Hids]].
  - rewrite <- Hx. destruct (existsb Response.is_tool_use bs); split; intros H; try reflexivity; discriminate.
  - destruct (existsb Response.is_tool_use bs); [left|right]; reflexivity.
Qed.

End ResponseProofs.

Lemma convertCodexResponse_stop_reason_witness :
  Response.convertCodexResponseToAnthropic (fun _ => Some (JS.JObj [])) (fun _ => "0") codex_tool_response 0 =
  Some (Response.mkMessage [Response.BToolUse (JS.JStr "toolu_0") (JS.JStr "Read") (JS.JObj [])]
          "tool_use" (JS.JNum 5) (JS.JNum 0), 1%nat) /\
  Response.content (Response.mkMessage [Response.BToolUse (JS.JStr "toolu_0") (JS.JStr "Read") (JS.JObj [])]
          "tool_use" (JS.JNum 5) (JS.JNum 0)) <> [].
Proof.
  assert (H : Response.convertCodexResponseToAnthropic (fun _ => Some (JS.JObj [])) (fun _ => "0") codex_tool_response 0 =
    Some (Response.mkMessage [Response.BToolUse (JS.JStr "toolu_0") (JS.JStr "Read") (JS.JObj [])]
          "tool_use" (JS.JNum 5) (JS.JNum 0), 1%nat)) by (vm_compute; reflexivity).
  split; [exact H|]. exact (proj1 (convertCodexResponse_stop_reason _ _ _ _ _ _ H)).
Defined.

(** ** Further properties of the Cursor responses *)

Lemma collect_calls (rs : list (option Cursor.result)) :
  snd (CursorBuild.collect rs) =
  flat_map (fun r => match r with
                     | Some res => match Cursor.r_toolCall res with Some tc => [tc] | None => [] end
                     | None => [] end) rs.
Proof.
  induction rs as [|r rs IH]; simpl; [reflexivity|].
  destruct (CursorBuild.collect rs) as [ts cs]. simpl in *. rewrite IH. reflexivity.
Qed.

Lemma cursor_step_saw (s : Cursor.state) (r : option Cursor.result) :
  Cursor.sawToolCall (fst (Cursor.step s r)) =
  Cursor.sawToolCall s || match r with
                          | Some res => match Cursor.r_toolCall res with Some _ => true | None => false end
                          | None => false end.
Proof.
  unfold Cursor.step.
  destruct r as [res|]; simpl; [|rewrite orb_false_r; reflexivity].
  destruct (Cursor.r_toolCall res) as [tc|]; simpl.
  - unfold Cursor.ensureMessageStart. cbv zeta.
    destruct (Cursor.started s); simpl;
    match goal with |- context [match ?x with Some _ => _ | None => _ end] =>
      destruct x as [[[]]|]; simpl end;
    repeat match goal with |- context [if ?b then _ else _] => destruct b; simpl end;
    rewrite orb_true_r; reflexivity.
  - rewrite orb_false_r. destruct (truthy_str (Cursor.r_text res)); [|reflexivity].
    unfold Cursor.ensureMessageStart. destruct (Cursor.started s); simpl;
    destruct (Cursor.close_all _); destruct (Cursor.textBlockIndex _); reflexivity.
Qed.

Lemma cursor_run_saw (rs : list (option Cursor.result)) : forall s,
  Cursor.sawToolCall (fst (Cursor.run s rs)) =
  Cursor.sawToolCall s ||
  existsb (fun r => match r with
                    | Some res => match Cursor.r_toolCall res with Some _ => true | None => false end
                    | None => false end) rs.
Proof.
  induction rs as [|r rs IH]; intros s; simpl; [rewrite orb_false_r; reflexivity|].
  pose proof (cursor_step_saw s r) as Hs.
  destruct (Cursor.step s r) as [s1 e1]. specialize (IH s1).
  destruct (Cursor.run s1 rs) as [s2 e2]. simpl in *. rewrite IH, Hs, orb_assoc. reflexivity.
Qed.

Lemma flat_map_calls_nil (rs : list (option Cursor.result)) :
  flat_map (fun r => match r with
                     | Some res => match Cursor.r_toolCall res with Some tc => [tc] | None => [] end
                     | None => [] end) rs = [] <->
  existsb (fun r => match r with
                    | Some res => match Cursor.r_toolCall res with Some _ => true | None => false end
                    | None => false end) rs = false.
Proof.
  induction rs as [|[res|] rs IH]; simpl; [tauto| |exact IH].
  destruct (Cursor.r_toolCall res); simpl; [split; discriminate|exact IH].
Qed.

Section CursorBuildProofs.

Variable ext : list byte -> option Cursor.result.
Variable gunzip : list byte -> option (list byte).
Variable jparse : list byte -> option JS.jv.
Variable JSON_parse : string -> option JS.jv.
Variable random_hex : nat -> string.

(** Whenever the streaming Cursor adapter completes, the non-streaming
    [buildAnthropicResponseFromCursor] on the same buffer returns a
    response whose [stop_reason] is the one the stream's [message_delta]
    carries. Both throw the same status-coded error for a payload carrying
    an embedded error. *)
Theorem cursor_build_matches_stream (buf : list byte) (n : nat) :
  (forall es, Frames.streamCursorResponseToAnthropic ext gunzip jparse buf = Cursor.Ok es ->
     exists m n', CursorBuild.buildAnthropicResponseFromCursor ext gunzip jparse JSON_parse random_hex buf n
                  = Cursor.Ok (m, n') /\
                  In (MessageDelta (Response.stop_reason m)) es) /\
  (forall st msg, Frames.streamCursorResponseToAnthropic ext gunzip jparse buf = Cursor.Throw (Some st) msg <->
     CursorBuild.buildAnthropicResponseFromCursor ext gunzip jparse JSON_parse random_hex buf n
     = Cursor.Throw (Some st) msg).
Proof.
  unfold Frames.streamCursorResponseToAnthropic, CursorBuild.buildAnthropicResponseFromCursor.
  destruct (Frames.parseCursorResponseBuffer ext gunzip jparse buf) as [rs|st m| | |].
  2-5: split; [intros es H; discriminate H|intros st' msg; split; intro H; inversion H; reflexivity].
  split.
  - intros es H. unfold Cursor.streamResults in H.
    pose proof (cursor_run_saw rs Cursor.init) as Hsaw.
    destruct (Cursor.run Cursor.init rs) as [s es0]. simpl in Hsaw.
    unfold Cursor.finish in H. destruct (Cursor.started s); simpl in H; [|discriminate].
    inversion H; subst; clear H.
    destruct (CursorBuild.buildFromResults JSON_parse random_hex rs n) as [m n'] eqn:Eb.
    exists m, n'. split; [reflexivity|].
    assert (Hr : Response.stop_reason m =
                 if Cursor.sawToolCall s then "tool_use" else "end_turn").
    { unfold CursorBuild.buildFromResults in Eb. pose proof (collect_calls rs) as Hc.
      destruct (CursorBuild.collect rs) as [texts calls]. simpl in Hc. subst calls.
      destruct (CursorBuild.tool_use_blocks JSON_parse random_hex _ n) as [c2 n2].
      inversion Eb; subst; clear Eb. simpl. rewrite Hsaw.
      destruct (flat_map _ rs) eqn:Ef.
      - apply flat_map_calls_nil in Ef. rewrite Ef. reflexivity.
      - destruct (existsb _ rs) eqn:Ex; [reflexivity|].
        apply flat_map_calls_nil in Ex. rewrite Ex in Ef. discriminate. }
    rewrite Hr. apply in_or_app. right. apply in_or_app. right. apply in_or_app. right. left. reflexivity.
  - intros st msg. unfold Cursor.streamResults.
    destruct (Cursor.run Cursor.init rs) as [s es0]. unfold Cursor.finish.
    destruct (Cursor.started s); simpl; split; discriminate.
Qed.

Lemma tool_use_blocks_spec (tcs : list Cursor.tool_call) : forall n,
  List.length (fst (CursorBuild.tool_use_blocks JSON_parse random_hex tcs n)) = List.length tcs /\
  Forall (fun b => exists id nm inp, b = Response.BToolUse id nm inp /\
                                     JS.truthy id = true /\ JS.truthy nm = true)
         (fst (CursorBuild.tool_use_blocks JSON_parse random_hex tcs n)).
Proof.
  induction tcs as [|tc tcs IH]; intros n; simpl; [split; [reflexivity|constructor]|].
  assert (Hb : exists id nm inp, fst (CursorBuild.tool_use_block JSON_parse random_hex tc n) =
                 Response.BToolUse id nm inp /\ JS.truthy id = true /\ JS.truthy nm = true).
  { unfold CursorBuild.tool_use_block. cbv zeta.
    assert (Hn : JS.truthy (JS.JStr (match truthy_str (Cursor.tc_name tc) with
                                     | Some nm => nm | None => "tool" end)) = true).
    { unfold truthy_str. destruct (Cursor.tc_name tc) as [s|]; [|reflexivity].
      simpl. destruct (String.eqb s "") eqn:E; [reflexivity|]. simpl. rewrite E. reflexivity. }
    unfold truthy_str at 2. destruct (Cursor.tc_id tc) as [i|]; simpl.
    - destruct (String.eqb i "") eqn:E; simpl; do 3 eexists; (split; [reflexivity|]); split;
        try exact Hn; try reflexivity. simpl. rewrite E. reflexivity.
    - do 3 eexists. split; [reflexivity|]. split; [reflexivity|exact Hn]. }
  destruct (CursorBuild.tool_use_block JSON_parse random_hex tc n) as [b n1].
  specialize (IH n1).
  destruct (CursorBuild.tool_use_blocks JSON_parse random_hex tcs n1) as [bs n2].
  simpl in *. destruct IH as [IH1 IH2]. split; [rewrite IH1; reflexivity|constructor; assumption].
Qed.

Lemma tool_use_blocks_calls (tcs : list Cursor.tool_call) : forall n,
  Forall2 (fun tc b => exists k, b = fst (CursorBuild.tool_use_block JSON_parse random_hex tc k))
          tcs (fst (CursorBuild.tool_use_blocks JSON_parse random_hex tcs n)).
Proof.
  induction tcs as [|tc tcs IH]; intros n; simpl; [constructor|].
  destruct (CursorBuild.tool_use_block JSON_parse random_hex tc n) as [b n1] eqn:E.
  specialize (IH n1).
  destruct (CursorBuild.tool_use_blocks JSON_parse random_hex tcs n1) as [bs n2].
  simpl in *. constructor; [exists n; rewrite E; reflexivity|exact IH].
Qed.

(** The response [buildAnthropicResponseFromCursor] builds from the
    parsed results holds at most one text block, first, followed by one
    [tool_use] block per result carrying a [toolCall], in order: the i-th
    [tool_use] block is the block [tool_use_block] makes of the i-th
    [toolCall] (its name, its parsed arguments, and its id or a fresh
    [toolu_] id), and calls with the same id are not merged; each
    [tool_use] block has a truthy [id] and [name]. The content is never empty, and [stop_reason] is
    ["tool_use"] exactly when some result carries a [toolCall]. *)
Theorem cursor_build_blocks (rs : list (option Cursor.result)) (n : nat) :
  let m := fst (CursorBuild.buildFromResults JSON_parse random_hex rs n) in
  Response.content m <> [] /\
  (exists pre tools, Response.content m = pre ++ tools /\ List.length pre <= 1 /\
     Forall (fun b => Response.is_tool_use b = false) pre /\
     List.length tools = List.length (filter (fun r => match r with
                           | Some res => match Cursor.r_toolCall res with Some _ => true | None => false end
                           | None => false end) rs) /\
     Forall (fun b => exists id nm inp, b = Response.BToolUse id nm inp /\
                                        JS.truthy id = true /\ JS.truthy nm = true) tools /\
     Forall2 (fun tc b => exists k, b = fst (CursorBuild.tool_use_block JSON_parse random_hex tc k))
       (flat_map (fun r => match r with
                  | Some res => match Cursor.r_toolCall res with Some tc => [tc] | None => [] end
                  | None => [] end) rs) tools) /\
  (Response.stop_reason m = "tool_use" <->
   exists res tc, In (Some res) rs /\ Cursor.r_toolCall res = Some tc) /\
  (Response.stop_reason m = "tool_use" \/ Response.stop_reason m = "end_turn").
Proof.
  cbv zeta. unfold CursorBuild.buildFromResults. pose proof (collect_calls rs) as Hc.
  destruct (CursorBuild.collect rs) as [texts calls]. simpl in Hc. subst calls.
  pose proof (tool_use_blocks_spec (flat_map (fun r => match r with
                     | Some res => match Cursor.r_toolCall res with Some tc => [tc] | None => [] end
                     | None => [] end) rs) n) as [Hl Hf].
  pose proof (tool_use_blocks_calls (flat_map (fun r => match r with
                     | Some res => match Cursor.r_toolCall res with Some tc => [tc] | None => [] end
                     | None => [] end) rs) n) as Hf2.
  destruct (CursorBuild.tool_use_blocks JSON_parse random_hex _ n) as [c2 n2]. simpl in Hl, Hf, Hf2 |- *.
  assert (Hlen : List.length (flat_map (fun r => match r with
                     | Some res => match Cursor.r_toolCall res with Some tc => [tc] | None => [] end
                     | None => [] end) rs) =
                 List.length (filter (fun r => match r with
                     | Some res => match Cursor.r_toolCall res with Some _ => true | None => false end
                     | None => false end) rs)).
  { clear. induction rs as [|[res|] rs IH]; simpl; [reflexivity| |exact IH].
    destruct (Cursor.r_toolCall res); simpl; [rewrite IH; reflexivity|exact IH]. }
  assert (Hex : flat_map (fun r => match r with
                     | Some res => match Cursor.r_toolCall res with Some tc => [tc] | None => [] end
                     | None => [] end) rs <> [] <->
                exists res tc, In (Some res) rs /\ Cursor.r_toolCall res = Some tc).
  { clear. induction rs as [|[res|] rs IH]; simpl.
    - split; [intro H; exfalso; apply H; reflexivity|intros [res [tc [[] _]]]].
    - destruct (Cursor.r_toolCall res) as [tc|] eqn:E; simpl.
      + split; [intros _; exists res, tc; auto|intros _; discriminate].
      + rewrite IH. split; intros [r [tc [H1 H2]]]; exists r, tc; [auto|].
        destruct H1 as [H1|H1]; [inversion H1; subst; congruence|auto].
    - rewrite IH. split; intros [r [tc [H1 H2]]]; exists r, tc; [auto|].
      destruct H1 as [H1|H1]; [discriminate|auto]. }
  set (pre := match texts with [] => [] | _ => [Response.BText (JS.JStr (CursorBuild.concat_str texts))] end).
  assert (Hpre : List.length pre <= 1 /\ Forall (fun b => Response.is_tool_use b = false) pre).
  { unfold pre. destruct texts; simpl; split; auto. }
  split; [destruct (pre ++ c2); discriminate|].
  split.
  - destruct (pre ++ c2) as [|b bs] eqn:Ec.
    + apply app_eq_nil in Ec as [-> ->]. simpl in Hl.
      destruct (flat_map _ rs) eqn:E; [|discriminate].
      exists [Response.BText (JS.JStr "")], []. split; [reflexivity|]. split; [auto|].
      split; [repeat constructor|]. split; [exact Hlen|].
      split; constructor.
    + exists pre, c2. split; [symmetry; exact Ec|]. split; [exact (proj1 Hpre)|]. split; [exact (proj2 Hpre)|].
      split; [rewrite Hl; exact Hlen|]. split; [exact Hf|exact Hf2].
  - rewrite <- Hex. destruct (flat_map _ rs); simpl.
    + split; [split; [discriminate|intros H; exfalso; apply H; reflexivity]|right; reflexivity].
    + split; [split; [intros _; discriminate|reflexivity]|left; reflexivity].
Qed.

End CursorBuildProofs.

Lemma cursor_build_matches_stream_witness :
  exists m n',
    CursorBuild.buildAnthropicResponseFromCursor
      (fun _ => Some (Cursor.mkResult None (Some (Cursor.mkToolCall (Some "t1") (Some "Read") (Some "{}") true)) None))
      (fun _ => None) (fun _ => None) (fun _ => Some (JS.JObj [])) (fun _ => "0")
      [x00; x00; x00; x00; x01; x41] 0 = Cursor.Ok (m, n') /\
    In (MessageDelta (Response.stop_reason m))
      (match Frames.streamCursorResponseToAnthropic
               (fun _ => Some (Cursor.mkResult None (Some (Cursor.mkToolCall (Some "t1") (Some "Read") (Some "{}") true)) None))
               (fun _ => None) (fun _ => None) [x00; x00; x00; x00; x01; x41] with
       | Cursor.Ok evs => evs
       | Cursor.Throw _ _ => []
       end).
Proof.
  exact (proj1 (cursor_build_matches_stream
                  (fun _ => Some (Cursor.mkResult None (Some (Cursor.mkToolCall (Some "t1") (Some "Read") (Some "{}") true)) None))
                  (fun _ => None) (fun _ => None) (fun _ => Some (JS.JObj [])) (fun _ => "0")
                  [x00; x00; x00; x00; x01; x41] 0) _ eq_refl).
Defined.

(** ** Properties of [normalizeCursorModel] *)

Lemma lower_char_slash (a : ascii) : CursorModel.lower_char a = "/"%char <-> a = "/"%char.
Proof.
  unfold CursorModel.lower_char. cbv zeta.
  destruct (Nat.leb 65 (nat_of_ascii a) && Nat.leb (nat_of_ascii a) 90) eqn:E.
  - apply andb_true_iff in E as [E1 E2]. apply Nat.leb_le in E1, E2. split.
    + intros H. apply (f_equal nat_of_ascii) in H.
      rewrite nat_ascii_embedding in H by lia. change (nat_of_ascii "/") with 47 in H. lia.
    + intros ->. change (nat_of_ascii "/") with 47 in E1. lia.
  - tauto.
Qed.

Lemma toLowerCase_app (p m : string) :
  CursorModel.toLowerCase (p ++ m) = (CursorModel.toLowerCase p ++ CursorModel.toLowerCase m)%string.
Proof. induction p as [|c p IH]; simpl; [reflexivity|]. rewrite IH. reflexivity. Qed.

Lemma startsWith_app (q m : string) : CursorModel.startsWith (q ++ m) q = true.
Proof.
  induction q as [|c q IH]; simpl; [destruct m; reflexivity|]. rewrite Ascii.eqb_refl. exact IH.
Qed.

Lemma startsWith_split (s q : string) :
  CursorModel.startsWith (CursorModel.toLowerCase s) q = true ->
  exists p m, s = (p ++ m)%string /\ CursorModel.toLowerCase p = q.
Proof.
  revert s. induction q as [|c q IH]; intros s H.
  - exists ""%string, s. split; reflexivity.
  - destruct s as [|d s]; simpl in H; [discriminate|].
    apply andb_true_iff in H as [Hc Hq]. apply Ascii.eqb_eq in Hc.
    destruct (IH s Hq) as [p [m [-> Hp]]].
    exists (String d p), m. split; [reflexivity|]. simpl. rewrite Hp, Hc. reflexivity.
Qed.

Lemma substring_all (m : string) : substring 0 (String.length m) m = m.
Proof. induction m as [|c m IH]; simpl; [reflexivity|]. rewrite IH. reflexivity. Qed.

Lemma substring_app (q m : string) (n : nat) :
  substring (String.length q) n (q ++ m) = substring 0 n m.
Proof. induction q as [|c q IH]; simpl; [reflexivity|]. exact IH. Qed.

Lemma length_str_app (q m : string) :
  String.length (q ++ m) = String.length q + String.length m.
Proof. induction q as [|c q IH]; simpl; [reflexivity|]. rewrite IH. reflexivity. Qed.

Lemma slice_from_app (q m : string) :
  CursorModel.slice_from (q ++ m) (Z.of_nat (String.length q)) = m.
Proof.
  unfold CursorModel.slice_from. cbv zeta. rewrite length_str_app.
  replace (Z.of_nat (String.length q) <? 0)%Z with false by (symmetry; apply Z.ltb_ge; lia).
  rewrite Z.min_l by lia. rewrite Nat2Z.id.
  replace (String.length q + String.length m - String.length q) with (String.length m) by lia.
  rewrite substring_app. apply substring_all.
Qed.

Lemma not_slash (a : ascii) (x : ascii) :
  CursorModel.lower_char a = x -> x <> "/"%char -> Ascii.eqb "/" a = false.
Proof.
  intros Ha Hx. apply Ascii.eqb_neq. intros <-. apply Hx. rewrite <- Ha. reflexivity.
Qed.

(** [normalizeCursorModel] removes exactly one leading [cu/] or [cursor/],
    in any letter case ([CU/gpt-5] becomes [gpt-5]); a name with neither
    prefix comes back unchanged. So [isValidCursorModel] accepts a
    prefixed name exactly when the rest is one of the models. *)
Theorem normalizeCursorModel_prefix :
  (forall p m, (CursorModel.toLowerCase p = "cu/" \/ CursorModel.toLowerCase p = "cursor/")%string ->
     CursorModel.normalizeCursorModel (p ++ m) = m /\
     (forall models, CursorModel.isValidCursorModel (p ++ m) models = true <-> In m models)) /\
  (forall s, ~ (exists p m, s = (p ++ m)%string /\
                  (CursorModel.toLowerCase p = "cu/" \/ CursorModel.toLowerCase p = "cursor/")%string) ->
     CursorModel.normalizeCursorModel s = s).
Proof.
  split.
  - intros p m Hp.
    assert (Hn : CursorModel.normalizeCursorModel (p ++ m) = m).
    { unfold CursorModel.normalizeCursorModel. cbv zeta. rewrite toLowerCase_app.
      destruct Hp as [Hp|Hp]; rewrite Hp, startsWith_app, ?orb_true_l, ?orb_true_r;
        destruct (String.eqb (p ++ m) "") eqn:E0;
        try (destruct p; simpl in Hp; discriminate).
      - destruct p as [|a [|b [|c [|d p]]]]; simpl in Hp; try discriminate.
        injection Hp as Ha Hb Hc. apply (proj1 (lower_char_slash c)) in Hc. subst c.
        replace (CursorModel.indexOf _ "/" + 1)%Z
          with (Z.of_nat (String.length (String a (String b "/"))))
          by (cbn [String.append CursorModel.indexOf];
              rewrite (not_slash a "c" Ha), (not_slash b "u" Hb) by discriminate; reflexivity).
        apply slice_from_app.
      - destruct p as [|a1 [|a2 [|a3 [|a4 [|a5 [|a6 [|a7 [|a8 p]]]]]]]]; simpl in Hp; try discriminate.
        injection Hp as H1 H2 H3 H4 H5 H6 H7. apply (proj1 (lower_char_slash a7)) in H7. subst a7.
        replace (CursorModel.indexOf _ "/" + 1)%Z
          with (Z.of_nat (String.length (String a1 (String a2 (String a3 (String a4 (String a5 (String a6 "/"))))))))
          by (cbn [String.append CursorModel.indexOf];
              rewrite (not_slash a1 "c" H1), (not_slash a2 "u" H2), (not_slash a3 "r" H3),
                      (not_slash a4 "s" H4), (not_slash a5 "o" H5), (not_slash a6 "r" H6) by discriminate;
              reflexivity).
        apply slice_from_app. }
    split; [exact Hn|]. intros models. unfold CursorModel.isValidCursorModel. rewrite Hn.
    rewrite existsb_exists. split.
    + intros [x [Hx E]]. apply String.eqb_eq in E. subst x. exact Hx.
    + intros Hm. exists m. split; [exact Hm|apply String.eqb_refl].
  - intros s Hs. unfold CursorModel.normalizeCursorModel.
    destruct (String.eqb s ""); [reflexivity|]. cbv zeta.
    destruct (CursorModel.startsWith (CursorModel.toLowerCase s) "cu/") eqn:E1.
    { exfalso. apply Hs. destruct (startsWith_split _ _ E1) as [p [m [E Hp]]]. exists p, m. auto. }
    destruct (CursorModel.startsWith (CursorModel.toLowerCase s) "cursor/") eqn:E2.
    { exfalso. apply Hs. destruct (startsWith_split _ _ E2) as [p [m [E Hp]]]. exists p, m. auto. }
    reflexivity.
Qed.

Lemma normalizeCursorModel_prefix_witness :
  CursorModel.normalizeCursorModel ("CU/" ++ "gpt-5") = "gpt-5"%string /\
  CursorModel.isValidCursorModel ("Cursor/" ++ "gpt-5") ["gpt-5"%string] = true.
Proof.
  split.
  - exact (proj1 (proj1 normalizeCursorModel_prefix "CU/" "gpt-5" (or_introl eq_refl))).
  - apply (proj2 (proj1 normalizeCursorModel_prefix "Cursor/" "gpt-5" (or_intror eq_refl))).
    left. reflexivity.
Defined.

(** ** Properties of [collectCodexStreamToAnthropicResponse] *)

Lemma split_nl_nonempty (s : string) : Collect.split_nl s <> [].
Proof.
  destruct s as [|c s]; simpl; [discriminate|].
  destruct (Ascii.eqb c "010"); [discriminate|].
  destruct (Collect.split_nl s); discriminate.
Qed.

Lemma split_nl_free (s : string) : nl_free s = true -> Collect.split_nl s = [s].
Proof.
  induction s as [|c s IH]; simpl; [reflexivity|].
  intros H. apply andb_true_iff in H as [Hc Hs]. apply negb_true_iff in Hc.
  rewrite Hc, (IH Hs). reflexivity.
Qed.

Lemma split_nl_last_free (s : string) : nl_free (last (Collect.split_nl s) ""%string) = true.
Proof.
  induction s as [|c s IH]; simpl; [reflexivity|].
  pose proof (split_nl_nonempty s) as Hne.
  destruct (Ascii.eqb c "010") eqn:Ec.
  - destruct (Collect.split_nl s) as [|r rs]; [congruence|]. exact IH.
  - destruct (Collect.split_nl s) as [|r [|r2 rs]]; [congruence| |exact IH].
    simpl in *. rewrite Ec, IH. reflexivity.
Qed.

Lemma split_nl_app (s t : string) :
  Collect.split_nl (s ++ t) =
  removelast (Collect.split_nl s) ++ Collect.split_nl (last (Collect.split_nl s) ""%string ++ t).
Proof.
  induction s as [|c s IH]; simpl; [reflexivity|].
  pose proof (split_nl_nonempty s) as Hne.
  rewrite IH. destruct (Ascii.eqb c "010") eqn:Ec.
  - destruct (Collect.split_nl s) as [|r rs]; [congruence|]. reflexivity.
  - destruct (Collect.split_nl s) as [|r [|r2 rs]]; [congruence| |reflexivity].
    simpl. rewrite Ec. reflexivity.
Qed.

Lemma str_app_nil_r (s : string) : (s ++ "")%string = s.
Proof. induction s as [|c s IH]; simpl; [reflexivity|]. rewrite IH. reflexivity. Qed.

Lemma str_app_assoc (a b c : string) : (a ++ (b ++ c))%string = ((a ++ b) ++ c)%string.
Proof. induction a as [|x a IH]; simpl; [reflexivity|]. rewrite IH. reflexivity. Qed.

Lemma collect_bind_assoc {A B C : Type} (r : Collect.res A) (f : A -> Collect.res B)
  (g : B -> Collect.res C) :
  Collect.bind (Collect.bind r f) g = Collect.bind r (fun x => Collect.bind (f x) g).
Proof. destruct r; reflexivity. Qed.

Lemma handle_lines_app JSON_parse random_hex (a b : list string) s :
  Collect.handle_lines JSON_parse random_hex (a ++ b) s =
  Collect.bind (Collect.handle_lines JSON_parse random_hex a s)
               (Collect.handle_lines JSON_parse random_hex b).
Proof.
  revert s. induction a as [|l a IH]; intros s; simpl; [reflexivity|].
  destruct (Collect.handle_line JSON_parse random_hex l s); simpl; auto.
Qed.

Lemma read_loop_lines JSON_parse random_hex (b : string) (cs : list string) s :
  nl_free b = true ->
  Collect.read_loop JSON_parse random_hex b cs s =
  Collect.handle_lines JSON_parse random_hex
    (removelast (Collect.split_nl (b ++ stream_text cs))) s.
Proof.
  revert b s. induction cs as [|c cs IH]; intros b s Hb.
  - simpl. rewrite str_app_nil_r, (split_nl_free b Hb). reflexivity.
  - simpl. rewrite str_app_assoc, (split_nl_app (b ++ c)).
    rewrite removelast_app by apply split_nl_nonempty.
    rewrite handle_lines_app.
    destruct (Collect.handle_lines JSON_parse random_hex (removelast (Collect.split_nl (b ++ c))) s);
      simpl; auto.
    apply IH. apply split_nl_last_free.
Qed.

Lemma collect_lines JSON_parse random_hex (cs : list string) :
  Collect.collectCodexStreamToAnthropicResponse JSON_parse random_hex cs =
  Collect.bind (Collect.handle_lines JSON_parse random_hex
                  (removelast (Collect.split_nl (stream_text cs))) Collect.init)
               (Collect.finish JSON_parse).
Proof.
  unfold Collect.collectCodexStreamToAnthropicResponse.
  rewrite (read_loop_lines JSON_parse random_hex "" cs Collect.init eq_refl). reflexivity.
Qed.

(** The collected response depends only on the whole text of the body: it
    is what handling the newline-separated lines of that text, in order,
    gives, leaving out the piece after the last newline. So how the body
    is cut into chunks does not matter, and text after the last newline
    is never handled: appending text without a newline changes nothing. *)
Theorem collect_line_framing JSON_parse random_hex :
  (forall cs1 cs2, stream_text cs1 = stream_text cs2 ->
     Collect.collectCodexStreamToAnthropicResponse JSON_parse random_hex cs1 =
     Collect.collectCodexStreamToAnthropicResponse JSON_parse random_hex cs2) /\
  (forall cs,
     Collect.collectCodexStreamToAnthropicResponse JSON_parse random_hex cs =
     Collect.bind (Collect.handle_lines JSON_parse random_hex
                     (removelast (Collect.split_nl (stream_text cs))) Collect.init)
                  (Collect.finish JSON_parse)) /\
  (forall cs x, nl_free x = true ->
     Collect.collectCodexStreamToAnthropicResponse JSON_parse random_hex (cs ++ [x]) =
     Collect.collectCodexStreamToAnthropicResponse JSON_parse random_hex cs).
Proof.
  split; [|split].
  - intros cs1 cs2 E. rewrite !collect_lines, E. reflexivity.
  - apply collect_lines.
  - intros cs x Hx. rewrite !collect_lines.
    replace (stream_text (cs ++ [x])) with (stream_text cs ++ x)%string.
    2:{ unfold stream_text. rewrite fold_right_app. simpl. rewrite str_app_nil_r.
        induction cs as [|c cs IH]; simpl; [reflexivity|]. rewrite <- IH, str_app_assoc. reflexivity. }
    rewrite split_nl_app, removelast_app by apply split_nl_nonempty.
    pose proof (split_nl_last_free (stream_text cs)) as Hy.
    revert Hy. generalize (last (Collect.split_nl (stream_text cs)) ""%string). intros y Hy.
    rewrite (split_nl_free (y ++ x)).
    + simpl. rewrite app_nil_r. reflexivity.
    + clear cs. induction y as [|c y IH]; simpl in *; [exact Hx|].
      apply andb_true_iff in Hy as [H1 H2]. rewrite H1, (IH H2). reflexivity.
Qed.

Lemma tc_get_set_same (m : list (string * Collect.tool_call)) k v :
  Collect.tc_get (Collect.tc_set m k v) k = Some v.
Proof.
  induction m as [|[k' v'] m IH]; simpl.
  - rewrite String.eqb_refl. reflexivity.
  - destruct (String.eqb k k') eqn:E; simpl.
    + rewrite E. reflexivity.
    + rewrite E. exact IH.
Qed.

Lemma tc_get_set_some (m : list (string * Collect.tool_call)) k v k' :
  Collect.tc_get m k' <> None -> Collect.tc_get (Collect.tc_set m k v) k' <> None.
Proof.
  induction m as [|[k1 v1] m IH]; simpl; [congruence|].
  destruct (String.eqb k k1) eqn:E; simpl.
  - destruct (String.eqb k' k1); congruence.
  - destruct (String.eqb k' k1); [congruence|exact IH].
Qed.

Lemma join_opt_cons sep x y l :
  JS.join_opt sep (x :: y :: l) =
  match (match x with None | Some JS.JNull => Some "" | Some v => JS.js_String v end),
        JS.join_opt sep (y :: l) with
  | Some a, Some b => Some (a ++ sep ++ b)%string
  | _, _ => None
  end.
Proof. reflexivity. Qed.

Lemma join_opt_some sep l :
  Forall (fun x => match x with Some v => JS.js_String v <> None | None => True end) l ->
  exists t, JS.join_opt sep l = Some t.
Proof.
  induction l as [|x l IH]; intros H; [eexists; reflexivity|].
  inversion H as [|? ? Hx Hl]; subst. destruct (IH Hl) as [t Ht].
  assert (Ex : exists a, match x with None | Some JS.JNull => Some ""%string
                                  | Some v => JS.js_String v end = Some a).
  { destruct x as [v|]; [|eexists; reflexivity].
    destruct (JS.js_String v) as [a|] eqn:E; [|exfalso; exact (Hx eq_refl)].
    destruct v; eexists; first [exact E|reflexivity]. }
  destruct Ex as [a Ea].
  destruct l as [|y l'].
  - exists a. exact Ea.
  - rewrite join_opt_cons, Ea, Ht. eexists. reflexivity.
Qed.

Lemma join_some l :
  Forall (fun d => JS.js_String d <> None) l -> exists t, Collect.join l = Some t.
Proof.
  intros H. unfold Collect.join. apply join_opt_some.
  induction H as [|d l Hd _ IH]; simpl; constructor; assumption.
Qed.

Lemma chunks_text_ok chs :
  forallb chunk_ok chs = true -> Forall (fun d => JS.js_String d <> None) (flat_map chunk_text chs).
Proof.
  induction chs as [|ch chs IH]; simpl; [constructor|]. intros H.
  apply andb_true_iff in H as [H1 H2]. apply Forall_app. split; [|apply IH; exact H2].
  unfold chunk_ok in H1. cbv zeta in H1.
  apply andb_true_iff in H1 as [H1 _]. apply andb_true_iff in H1 as [H1 _].
  apply Forall_forall. intros d Hd. rewrite forallb_forall in H1. specialize (H1 d Hd).
  destruct (JS.js_String d); discriminate.
Qed.

Section CollectProofs.

Variable JSON_parse : string -> option JS.jv.
Variable random_hex : nat -> string.

Lemma moves_refl s : order_owned s -> moves s s [] 0.
Proof. intros H. split; [exact H|]. rewrite app_nil_r. split; [reflexivity|lia]. Qed.

Lemma moves_trans s1 s2 s3 tx1 tx2 n1 n2 :
  moves s1 s2 tx1 n1 -> moves s2 s3 tx2 n2 -> moves s1 s3 (tx1 ++ tx2) (n1 + n2).
Proof.
  intros [_ [T1 L1]] [O2 [T2 L2]]. split; [exact O2|]. split.
  - rewrite T2, T1, app_assoc. reflexivity.
  - lia.
Qed.

Lemma set_owned s k t :
  order_owned s -> forall id, In id (Collect.toolCallOrder s) ->
  exists k', JS.js_String id = Some k' /\
             Collect.tc_get (Collect.tc_set (Collect.toolCalls s) k t) k' <> None.
Proof.
  intros H id Hid. destruct (H id Hid) as [k' [E1 E2]].
  exists k'. split; [exact E1|]. apply tc_get_set_some, E2.
Qed.

Ltac moves_fin :=
  first [apply moves_refl; assumption
        |split; [intros id Hid; apply set_owned; assumption|];
         simpl; rewrite app_nil_r; split; [reflexivity|lia]].

Lemma on_text_delta_moves data s s' :
  Collect.on_text_delta data s = Collect.ROk s' -> order_owned s ->
  moves s s' (let d := Response.or_default (JS.get data "delta") (JS.JStr "") in
              if JS.truthy d then [d] else []) 0.
Proof.
  unfold Collect.on_text_delta. cbv zeta.
  destruct (JS.truthy _); intros E Ho; injection E as <-.
  - split; [exact Ho|]. simpl. split; [reflexivity|lia].
  - apply moves_refl, Ho.
Qed.

Lemma on_item_added_moves ch data s s' :
  Collect.on_item_added random_hex ch data s = Collect.ROk s' -> order_owned s ->
  moves s s' []
    (if match JS.js_or (JS.get data "item") (JS.get ch "item") with
        | Some item => JS.truthy item && Schema.is_str (JS.get item "type") "function_call"
        | None => false
        end then 1 else 0).
Proof.
  unfold Collect.on_item_added.
  destruct (JS.js_or (JS.get data "item") (JS.get ch "item")) as [item|];
    [|intros E Ho; injection E as <-; apply moves_refl, Ho].
  destruct (JS.truthy item && Schema.is_str (JS.get item "type") "function_call");
    [|intros E Ho; injection E as <-; apply moves_refl, Ho].
  destruct (match JS.js_or (JS.get item "call_id") None with
            | Some c => (c, Collect.rand s)
            | None => (JS.JStr ("toolu_" ++ random_hex (Collect.rand s)), S (Collect.rand s))
            end) as [cid r].
  destruct (JS.js_String _) as [k|] eqn:Ek; [|discriminate].
  destruct (String.eqb k "__proto__"); [discriminate|].
  intros E Ho. injection E as <-. split; [|simpl; rewrite app_nil_r, length_app; simpl; split; [reflexivity|lia]].
  intros id Hid. simpl in Hid. apply in_app_or in Hid as [Hid|[<-|[]]].
  - apply set_owned; assumption.
  - exists k. split; [exact Ek|]. simpl. rewrite tc_get_set_same. discriminate.
Qed.

Lemma on_args_delta_moves ch data s s' :
  Collect.on_args_delta ch data s = Collect.ROk s' -> order_owned s -> moves s s' [] 0.
Proof.
  unfold Collect.on_args_delta. cbv zeta.
  destruct (JS.js_or (JS.get data "item_id") (JS.get ch "item_id")) as [iid|];
    [|intros E Ho; injection E as <-; apply moves_refl, Ho].
  destruct (JS.truthy iid); [|intros E Ho; injection E as <-; apply moves_refl, Ho].
  destruct (JS.js_String iid) as [k|]; [|discriminate].
  destruct (Collect.lookup _ _); intros E Ho; try discriminate; injection E as <-; moves_fin.
Qed.

Lemma on_args_done_moves ch data s s' :
  Collect.on_args_done ch data s = Collect.ROk s' -> order_owned s -> moves s s' [] 0.
Proof.
  unfold Collect.on_args_done. cbv zeta.
  destruct (JS.js_or (JS.get data "item_id") (JS.get ch "item_id")) as [iid|];
    [|intros E Ho; injection E as <-; apply moves_refl, Ho].
  destruct (JS.truthy iid); [|intros E Ho; injection E as <-; apply moves_refl, Ho].
  destruct (JS.js_String iid) as [k|]; [|discriminate].
  destruct (Collect.lookup _ _), (JS.js_or (JS.get data "arguments") (JS.get ch "arguments")) as [a|];
    try destruct a; intros E Ho; try discriminate; injection E as <-; moves_fin.
Qed.

Lemma on_completed_moves ch data s s' :
  Collect.on_completed ch data s = Collect.ROk s' -> order_owned s -> moves s s' [] 0.
Proof.
  unfold Collect.on_completed. intros E Ho. injection E as <-.
  split; [exact Ho|]. simpl. rewrite app_nil_r. split; [reflexivity|lia].
Qed.

Lemma step_when (b : bool) (f : Collect.state -> Collect.res Collect.state) tx n s s' :
  (forall s s', f s = Collect.ROk s' -> order_owned s -> moves s s' tx n) ->
  (if b then f s else Collect.ROk s) = Collect.ROk s' -> order_owned s ->
  moves s s' (if b then tx else []) (if b then n else 0).
Proof.
  intros Hf E Ho. destruct b; [exact (Hf _ _ E Ho)|]. injection E as <-. apply moves_refl, Ho.
Qed.

Lemma bind_ok {A B : Type} (r : Collect.res A) (g : A -> Collect.res B) b :
  Collect.bind r g = Collect.ROk b -> exists a, r = Collect.ROk a /\ g a = Collect.ROk b.
Proof. destruct r as [a| | |]; simpl; try discriminate. intros E. exists a. auto. Qed.

Lemma handle_chunk_chain ch s :
  ch <> JS.JNull ->
  Collect.handle_chunk random_hex ch s =
  let et := chunk_event_type ch in
  let data := chunk_data ch in
  Collect.bind (if Schema.is_str et "response.output_text.delta"
                then Collect.on_text_delta data s else Collect.ROk s) (fun s1 =>
  Collect.bind (if Schema.is_str et "response.output_item.added"
                then Collect.on_item_added random_hex ch data s1 else Collect.ROk s1) (fun s2 =>
  Collect.bind (if Schema.is_str et "response.function_call_arguments.delta"
                then Collect.on_args_delta ch data s2 else Collect.ROk s2) (fun s3 =>
  Collect.bind (if Schema.is_str et "response.function_call_arguments.done"
                then Collect.on_args_done ch data s3 else Collect.ROk s3) (fun s4 =>
  if Schema.is_str et "response.completed"
  then Collect.on_completed ch data s4 else Collect.ROk s4)))).
Proof. destruct ch; [congruence|reflexivity..]. Qed.

Lemma handle_chunk_moves ch s s' :
  Collect.handle_chunk random_hex ch s = Collect.ROk s' -> order_owned s ->
  moves s s' (chunk_text ch) (if chunk_adds_call ch then 1 else 0).
Proof.
  intros E Ho.
  assert (Hn : ch <> JS.JNull) by (intros ->; discriminate E).
  rewrite (handle_chunk_chain ch s Hn) in E. cbv zeta in E.
  apply bind_ok in E as [s1 [E1 E]]. apply bind_ok in E as [s2 [E2 E]].
  apply bind_ok in E as [s3 [E3 E]]. apply bind_ok in E as [s4 [E4 E5]].
  pose proof (step_when _ _ _ _ _ _ (on_text_delta_moves (chunk_data ch)) E1 Ho) as M1.
  pose proof (step_when _ _ _ _ _ _ (on_item_added_moves ch (chunk_data ch)) E2 (proj1 M1)) as M2.
  pose proof (step_when _ _ _ _ _ _ (on_args_delta_moves ch (chunk_data ch)) E3 (proj1 M2)) as M3.
  pose proof (step_when _ _ _ _ _ _ (on_args_done_moves ch (chunk_data ch)) E4 (proj1 M3)) as M4.
  pose proof (step_when _ _ _ _ _ _ (on_completed_moves ch (chunk_data ch)) E5 (proj1 M4)) as M5.
  pose proof (moves_trans _ _ _ _ _ _ _ (moves_trans _ _ _ _ _ _ _ (moves_trans _ _ _ _ _ _ _
                (moves_trans _ _ _ _ _ _ _ M1 M2) M3) M4) M5) as M.
  unfold chunk_text, chunk_adds_call.
  destruct (Schema.is_str (chunk_event_type ch) "response.output_text.delta"),
           (Schema.is_str (chunk_event_type ch) "response.output_item.added"),
           (Schema.is_str (chunk_event_type ch) "response.function_call_arguments.delta"),
           (Schema.is_str (chunk_event_type ch) "response.function_call_arguments.done"),
           (Schema.is_str (chunk_event_type ch) "response.completed");
    simpl in M; rewrite ?app_nil_r, ?Nat.add_0_r in M; exact M.
Qed.

Lemma handle_lines_moves ls s s' :
  Collect.handle_lines JSON_parse random_hex ls s = Collect.ROk s' -> order_owned s ->
  moves s s' (flat_map chunk_text (lines_chunks JSON_parse ls))
         (List.length (filter chunk_adds_call (lines_chunks JSON_parse ls))).
Proof.
  revert s. induction ls as [|l ls IH]; intros s E Ho.
  - injection E as <-. apply moves_refl, Ho.
  - simpl in E. apply bind_ok in E as [s1 [E1 E]].
    unfold Collect.handle_line in E1. unfold lines_chunks. simpl.
    destruct (Collect.line_chunk JSON_parse l) as [ch|].
    + pose proof (handle_chunk_moves _ _ _ E1 Ho) as M1.
      pose proof (moves_trans _ _ _ _ _ _ _ M1 (IH _ E (proj1 M1))) as M.
      simpl. fold (lines_chunks JSON_parse ls). destruct (chunk_adds_call ch); exact M.
    + injection E1 as <-. exact (IH _ E Ho).
Qed.

Lemma ok_when (b : bool) (f : Collect.state -> Collect.res Collect.state) s :
  (b = true -> exists s', f s = Collect.ROk s') ->
  exists s', (if b then f s else Collect.ROk s) = Collect.ROk s'.
Proof. destruct b; intros H; [apply H; reflexivity|eexists; reflexivity]. Qed.

Lemma bind_exists {A B : Type} (r : Collect.res A) (g : A -> Collect.res B) :
  (exists a, r = Collect.ROk a) -> (forall a, exists b, g a = Collect.ROk b) ->
  exists b, Collect.bind r g = Collect.ROk b.
Proof. intros [a ->] H. apply H. Qed.

Lemma on_item_added_ok ch data s :
  (forall item, JS.js_or (JS.get data "item") (JS.get ch "item") = Some item ->
     JS.truthy item && Schema.is_str (JS.get item "type") "function_call" = true ->
     item_key_ok item = true) ->
  exists s', Collect.on_item_added random_hex ch data s = Collect.ROk s'.
Proof.
  intros H. unfold Collect.on_item_added.
  destruct (JS.js_or (JS.get data "item") (JS.get ch "item")) as [item|];
    [|eexists; reflexivity].
  destruct (JS.truthy item && _) eqn:Ht; [|eexists; reflexivity].
  specialize (H item eq_refl Ht). unfold item_key_ok, added_key_ok in H.
  unfold Response.or_default.
  destruct (JS.js_or (JS.get item "id") None) as [v|];
    destruct (JS.js_or (JS.get item "call_id") None) as [c|]; cbv iota beta.
  4: { simpl. eexists. reflexivity. }
  all: destruct (JS.js_String _) as [k|]; [|discriminate];
       destruct (String.eqb k "__proto__"); [discriminate|eexists; reflexivity].
Qed.

Lemma on_args_delta_ok ch data s :
  args_key_ok (JS.js_or (JS.get data "item_id") (JS.get ch "item_id")) = true ->
  exists s', Collect.on_args_delta ch data s = Collect.ROk s'.
Proof.
  unfold args_key_ok, Collect.on_args_delta. cbv zeta. intros H.
  destruct (JS.js_or (JS.get data "item_id") (JS.get ch "item_id")) as [iid|];
    [|eexists; reflexivity].
  destruct (JS.truthy iid); [|eexists; reflexivity].
  destruct (JS.js_String iid) as [k|]; [|discriminate].
  unfold Collect.lookup. destruct (Collect.tc_get _ k); [eexists; reflexivity|].
  destruct (existsb _ _); [discriminate|eexists; reflexivity].
Qed.

Lemma on_args_done_ok ch data s :
  args_key_ok (JS.js_or (JS.get data "item_id") (JS.get ch "item_id")) = true ->
  exists s', Collect.on_args_done ch data s = Collect.ROk s'.
Proof.
  unfold args_key_ok, Collect.on_args_done. cbv zeta. intros H.
  destruct (JS.js_or (JS.get data "item_id") (JS.get ch "item_id")) as [iid|];
    [|eexists; reflexivity].
  destruct (JS.truthy iid); [|eexists; reflexivity].
  destruct (JS.js_String iid) as [k|]; [|discriminate].
  unfold Collect.lookup. destruct (Collect.tc_get _ k).
  - destruct (JS.js_or (JS.get data "arguments") (JS.get ch "arguments")) as [a|];
      [destruct a|]; eexists; reflexivity.
  - destruct (existsb _ _); [discriminate|].
    destruct (JS.js_or (JS.get data "arguments") (JS.get ch "arguments")); eexists; reflexivity.
Qed.

Lemma handle_chunk_ok ch s :
  ch <> JS.JNull -> chunk_ok ch = true ->
  exists s', Collect.handle_chunk random_hex ch s = Collect.ROk s'.
Proof.
  intros Hn Hok. rewrite (handle_chunk_chain ch s Hn). cbv zeta.
  unfold chunk_ok in Hok. cbv zeta in Hok.
  apply andb_true_iff in Hok as [Hok H3]. apply andb_true_iff in Hok as [_ H2].
  apply bind_exists; [apply ok_when; intros _; unfold Collect.on_text_delta;
                      destruct (JS.truthy _); eexists; reflexivity|intros s1].
  apply bind_exists; [apply ok_when; intros Ha; apply on_item_added_ok; intros item Ei Ht|intros s2].
  { unfold chunk_adds_call in H2. rewrite Ha, Ei in H2. cbn iota beta in H2.
    rewrite Ht in H2. exact H2. }
  apply bind_exists; [apply ok_when; intros Hd; apply on_args_delta_ok|intros s3].
  { rewrite Hd in H3. exact H3. }
  apply bind_exists; [apply ok_when; intros Hd; apply on_args_done_ok|intros s4].
  { rewrite Hd, orb_true_r in H3. exact H3. }
  apply ok_when. intros _. eexists. reflexivity.
Qed.

Lemma handle_lines_ok ls s :
  forallb chunk_ok (lines_chunks JSON_parse ls) = true ->
  ~ In JS.JNull (lines_chunks JSON_parse ls) ->
  exists s', Collect.handle_lines JSON_parse random_hex ls s = Collect.ROk s'.
Proof.
  revert s. induction ls as [|l ls IH]; intros s Hok Hn; simpl; [eexists; reflexivity|].
  unfold lines_chunks in Hok, Hn. simpl in Hok, Hn. unfold Collect.handle_line.
  destruct (Collect.line_chunk JSON_parse l) as [ch|]; simpl in Hok, Hn.
  - apply andb_true_iff in Hok as [H1 H2].
    apply bind_exists.
    + apply handle_chunk_ok; [intros ->; apply Hn; left; reflexivity|exact H1].
    + intros a. apply IH; [exact H2|intros H; apply Hn; right; exact H].
  - apply IH; assumption.
Qed.

Lemma handle_lines_null ls s :
  forallb chunk_ok (lines_chunks JSON_parse ls) = true ->
  In JS.JNull (lines_chunks JSON_parse ls) ->
  Collect.handle_lines JSON_parse random_hex ls s = Collect.RThrow.
Proof.
  revert s. induction ls as [|l ls IH]; intros s Hok Hn; simpl; [contradiction|].
  unfold lines_chunks in Hok, Hn. simpl in Hok, Hn. unfold Collect.handle_line.
  destruct (Collect.line_chunk JSON_parse l) as [ch|]; simpl in Hok, Hn.
  - apply andb_true_iff in Hok as [H1 H2].
    assert (Hd : ch = JS.JNull \/ ch <> JS.JNull) by (destruct ch; [left|right..]; congruence).
    destruct Hd as [->|Hd]; [reflexivity|].
    destruct (handle_chunk_ok ch s Hd H1) as [s1 E1]. rewrite E1. simpl.
    apply IH; [exact H2|]. destruct Hn as [Hn|Hn]; [congruence|exact Hn].
  - apply IH; assumption.
Qed.

Lemma tool_blocks_owned s ids :
  (forall id, In id ids ->
     exists k, JS.js_String id = Some k /\ Collect.tc_get (Collect.toolCalls s) k <> None) ->
  exists tbs, Collect.tool_blocks JSON_parse s ids = Collect.ROk tbs /\
              Forall (fun b => Response.is_tool_use b = true) tbs /\
              List.length tbs = List.length ids.
Proof.
  induction ids as [|i ids IH]; intros H.
  - exists []. split; [reflexivity|]. split; [constructor|reflexivity].
  - destruct IH as [tbs [E [F L]]]; [intros id Hid; apply H; right; exact Hid|].
    destruct (H i (or_introl eq_refl)) as [k [Ek Et]].
    simpl. unfold Collect.tool_block. rewrite Ek.
    destruct (Collect.tc_get (Collect.toolCalls s) k) as [t|]; [|congruence].
    simpl. rewrite E. simpl. eexists. split; [reflexivity|]. split.
    + constructor; [reflexivity|exact F].
    + simpl. rewrite L. reflexivity.
Qed.

Lemma finish_owned s text :
  order_owned s -> Collect.join (Collect.textParts s) = Some text ->
  exists tbs, Collect.tool_blocks JSON_parse s (Collect.toolCallOrder s) = Collect.ROk tbs /\
    Forall (fun b => Response.is_tool_use b = true) tbs /\
    List.length tbs = List.length (Collect.toolCallOrder s) /\
    Collect.finish JSON_parse s =
    Collect.ROk (Response.mkMessage
      (match (if String.eqb text "" then [] else [Response.BText (JS.JStr text)]) ++ tbs with
       | [] => [Response.BText (JS.JStr "")]
       | c => c
       end)
      (if Nat.eqb (List.length (Collect.toolCallOrder s)) 0 then "end_turn" else "tool_use")
      (Response.or_default (Some (Collect.usage_input s)) (JS.JNum 0))
      (Response.or_default (Some (Collect.usage_output s)) (JS.JNum 0))).
Proof.
  intros Ho Ht. destruct (tool_blocks_owned s (Collect.toolCallOrder s) Ho) as [tbs [E [F L]]].
  exists tbs. split; [exact E|]. split; [exact F|]. split; [exact L|].
  unfold Collect.finish. rewrite Ht, E. simpl. do 2 f_equal.
  assert (Hx : existsb Response.is_tool_use tbs = negb (Nat.eqb (List.length tbs) 0)).
  { destruct tbs as [|b tbs]; [reflexivity|]. inversion F as [|? ? Hb]; subst. simpl. rewrite Hb. reflexivity. }
  rewrite <- L.
  destruct (String.eqb text ""); simpl.
  - destruct tbs as [|b tbs]; [reflexivity|]. rewrite Hx. reflexivity.
  - rewrite Hx. destruct tbs; reflexivity.
Qed.

End CollectProofs.

Lemma init_owned : order_owned Collect.init.
Proof. intros id []. Qed.

(** [collectCodexStreamToAnthropicResponse] rejects because of a [null]
    payload and for no other reason, on the bodies whose chunks all pass
    [chunk_ok]: every text delta converts to a string, no item id is
    [__proto__], and no [item_id] of an arguments chunk names a member of
    [Object.prototype] or fails to convert. On such a body none of whose
    complete [data:] lines parses to [null] it resolves, and a body with
    such a line rejects. *)
Theorem collect_null_chunk JSON_parse random_hex cs :
  forallb chunk_ok (stream_chunks JSON_parse cs) = true ->
  (~ In JS.JNull (stream_chunks JSON_parse cs) ->
     exists m, Collect.collectCodexStreamToAnthropicResponse JSON_parse random_hex cs = Collect.ROk m) /\
  (In JS.JNull (stream_chunks JSON_parse cs) ->
     Collect.collectCodexStreamToAnthropicResponse JSON_parse random_hex cs = Collect.RThrow).
Proof.
  rewrite collect_lines. change (stream_chunks JSON_parse cs) with
    (lines_chunks JSON_parse (removelast (Collect.split_nl (stream_text cs)))).
  intros Hok. split; intros Hn.
  - destruct (handle_lines_ok JSON_parse random_hex _ Collect.init Hok Hn) as [s E].
    pose proof (handle_lines_moves JSON_parse random_hex _ _ _ E init_owned) as [Ho [T _]].
    destruct (join_some (Collect.textParts s)) as [text Ht].
    { rewrite T. apply chunks_text_ok. exact Hok. }
    destruct (finish_owned JSON_parse s text Ho Ht) as [tbs [_ [_ [_ F]]]].
    rewrite E. simpl. rewrite F. eexists. reflexivity.
  - rewrite (handle_lines_null JSON_parse random_hex _ Collect.init Hok Hn). reflexivity.
Qed.

(** On a body whose chunks all pass [chunk_ok] and none of which is
    [null], the collected response exists. It holds the text of all truthy
    [response.output_text.delta] chunks as one text block, placed first,
    when that text is not empty. It is followed by one [tool_use] block
    per [response.output_item.added] chunk of a [function_call] item, so
    an item id announced twice gives two blocks. The content is never
    empty, and the stop reason is [tool_use] exactly when some such item
    was announced. *)
Theorem collect_content JSON_parse random_hex cs :
  forallb chunk_ok (stream_chunks JSON_parse cs) = true ->
  ~ In JS.JNull (stream_chunks JSON_parse cs) ->
  let chs := stream_chunks JSON_parse cs in
  let n := List.length (filter chunk_adds_call chs) in
  exists m text tbs,
    Collect.collectCodexStreamToAnthropicResponse JSON_parse random_hex cs = Collect.ROk m /\
    Collect.join (flat_map chunk_text chs) = Some text /\
    Forall (fun b => Response.is_tool_use b = true) tbs /\
    List.length tbs = n /\
    Response.content m =
      match (if String.eqb text "" then [] else [Response.BText (JS.JStr text)]) ++ tbs with
      | [] => [Response.BText (JS.JStr "")]
      | c => c
      end /\
    Response.stop_reason m = (if Nat.eqb n 0 then "end_turn" else "tool_use").
Proof.
  rewrite collect_lines. change (stream_chunks JSON_parse cs) with
    (lines_chunks JSON_parse (removelast (Collect.split_nl (stream_text cs)))).
  intros Hok Hn. cbv zeta.
  destruct (handle_lines_ok JSON_parse random_hex _ Collect.init Hok Hn) as [s E].
  pose proof (handle_lines_moves JSON_parse random_hex _ _ _ E init_owned) as [Ho [T L]].
  simpl in T, L.
  destruct (join_some (Collect.textParts s)) as [text Ht].
  { rewrite T. apply chunks_text_ok. exact Hok. }
  destruct (finish_owned JSON_parse s text Ho Ht) as [tbs [_ [Ft [Lt F]]]].
  rewrite E. simpl. rewrite F.
  eexists _, text, tbs. rewrite <- T, <- L. split; [reflexivity|]. split; [exact Ht|].
  split; [exact Ft|]. split; [exact Lt|]. split; reflexivity.
Qed.

Lemma collect_line_framing_witness :
  Collect.collectCodexStreamToAnthropicResponse sample_parse (fun _ => "0"%string) ["da"; "ta: T" ++ nl]%string =
  Collect.collectCodexStreamToAnthropicResponse sample_parse (fun _ => "0"%string) ["data: T" ++ nl]%string /\
  Collect.collectCodexStreamToAnthropicResponse sample_parse (fun _ => "0"%string)
    (app ["data: T" ++ nl] ["data: null"])%string =
  Collect.collectCodexStreamToAnthropicResponse sample_parse (fun _ => "0"%string) ["data: T" ++ nl]%string.
Proof.
  split.
  - apply (proj1 (collect_line_framing sample_parse (fun _ => "0"%string))). reflexivity.
  - apply (proj2 (proj2 (collect_line_framing sample_parse (fun _ => "0"%string)))). reflexivity.
Defined.

Lemma collect_null_chunk_witness :
  Collect.collectCodexStreamToAnthropicResponse sample_parse (fun _ => "0"%string) ["data: null" ++ nl]%string
    = Collect.RThrow /\
  exists m, Collect.collectCodexStreamToAnthropicResponse sample_parse (fun _ => "0"%string)
              ["data: T" ++ nl]%string = Collect.ROk m.
Proof.
  split.
  - apply (proj2 (collect_null_chunk sample_parse (fun _ => "0"%string) ["data: null" ++ nl]%string
                    ltac:(vm_compute; reflexivity))).
    vm_compute. left. reflexivity.
  - apply (proj1 (collect_null_chunk sample_parse (fun _ => "0"%string) ["data: T" ++ nl]%string
                    ltac:(vm_compute; reflexivity))).
    vm_compute. intros [H|[]]. discriminate H.
Defined.

Lemma collect_content_witness :
  exists m, Collect.collectCodexStreamToAnthropicResponse sample_parse (fun _ => "0"%string)
              ["data: T" ++ nl; "data: F" ++ nl]%string = Collect.ROk m /\
            Response.stop_reason m = "tool_use"%string.
Proof.
  pose proof (collect_content sample_parse (fun _ => "0"%string) ["data: T" ++ nl; "data: F" ++ nl]%string
                ltac:(vm_compute; reflexivity)
                ltac:(vm_compute; intros [H|[H|[]]]; discriminate H)) as H.
  cbv zeta in H. destruct H as [m [text [tbs [E [_ [_ [_ [_ Hs]]]]]]]].
  exists m. split; [exact E|]. rewrite Hs. vm_compute. reflexivity.
Defined.

(** ** Properties of [convertAnthropicToCursorRequest] *)

Section CursorRequestProofs.

Variable JSON_stringify : JS.jv -> string.
Variable random_hex : nat -> string.

Ltac destruct_match_in H :=
  match type of H with
  | context [match ?x with _ => _ end] => destruct x
  end.

Lemma block_step_none acc b :
  CursorRequest.block_step JSON_stringify random_hex acc b = None <->
  result_throws JSON_stringify b = true.
Proof.
  destruct acc as [[pending calls] n]. unfold CursorRequest.block_step, result_throws.
  destruct (JS.truthy b); simpl; [|split; discriminate].
  destruct (Schema.is_str (JS.get b "type") "tool_result"); simpl.
  - destruct (CursorRequest.or_call_id random_hex _ n) as [id n'].
    destruct (CursorRequest.toolResultToOutput JSON_stringify (JS.get b "content"));
      split; (discriminate || (intros _; reflexivity)).
  - destruct (Schema.is_str (JS.get b "type") "tool_use");
      [destruct (CursorRequest.or_call_id random_hex (JS.get b "id") n)|]; split; discriminate.
Qed.

Lemma blocks_loop_none l acc :
  CursorRequest.blocks_loop JSON_stringify random_hex l acc = None <->
  existsb (result_throws JSON_stringify) l = true.
Proof.
  revert acc. induction l as [|b l IH]; intros acc; simpl; [split; discriminate|].
  destruct (CursorRequest.block_step JSON_stringify random_hex acc b) as [acc'|] eqn:E.
  - rewrite IH. destruct (result_throws JSON_stringify b) eqn:R; [|reflexivity].
    apply (proj2 (block_step_none acc b)) in R. congruence.
  - apply block_step_none in E. rewrite E. simpl. split; intros _; reflexivity.
Qed.

Lemma message_step_eq out pending n m :
  m <> JS.JNull ->
  CursorRequest.message_step JSON_stringify random_hex (out, pending, n) m =
  match match JS.get m "content" with
        | Some (JS.JArr l) => CursorRequest.blocks_loop JSON_stringify random_hex l (pending, [], n)
        | _ => Some (pending, [], n)
        end with
  | None => None
  | Some (p1, calls, n1) =>
      let text := match JS.get m "content" with
                  | Some (JS.JStr s) => s
                  | Some (JS.JArr l) => String.concat "" (CursorRequest.extractTextBlocks l)
                  | _ => ""%string
                  end in
      if is_ua m then
        if negb (String.eqb text "") || negb (Nat.eqb (List.length p1) 0)
           || negb (Nat.eqb (List.length calls) 0)
        then Some (out ++ [CursorRequest.mkMessage (ua_role m) text calls p1], [], n1)
        else Some (out, p1, n1)
      else Some (out, p1, n1)
  end.
Proof.
  intros Hn. destruct m; [congruence|..];
  unfold CursorRequest.message_step, is_ua, ua_role; cbv zeta;
  destruct (JS.get _ "content") as [[| | | |bs|]|];
  try destruct (CursorRequest.blocks_loop _ _ bs _) as [[[p1 calls] n1]|]; try reflexivity;
  destruct (Schema.is_str (JS.get _ "role") "user"), (Schema.is_str (JS.get _ "role") "assistant");
  reflexivity.
Qed.

Lemma message_step_none acc m :
  CursorRequest.message_step JSON_stringify random_hex acc m = None <->
  message_throws JSON_stringify m = true.
Proof.
  destruct acc as [[out pending] n].
  assert (Hd : m = JS.JNull \/ m <> JS.JNull) by (destruct m; [left|right..]; congruence).
  destruct Hd as [->|Hn]; [simpl; split; intros _; reflexivity|].
  rewrite (message_step_eq _ _ _ _ Hn).
  assert (Ht : message_throws JSON_stringify m =
               match JS.get m "content" with
               | Some (JS.JArr l) => existsb (result_throws JSON_stringify) l
               | _ => false
               end) by (destruct m; [congruence|reflexivity..]).
  rewrite Ht. cbv zeta.
  destruct (JS.get m "content") as [[| | | |l|]|];
    try (destruct (is_ua m); [destruct (_ || _ || _)|]; split; discriminate).
  destruct (CursorRequest.blocks_loop JSON_stringify random_hex l (pending, [], n))
    as [[[p1 calls] n1]|] eqn:Eb.
  - assert (Hf : existsb (result_throws JSON_stringify) l = false).
    { destruct (existsb _ l) eqn:Ex; [|reflexivity]. apply (proj2 (blocks_loop_none l (pending, [], n))) in Ex. congruence. }
    rewrite Hf. destruct (is_ua m); [destruct (_ || _ || _)|]; split; discriminate.
  - apply blocks_loop_none in Eb. rewrite Eb. split; intros _; reflexivity.
Qed.

Lemma messages_loop_none ms acc :
  CursorRequest.messages_loop JSON_stringify random_hex ms acc = None <->
  existsb (message_throws JSON_stringify) ms = true.
Proof.
  revert acc. induction ms as [|m ms IH]; intros acc; simpl; [split; discriminate|].
  destruct (CursorRequest.message_step JSON_stringify random_hex acc m) as [acc'|] eqn:E.
  - rewrite IH. destruct (message_throws JSON_stringify m) eqn:R; [|reflexivity].
    apply (proj2 (message_step_none acc m)) in R. congruence.
  - apply message_step_none in E. rewrite E. simpl. split; intros _; reflexivity.
Qed.

Lemma map_tools_none ts : CursorRequest.map_tools ts = None <-> In JS.JNull ts.
Proof.
  induction ts as [|t ts IH]; simpl; [split; [discriminate|contradiction]|].
  destruct t; try (split; [intros _; left; reflexivity|reflexivity]);
  destruct (CursorRequest.map_tools ts);
  (split; [intros H; right; apply IH; congruence
          |intros [H|H]; [discriminate H|apply IH in H; congruence]]).
Qed.

Lemma normalize_model_none model :
  CursorRequest.normalize_model model = None <->
  match model with
  | Some v => JS.truthy v = true /\ (forall s, v <> JS.JStr s)
  | None => False
  end.
Proof.
  destruct model as [v|]; simpl; [|split; [discriminate|contradiction]].
  destruct (JS.truthy v) eqn:T; simpl.
  - destruct v; try (split; [intros _; split; [reflexivity|intros s; discriminate]|reflexivity]).
    split; [discriminate|]. intros [_ H]. exfalso. exact (H s eq_refl).
  - split; [discriminate|]. intros [H _]. discriminate H.
Qed.

(** [convertAnthropicToCursorRequest] throws exactly when the request is
    [null]; its messages (when present) are not iterable, contain [null],
    or contain a [tool_result] block whose [toolResultToOutput] throws; the
    [[System Instructions]] text cannot be built ([String(system)] of an
    object with its own [toString], or a text block of an array system
    whose [text] cannot be converted); its tools array contains [null]; or
    its model is a truthy value that is not a string. *)
Theorem cursor_request_throws req n :
  CursorRequest.convertAnthropicToCursorRequest JSON_stringify random_hex req n = None <->
  req = JS.JNull \/
  match JS.get req "messages" with
  | Some v => match Response.iter v with
              | None => True
              | Some ms => existsb (message_throws JSON_stringify) ms = true
              end
  | None => False
  end \/
  CursorRequest.system_messages (JS.get req "system") = None \/
  match JS.get req "tools" with Some (JS.JArr ts) => In JS.JNull ts | _ => False end \/
  match JS.get req "model" with
  | Some v => JS.truthy v = true /\ (forall s, v <> JS.JStr s)
  | None => False
  end.
Proof.
  destruct (ltac:(destruct req; [left; reflexivity|right; discriminate..]) :
              req = JS.JNull \/ req <> JS.JNull) as [->|Hn];
    [simpl; split; [intros _; left; reflexivity|reflexivity]|].
  assert (Hc : CursorRequest.convertAnthropicToCursorRequest JSON_stringify random_hex req n =
    let msgs := match JS.get req "messages" with Some v => v | None => JS.JArr [] end in
    match Response.iter msgs with
    | None => None
    | Some ms =>
        match match CursorRequest.system_messages (JS.get req "system") with
              | Some sm => CursorRequest.messages_loop JSON_stringify random_hex ms (sm, [], n)
              | None => None
              end with
        | None => None
        | Some (cursorMessages, _, n') =>
            match match JS.get req "tools" with
                  | Some (JS.JArr ts) => CursorRequest.map_tools ts
                  | _ => Some []
                  end with
            | None => None
            | Some tls =>
                match CursorRequest.normalize_model (JS.get req "model") with
                | None => None
                | Some m => Some (CursorRequest.mkRequest m cursorMessages tls
                                    (Response.or_default
                                       (match JS.get req "thinking" with
                                        | Some JS.JNull | None => None
                                        | Some th => JS.get th "reasoning_effort"
                                        end) JS.JNull), n')
                end
            end
        end
    end).
  { destruct req; [congruence|reflexivity..]. }
  rewrite Hc. clear Hc. cbv zeta.
  rewrite <- normalize_model_none.
  assert (Ht : match JS.get req "tools" with
               | Some (JS.JArr ts) => CursorRequest.map_tools ts
               | _ => Some []
               end = None <->
               match JS.get req "tools" with Some (JS.JArr ts) => In JS.JNull ts | _ => False end).
  { destruct (JS.get req "tools") as [[| | | | |]|];
      try (split; [discriminate|contradiction]). apply map_tools_none. }
  destruct (Response.iter (match JS.get req "messages" with Some v => v | None => JS.JArr [] end))
    as [ms|] eqn:Ei.
  2: { assert (Hm : match JS.get req "messages" with
                    | Some v => match Response.iter v with
                                | None => True
                                | Some ms => existsb (message_throws JSON_stringify) ms = true
                                end
                    | None => False
                    end).
       { destruct (JS.get req "messages") as [v|]; [rewrite Ei; exact I|discriminate Ei]. }
       split; [intros _; right; left; exact Hm|reflexivity]. }
  assert (Hm : match JS.get req "messages" with
               | Some v => match Response.iter v with
                           | None => True
                           | Some ms => existsb (message_throws JSON_stringify) ms = true
                           end
               | None => False
               end <-> existsb (message_throws JSON_stringify) ms = true).
  { destruct (JS.get req "messages") as [v|]; [rewrite Ei; reflexivity|].
    simpl in Ei. injection Ei as <-. simpl. split; [contradiction|discriminate]. }
  rewrite Hm. clear Hm Ei.
  destruct (CursorRequest.system_messages (JS.get req "system")) as [sm|];
    [|split; [intros _; right; right; left; reflexivity|reflexivity]].
  destruct (CursorRequest.messages_loop JSON_stringify random_hex ms (sm, [], n))
    as [[[cm p] n']|] eqn:El.
  2: { apply messages_loop_none in El. split; [intros _; right; left; exact El|reflexivity]. }
  assert (Hf : existsb (message_throws JSON_stringify) ms = false).
  { destruct (existsb _ ms) eqn:Ex; [|reflexivity]. apply (proj2 (messages_loop_none ms (sm, [], n))) in Ex. congruence. }
  rewrite Hf.
  destruct (match JS.get req "tools" with
            | Some (JS.JArr ts) => CursorRequest.map_tools ts
            | _ => Some []
            end) as [tls|];
    [|split; [intros _; right; right; right; left; apply Ht; reflexivity|reflexivity]].
  destruct (CursorRequest.normalize_model (JS.get req "model")) as [m|].
  - split; [discriminate|].
    intros [H|[H|[H|[H|H]]]]; [contradiction|discriminate|discriminate|apply Ht in H; discriminate|discriminate].
  - split; [intros _; right; right; right; right; reflexivity|reflexivity].
Qed.

Lemma indexed_snoc l x :
  indexed l -> CursorRequest.index x = List.length l -> indexed (l ++ [x]).
Proof.
  unfold indexed. intros H Hx. rewrite map_app, H, length_app. simpl.
  rewrite Hx, Nat.add_1_r, seq_S. reflexivity.
Qed.

Lemma block_step_results pending calls n b p2 c2 n2 :
  CursorRequest.block_step JSON_stringify random_hex (pending, calls, n) b = Some (p2, c2, n2) ->
  map tool_result_view p2 =
    map tool_result_view pending ++
    map (result_view JSON_stringify) (if JS.truthy b && Schema.is_str (JS.get b "type") "tool_result" then [b] else []) /\
  (indexed pending -> indexed p2).
Proof.
  unfold CursorRequest.block_step.
  destruct (JS.truthy b); simpl; [|intros E; injection E as <- _ _; rewrite app_nil_r; auto].
  destruct (Schema.is_str (JS.get b "type") "tool_result").
  - destruct (CursorRequest.or_call_id random_hex
                (JS.js_or (JS.get b "tool_use_id") (JS.get b "id")) n) as [id k].
    destruct (CursorRequest.toolResultToOutput JSON_stringify (JS.get b "content")) as [o|] eqn:Eo;
      [|discriminate].
    intros E. injection E as <- _ _. split.
    + rewrite map_app. simpl. unfold result_view, tool_result_view. simpl. rewrite Eo. reflexivity.
    + intros Hi. apply indexed_snoc; [exact Hi|reflexivity].
  - destruct (Schema.is_str (JS.get b "type") "tool_use").
    + destruct (CursorRequest.or_call_id random_hex (JS.get b "id") n) as [id k].
      intros E. injection E as <- _ _. rewrite app_nil_r. auto.
    + intros E. injection E as <- _ _. rewrite app_nil_r. auto.
Qed.

Lemma blocks_loop_results l pending calls n p' c' n' :
  CursorRequest.blocks_loop JSON_stringify random_hex l (pending, calls, n) = Some (p', c', n') ->
  map tool_result_view p' =
    map tool_result_view pending ++
    map (result_view JSON_stringify) (filter (fun b => JS.truthy b && Schema.is_str (JS.get b "type") "tool_result") l) /\
  (indexed pending -> indexed p').
Proof.
  revert pending calls n. induction l as [|b l IH]; intros pending calls n E;
    cbn [CursorRequest.blocks_loop filter] in *.
  - injection E as <- <- <-. rewrite app_nil_r. auto.
  - destruct (CursorRequest.block_step JSON_stringify random_hex (pending, calls, n) b)
      as [[[p2 c2] n2]|] eqn:Eb; [|discriminate E].
    destruct (block_step_results _ _ _ _ _ _ _ Eb) as [H1 H2].
    destruct (IH _ _ _ E) as [H3 H4]. split.
    + rewrite H3, H1, <- app_assoc. f_equal.
      destruct (JS.truthy b && Schema.is_str (JS.get b "type") "tool_result"); simpl; reflexivity.
    + intros Hi. exact (H4 (H2 Hi)).
Qed.

Lemma message_step_shape out pending n m out' p' n' :
  CursorRequest.message_step JSON_stringify random_hex (out, pending, n) m = Some (out', p', n') ->
  exists p1,
    map tool_result_view p1 =
      map tool_result_view pending ++ map (result_view JSON_stringify) (result_blocks m) /\
    (indexed pending -> indexed p1) /\
    ((is_ua m = true /\ p' = [] /\
      ((exists text calls, out' = out ++ [CursorRequest.mkMessage (ua_role m) text calls p1]) \/
       (out' = out /\ p1 = []))) \/
     (is_ua m = false /\ out' = out /\ p' = p1)).
Proof.
  intros E. assert (Hn : m <> JS.JNull) by (intros ->; discriminate E).
  rewrite (message_step_eq _ _ _ _ Hn) in E.
  destruct (match JS.get m "content" with
            | Some (JS.JArr l) => CursorRequest.blocks_loop JSON_stringify random_hex l (pending, [], n)
            | _ => Some (pending, [], n)
            end) as [[[p1 calls] n1]|] eqn:Eb; [|discriminate E].
  exists p1.
  assert (Hv : map tool_result_view p1 =
                 map tool_result_view pending ++ map (result_view JSON_stringify) (result_blocks m) /\
               (indexed pending -> indexed p1)).
  { unfold result_blocks. destruct (JS.get m "content") as [[| | | |l|]|];
      try (injection Eb as <- _ _; rewrite app_nil_r; auto).
    exact (blocks_loop_results _ _ _ _ _ _ _ Eb). }
  destruct Hv as [Hv Hi]. split; [exact Hv|]. split; [exact Hi|].
  cbv zeta in E. destruct (is_ua m).
  - left. split; [reflexivity|]. destruct (_ || _ || _) eqn:P; injection E as <- <- <-.
    + split; [reflexivity|]. left. eauto.
    + apply orb_false_iff in P as [P _]. apply orb_false_iff in P as [_ P].
      apply negb_false_iff, Nat.eqb_eq, length_zero_iff_nil in P. subst p1.
      split; [reflexivity|]. right. split; reflexivity.
  - right. injection E as <- <- <-. auto.
Qed.

Lemma message_step_results out pending n m out' p' n' :
  CursorRequest.message_step JSON_stringify random_hex (out, pending, n) m = Some (out', p', n') ->
  map tool_result_view (flat_map CursorRequest.tool_results out') ++ map tool_result_view p' =
    map tool_result_view (flat_map CursorRequest.tool_results out) ++
    map tool_result_view pending ++ map (result_view JSON_stringify) (result_blocks m) /\
  (is_ua m = true -> p' = []) /\
  (is_ua m = false -> out' = out) /\
  (out_indexed out -> indexed pending -> out_indexed out' /\ indexed p').
Proof.
  intros E. destruct (message_step_shape _ _ _ _ _ _ _ E) as (p1 & Hv & Hi & H).
  destruct H as [(Hu & -> & [(text & calls & ->)|(-> & ->)])|(Hu & -> & ->)].
  - split; [|split; [reflexivity|split; [rewrite Hu; discriminate|]]].
    + rewrite flat_map_app. simpl. rewrite !app_nil_r, map_app, Hv. reflexivity.
    + intros Ho Hp. split; [|reflexivity].
      apply Forall_app. split; [exact Ho|]. constructor; [exact (Hi Hp)|constructor].
  - split; [|split; [reflexivity|split; [rewrite Hu; discriminate|]]].
    + rewrite <- Hv. reflexivity.
    + intros Ho _. split; [exact Ho|reflexivity].
  - split; [rewrite Hv, app_assoc; reflexivity|].
    split; [rewrite Hu; discriminate|]. split; [reflexivity|].
    intros Ho Hp. split; [exact Ho|exact (Hi Hp)].
Qed.

Lemma messages_loop_results ms out pending n out' p' n' :
  CursorRequest.messages_loop JSON_stringify random_hex ms (out, pending, n) = Some (out', p', n') ->
  map tool_result_view (flat_map CursorRequest.tool_results out') ++ map tool_result_view p' =
    map tool_result_view (flat_map CursorRequest.tool_results out) ++
    map tool_result_view pending ++ map (result_view JSON_stringify) (flat_map result_blocks ms) /\
  (existsb is_ua ms = false -> out' = out) /\
  (is_ua (last ms JS.JNull) = true -> p' = []) /\
  (out_indexed out -> indexed pending -> out_indexed out' /\ indexed p').
Proof.
  revert out pending n. induction ms as [|m ms IH]; intros out pending n E; cbn [CursorRequest.messages_loop] in E.
  - injection E as <- <- <-. simpl. rewrite app_nil_r.
    split; [reflexivity|]. split; [reflexivity|]. split; [discriminate|auto].
  - destruct (CursorRequest.message_step JSON_stringify random_hex (out, pending, n) m)
      as [[[o1 p1] n1]|] eqn:Em; [|discriminate E].
    destruct (message_step_results _ _ _ _ _ _ _ Em) as [V1 [U1 [N1 I1]]].
    destruct (IH _ _ _ E) as [V2 [N2 [L2 I2]]]. split; [|split; [|split]].
    + rewrite V2, app_assoc, V1. cbn [flat_map]. rewrite map_app, <- !app_assoc. reflexivity.
    + simpl. intros H. apply orb_false_iff in H as [H1 H2]. rewrite (N2 H2). exact (N1 H1).
    + destruct ms as [|m2 ms].
      * simpl in E. injection E as <- <- <-. exact U1.
      * exact L2.
    + intros Ho Hp. destruct (I1 Ho Hp) as [Ho1 Hp1]. exact (I2 Ho1 Hp1).
Qed.

Lemma map_result_view_nil (l : list JS.jv) :
  map (result_view JSON_stringify) l = [] -> l = [].
Proof. destruct l; [reflexivity|discriminate]. Qed.

Lemma messages_loop_groups ms out pending n out' p' n' acc :
  CursorRequest.messages_loop JSON_stringify random_hex ms (out, pending, n) = Some (out', p', n') ->
  map tool_result_view pending = map (result_view JSON_stringify) acc ->
  filter has_results (map message_results out') =
    filter has_results (map message_results out) ++
    map (group_results JSON_stringify) (filter has_results (carried_groups ms acc)).
Proof.
  revert out pending n acc. induction ms as [|m ms IH]; intros out pending n acc E Ha;
    cbn [CursorRequest.messages_loop carried_groups] in *.
  - injection E as <- <- <-. rewrite app_nil_r. reflexivity.
  - destruct (CursorRequest.message_step JSON_stringify random_hex (out, pending, n) m)
      as [[[o1 p1] n1]|] eqn:Em; [|discriminate E].
    destruct (message_step_shape _ _ _ _ _ _ _ Em) as (q & Hv & _ & H).
    rewrite Ha, <- map_app in Hv.
    destruct H as [(Hu & -> & [(text & calls & ->)|(-> & ->)])|(Hu & -> & ->)]; rewrite ?Hu.
    + rewrite (IH _ _ _ [] E eq_refl). rewrite map_app, filter_app, <- app_assoc. f_equal.
      unfold message_results at 1. simpl. unfold has_results at 1 3. simpl. rewrite Hv.
      destruct (acc ++ result_blocks m); reflexivity.
    + rewrite (IH _ _ _ [] E eq_refl). symmetry in Hv. apply map_result_view_nil in Hv.
      rewrite Hv. reflexivity.
    + exact (IH _ _ _ _ E Hv).
Qed.

Lemma messages_loop_app a b acc :
  CursorRequest.messages_loop JSON_stringify random_hex (a ++ b) acc =
  match CursorRequest.messages_loop JSON_stringify random_hex a acc with
  | Some acc' => CursorRequest.messages_loop JSON_stringify random_hex b acc'
  | None => None
  end.
Proof.
  revert acc. induction a as [|m a IH]; intros acc; simpl; [reflexivity|].
  destruct (CursorRequest.message_step JSON_stringify random_hex acc m); [apply IH|reflexivity].
Qed.

Lemma system_messages_results sys sm :
  CursorRequest.system_messages sys = Some sm ->
  flat_map CursorRequest.tool_results sm = [] /\ out_indexed sm /\
  filter has_results (map message_results sm) = [].
Proof.
  unfold CursorRequest.system_messages.
  destruct sys as [v|]; [|intros E; injection E as <-; split; [reflexivity|split; [constructor|reflexivity]]].
  destruct (JS.truthy v); [|intros E; injection E as <-; split; [reflexivity|split; [constructor|reflexivity]]].
  destruct (match v with
            | JS.JArr l => _
            | _ => JS.js_String v
            end) as [t|]; [|discriminate].
  destruct (String.eqb t ""); intros E; injection E as <-;
    [split; [reflexivity|split; [constructor|reflexivity]]|].
  split; [reflexivity|]. split; [constructor; [reflexivity|constructor]|reflexivity].
Qed.

Lemma convert_messages req n r n' :
  CursorRequest.convertAnthropicToCursorRequest JSON_stringify random_hex req n = Some (r, n') ->
  exists ms sm p k,
    Response.iter (match JS.get req "messages" with Some v => v | None => JS.JArr [] end) = Some ms /\
    CursorRequest.system_messages (JS.get req "system") = Some sm /\
    CursorRequest.messages_loop JSON_stringify random_hex ms (sm, [], n) =
    Some (CursorRequest.messages r, p, k).
Proof.
  unfold CursorRequest.convertAnthropicToCursorRequest. intros E.
  destruct req; [discriminate E|..];
  (cbv zeta in E;
   destruct (Response.iter _) as [ms|]; [|discriminate E];
   destruct (CursorRequest.system_messages _) as [sm|] eqn:Es; [|discriminate E];
   destruct (CursorRequest.messages_loop _ _ ms _) as [[[cm p] k]|] eqn:El; [|discriminate E];
   destruct (match _ with Some (JS.JArr ts) => CursorRequest.map_tools ts | _ => Some [] end);
     [|discriminate E];
   destruct (CursorRequest.normalize_model _); [|discriminate E];
   injection E as <- _; exists ms, sm, p, k; split; [reflexivity|split; [first [exact Es|reflexivity]|exact El]]).
Qed.

(** Tool results are carried to the next user or assistant message. The
    tool results of the converted messages are, in order, those of the
    messages up to the last user or assistant message; the tool results
    after it are dropped. Message by message: the converted messages that
    carry tool results are, in order, one per user or assistant message
    [m] that has results to take, with [m]'s role and exactly the results
    of the messages after the previous user or assistant message, up to
    and including [m] ([carried_groups]). Each message's results carry the
    indices 0, 1, 2, ... *)
Theorem cursor_tool_results req n r n' ms pre post :
  CursorRequest.convertAnthropicToCursorRequest JSON_stringify random_hex req n = Some (r, n') ->
  JS.get req "messages" = Some (JS.JArr ms) ->
  ms = pre ++ post ->
  existsb is_ua post = false ->
  pre = [] \/ is_ua (last pre JS.JNull) = true ->
  map tool_result_view (flat_map CursorRequest.tool_results (CursorRequest.messages r)) =
    map (result_view JSON_stringify) (flat_map result_blocks pre) /\
  filter has_results (map message_results (CursorRequest.messages r)) =
    map (group_results JSON_stringify) (filter has_results (carried_groups ms [])) /\
  Forall (fun m => map CursorRequest.index (CursorRequest.tool_results m) =
                   seq 0 (List.length (CursorRequest.tool_results m)))
         (CursorRequest.messages r).
Proof.
  intros E Hm Hs Hpost Hpre.
  destruct (convert_messages _ _ _ _ E) as [ms' [sm [p [k [Ei [Es El]]]]]].
  rewrite Hm in Ei. injection Ei as <-.
  destruct (system_messages_results _ _ Es) as [S1 [S2 S3]].
  split; [|split].
  2: { rewrite (messages_loop_groups _ _ _ _ _ _ _ [] El eq_refl), S3. reflexivity. }
  all: subst ms; rewrite messages_loop_app in El;
    destruct (CursorRequest.messages_loop JSON_stringify random_hex pre (sm, [], n))
      as [[[o1 p1] n1]|] eqn:E1; [|discriminate El];
    destruct (messages_loop_results _ _ _ _ _ _ _ E1) as [V1 [_ [L1 I1]]];
    destruct (messages_loop_results _ _ _ _ _ _ _ El) as [_ [N2 [_ I2]]];
    rewrite (N2 Hpost); rewrite S1 in V1; simpl in V1;
    assert (Hp1 : p1 = []) by
      (destruct Hpre as [->|H]; [simpl in E1; injection E1 as _ <- _; reflexivity|exact (L1 H)]);
    subst p1.
  - rewrite app_nil_r in V1. exact V1.
  - destruct (I1 S2 eq_refl) as [Ho1 Hp1']. destruct (I2 Ho1 Hp1') as [Ho _].
    rewrite (N2 Hpost) in Ho. exact Ho.
Qed.

End CursorRequestProofs.

Lemma cursor_tool_results_witness :
  exists r n',
    CursorRequest.convertAnthropicToCursorRequest (fun _ => "{}"%string) (fun _ => "0"%string)
      sample_cursor_request 0 = Some (r, n') /\
    map tool_result_view (flat_map CursorRequest.tool_results (CursorRequest.messages r)) =
      [(JS.JStr "tool", Some "one"%string); (JS.JStr "tool", Some "two"%string)] /\
    filter has_results (map message_results (CursorRequest.messages r)) =
      [("user"%string, [(JS.JStr "tool", Some "one"%string); (JS.JStr "tool", Some "two"%string)])].
Proof.
  destruct (CursorRequest.convertAnthropicToCursorRequest (fun _ => "{}"%string) (fun _ => "0"%string)
              sample_cursor_request 0) as [[r n']|] eqn:E; [|vm_compute in E; discriminate E].
  exists r, n'. split; [reflexivity|].
  destruct (cursor_tool_results (fun _ => "{}"%string) (fun _ => "0"%string) sample_cursor_request 0 r n'
              _ (firstn 2 (match JS.get sample_cursor_request "messages" with
                           | Some (JS.JArr l) => l | _ => [] end))
              (skipn 2 (match JS.get sample_cursor_request "messages" with
                        | Some (JS.JArr l) => l | _ => [] end))
              E eq_refl eq_refl eq_refl (or_intror eq_refl)) as [H1 [H2 _]].
  rewrite H1, H2. split; reflexivity.
Defined.
